(** * Surgery scheduling: duration model, domain reduction and
      closed-form feasibility analysis

    A shallow embedding of the solver-independent parts of the surgery
    scheduler:

    - [precompute_durations], [_preprocess_and_fix] and the data part of
      [build_model] of [src/surgery_scheduler_base.py];
    - [check_instance_feasibility] of [check_instance.py];
    - [verify_reliability] of [src/results_analyzer.py].

    Conventions of the embedding.

    - Python floats are idealised as the real numbers of the Standard
      Library.  The one non-finite value the code produces on purpose,
      [float('inf')], is kept apart in the type [ext].
    - Python dictionaries are finite maps ([gmap]); identifiers are strings,
      so the composite key [f"{r}|{k}"] is a string concatenation.
    - Python exceptions are the [Raise] results of the type [result]. *)

From Stdlib Require Import Reals Lra Lia.
From stdpp Require Import gmap strings list fin_maps.

Open Scope R_scope.

(** ** Decidable comparisons on the reals *)

#[global] Instance Rlt_decision : RelDecision Rlt := Rlt_dec.
#[global] Instance Rle_decision : RelDecision Rle := Rle_dec.
#[global] Instance Rge_decision : RelDecision Rge := Rge_dec.
#[global] Instance Rgt_decision : RelDecision Rgt := Rgt_dec.
#[global] Instance Req_decision : EqDecision R := Req_dec_T.
#[global] Instance R_inhabited : Inhabited R := populate 0.

(** ** Exceptions *)

Inductive PyError : Type :=
  | KeyError (key : string)
  | ValueError (msg : string)
  | ZeroDivisionError
  | AttributeError (attr : string).

Inductive result (A : Type) : Type :=
  | Ok (a : A)
  | Raise (e : PyError).

Arguments Ok {A} a.
Arguments Raise {A} e.

#[global] Instance result_ret : MRet result := λ A a, Ok a.
#[global] Instance result_bind : MBind result := λ A B f m,
  match m with
  | Ok a => f a
  | Raise e => Raise e
  end.

Definition is_Ok {A} (m : result A) : Prop := ∃ a, m = Ok a.

(** A [for] loop that threads an accumulator and may raise. *)
Fixpoint foldlM {A B} (f : B → A → result B) (b : B) (l : list A) : result B :=
  match l with
  | [] => Ok b
  | a :: l' => b' ← f b a; foldlM f b' l'
  end.

(** One round of the loop [for a in l: d[key a] = g a]. *)
Definition insert_step {A V} `{Countable K}
    (key : A → K) (g : A → result V) (m : gmap K V) (a : A) : result (gmap K V) :=
  v ← g a; Ok (<[key a := v]> m).

(** The loop [for a in l: d[key a] = g a] on an initially empty dictionary. *)
Definition build_dict {A V} `{Countable K}
    (key : A → K) (g : A → result V) (l : list A) : result (gmap K V) :=
  foldlM (insert_step key g) ∅ l.

(** ** Extended durations: a finite float or [float('inf')] *)

Inductive ext : Type :=
  | Fin (x : R)
  | PInf.

(** [e > x] for a finite [x]. *)
Definition ext_gt (e : ext) (x : R) : bool :=
  match e with
  | Fin v => bool_decide (v > x)
  | PInf => true
  end.

(** [e <= x] for a finite [x]. *)
Definition ext_le (e : ext) (x : R) : bool :=
  match e with
  | Fin v => bool_decide (v <= x)
  | PInf => false
  end.

(** [e + x], [e - x] for a finite [x]; [e1 + e2]. *)
Definition ext_add (e1 e2 : ext) : ext :=
  match e1, e2 with
  | Fin a, Fin b => Fin (a + b)
  | _, _ => PInf
  end.

Definition ext_sub (e : ext) (x : R) : ext :=
  match e with
  | Fin a => Fin (a - x)
  | PInf => PInf
  end.

(** [min(e, x)] for a finite [x]. *)
Definition ext_min (e : ext) (x : R) : ext :=
  match e with
  | Fin a => Fin (Rmin a x)
  | PInf => Fin x
  end.

(** [max(e1, e2)]. *)
Definition ext_max (e1 e2 : ext) : ext :=
  match e1, e2 with
  | Fin a, Fin b => Fin (Rmax a b)
  | _, _ => PInf
  end.

(** ** The duration model *)

(** [math.sqrt(x)]: raises on a negative argument. *)
Definition py_sqrt (x : R) : result R :=
  if bool_decide (x < 0) then Raise (ValueError "math domain error")
  else Ok (sqrt x).

(** [a / b] on floats: raises on a zero divisor. *)
Definition py_div (a b : R) : result R :=
  if bool_decide (b = 0) then Raise ZeroDivisionError
  else Ok (a / b).

(** [math.log(x)]: raises unless the argument is positive. *)
Definition py_log (x : R) : result R :=
  if bool_decide (x <= 0) then Raise (ValueError "math domain error")
  else Ok (ln x).

(** The Cantelli buffer in closed form. *)
Definition buffered (mu sigma alpha : R) : R :=
  mu + sigma * sqrt ((1 - alpha) / alpha).

(** Lines 97-101 of [precompute_durations]:
<<
    if alpha >= 1.0:
        buffer_duration = float('inf')
    else:
        buffer = sigma * math.sqrt((1 - alpha) / alpha)
        buffer_duration = mu + buffer
>> *)
Definition buffer_duration (mu sigma alpha : R) : result ext :=
  if bool_decide (alpha >= 1) then Ok PInf
  else
    q ← py_div (1 - alpha) alpha;
    s ← py_sqrt q;
    Ok (Fin (mu + sigma * s)).

(** ** The instance *)

(** An entry of a ['mu_sigma'] mapping: a dictionary that the code reads at
    ['mu'] and at ['sigma'].  An absent key is [None]; a key that is present
    holds a number. *)
Record MuSigmaEntry : Type := {
  e_mu : option R;
  e_sigma : option R
}.

(** [entry['mu']], then [entry['sigma']] (lines 79-80 of
    [precompute_durations], lines 44-45 of [check_instance_feasibility]):
    a subscript at an absent key raises. *)
Definition read_entry (e : MuSigmaEntry) : result (R * R) :=
  match e_mu e with
  | None => Raise (KeyError "mu")
  | Some mu =>
      match e_sigma e with
      | None => Raise (KeyError "sigma")
      | Some sigma => Ok (mu, sigma)
      end
  end.

(** A surgery dictionary.  The keys the code reads are ['id'],
    ['specialty'], ['mu_sigma'] (a dictionary from ["room|doctor"] keys to
    entries), the flat pair ['duration_mean'], ['duration_std'], and the
    flat pair ['mu'], ['sigma'].  An absent key is [None]. *)
Record Surgery : Type := {
  s_id : string;
  s_specialty : option string;
  s_mu_sigma : option (gmap string MuSigmaEntry);
  s_duration_mean : option R;
  s_duration_std : option R;
  s_mu : option R;
  s_sigma : option R
}.

Record Day : Type := {
  d_id : string;
  d_H : R
}.

Record Room : Type := {
  r_id : string;
  r_types : option (list string)
}.

(** The value under a doctor's ['daily_capacity'] key: a dictionary from
    day identifiers to minutes, or something that is not a dictionary. *)
Inductive DailyCapacity : Type :=
  | CapMap (m : gmap string R)
  | CapScalar (v : R).

Record Doctor : Type := {
  k_id : string;
  k_daily_capacity : option DailyCapacity;
  k_specialties : option (list string)
}.

Record Instance : Type := {
  surgeries : list Surgery;
  days : list Day;
  rooms : list Room;
  doctors : list Doctor
}.

#[global] Instance Day_inhabited : Inhabited Day :=
  populate {| d_id := ""; d_H := 0 |}.

(** The [epsilon] argument: a float, an int, or a per-day dictionary. *)
Inductive Epsilon : Type :=
  | EpsFloat (x : R)
  | EpsInt (z : Z)
  | EpsDict (m : gmap string R).

(** The fields of [SurgeryScheduler] set by [__init__]. *)
Record SurgeryScheduler : Type := {
  instance : Instance;
  alpha_choices : list R;
  epsilon : Epsilon;
  ot_cost_room : R;
  ot_cost_doc : R;
  max_ot_room : R;
  max_ot_doc : R
}.

(** [enumerate(l)], counting from [n]. *)
Fixpoint enumerate_from {A} (n : nat) (l : list A) : list (nat * A) :=
  match l with
  | [] => []
  | a :: l' => (n, a) :: enumerate_from (S n) l'
  end.

Definition enumerate {A} (l : list A) : list (nat * A) := enumerate_from 0 l.

(** The dictionary comprehension [{key a: f a for a in l}]: a later element
    overwrites an earlier one with the same key. *)
Definition dict_map {A V} `{Countable K}
    (key : A → K) (f : A → V) (l : list A) : gmap K V :=
  foldl (λ m a, <[key a := f a]> m) ∅ l.

(** [mapR f l] is the list comprehension [[f a for a in l]] when [f] may
    raise. *)
Fixpoint mapR {A B} (f : A → result B) (l : list A) : result (list B) :=
  match l with
  | [] => Ok []
  | a :: l' => b ← f a; bs ← mapR f l'; Ok (b :: bs)
  end.

(** ** [precompute_durations] *)

(** The key [f"{r}|{k}"]. *)
Definition combo_key (r k : string) : string := r +:+ "|" +:+ k.

(** Truth value of [surgery.get('specialty')]: [None] and the empty string
    are false. *)
Definition truthy (o : option string) : bool :=
  match o with
  | Some s => negb (bool_decide (s = ""))
  | None => false
  end.

(** Lines 74-93: the [(mu, sigma)] of one (surgery, room, doctor), or [None]
    when [mu], [sigma] stay [None] or the loop [continue]s.  An entry of the
    mapping that lacks ['mu'] or ['sigma'] raises a [KeyError], as does a
    surgery read through ['duration_mean'] that lacks ['duration_std']. *)
Definition lookup_mu_sigma (surgery : Surgery) (room : Room) (doctor : Doctor)
    : result (option (R * R)) :=
  match s_mu_sigma surgery with
  | Some ms =>
      match ms !! combo_key (r_id room) (k_id doctor) with
      | Some entry => p ← read_entry entry; Ok (Some p)
      | None => Ok None
      end
  | None =>
      match s_duration_mean surgery with
      | Some mean =>
          let surgery_specialty := s_specialty surgery in
          let doctor_specialties := default [] (k_specialties doctor) in
          let room_types := default [] (r_types room) in
          if truthy surgery_specialty
             && (negb (bool_decide (default "" surgery_specialty ∈ doctor_specialties))
                 || negb (bool_decide (default "" surgery_specialty ∈ room_types)))
          then Ok None
          else
            match s_duration_std surgery with
            | Some std => Ok (Some (mean, std))
            | None => Raise (KeyError "duration_std")
            end
      | None => Ok None
      end
  end.

(** Lines 95-103: the dictionary [durations[j][r][k]]. *)
Definition duration_cell (alphas : list R)
    (surgery : Surgery) (room : Room) (doctor : Doctor) : result (gmap nat ext) :=
  ms ← lookup_mu_sigma surgery room doctor;
  match ms with
  | Some (mu, sigma) =>
      build_dict fst (λ p, buffer_duration mu sigma p.2) (enumerate alphas)
  | None => Ok ∅
  end.

Abbreviation Durations := (gmap string (gmap string (gmap string (gmap nat ext)))).

Definition precompute_durations (self : SurgeryScheduler) : result Durations :=
  build_dict s_id (λ surgery,
    build_dict r_id (λ room,
      build_dict k_id (λ doctor,
        duration_cell (alpha_choices self) surgery room doctor)
        (doctors (instance self)))
      (rooms (instance self)))
    (surgeries (instance self)).

(** [durations[j][r][k].get(t)].  The three subscripts never raise in the
    source, where [j], [r], [k] range over the identifiers of the instance
    (see [precompute_durations_cell]); the total lookup [!!!] reads an empty
    dictionary anywhere else. *)
Definition durations_get (durations : Durations) (j r k : string) (t : nat)
    : option ext :=
  (((durations !!! j) !!! r) !!! k : gmap nat ext) !! t.

(** ** [_preprocess_and_fix] and the valid set of [build_model] *)

Abbreviation Combo := (string * string * string * string * nat)%type.

(** Lines 140-147 of [build_model], repeated verbatim at lines 252-259 of
    [_preprocess_and_fix]:
<<
    if k in doc_dict:
        doctor_capacity = doc_dict[k].get('daily_capacity', {})
        if isinstance(doctor_capacity, dict):
            cap = doctor_capacity.get(d, 0)
        else:
            cap = day_dict[d]['H']
    else:
        cap = day_dict[d]['H']
>> *)
Definition doctor_day_cap (day_dict : gmap string Day) (doc_dict : gmap string Doctor)
    (k d : string) : R :=
  match doc_dict !! k with
  | Some doc =>
      match default (CapMap ∅) (k_daily_capacity doc) with
      | CapMap doctor_capacity => default 0 (doctor_capacity !! d)
      | CapScalar _ => d_H (day_dict !!! d)
      end
  | None => d_H (day_dict !!! d)
  end.

(** Lines 246-276, [_preprocess_and_fix]; its argument [surgery_dict] is
    never read.  [day_dict[d]] is read at a [d] of [D] only, a key of
    [day_dict]. *)
Definition preprocess_and_fix (durations : Durations) (max_ot_doc : R)
    (J D R_ K : list string) (T : list nat)
    (day_dict : gmap string Day) (doc_dict : gmap string Doctor) : gset Combo :=
  list_to_set (
    j ← J; d ← D; k ← K;
    let cap := doctor_day_cap day_dict doc_dict k d in
    if bool_decide (cap = 0) then
      r ← R_; t ← T; [(j, d, r, k, t)]
    else
      let max_doctor_time := cap + max_ot_doc in
      r ← R_; t ← T;
      match durations_get durations j r k t with
      | Some dur => if ext_gt dur max_doctor_time then [(j, d, r, k, t)] else []
      | None => []
      end).

(** Lines 135-154 of [build_model]. *)
Definition build_valid (durations : Durations) (fixed_vars : gset Combo)
    (J D R_ K : list string) (T : list nat)
    (day_dict : gmap string Day) (doc_dict : gmap string Doctor) : gset Combo :=
  list_to_set (
    j ← J; d ← D; r ← R_; k ← K;
    let cap := doctor_day_cap day_dict doc_dict k d in
    if bool_decide (cap > 0) then
      t_idx ← T;
      if bool_decide (is_Some (durations_get durations j r k t_idx))
         && negb (bool_decide ((j, d, r, k, t_idx) ∈ fixed_vars))
      then [(j, d, r, k, t_idx)] else []
    else []).

(** ** [build_model] *)

Definition combo_surgery (c : Combo) : string := c.1.1.1.1.
Definition combo_day (c : Combo) : string := c.1.1.1.2.
Definition combo_room (c : Combo) : string := c.1.1.2.
Definition combo_doctor (c : Combo) : string := c.1.2.
Definition combo_alpha (c : Combo) : nat := c.2.

(** Lines 113-117: the per-day epsilon dictionary. *)
Definition build_epsilon_dict (eps : Epsilon) (ds : list Day) : gmap string R :=
  match eps with
  | EpsFloat x => dict_map d_id (λ _, x) ds
  | EpsInt z => dict_map d_id (λ _, IZR z) ds
  | EpsDict m => dict_map d_id (λ d, default 0.25 (m !! d_id d)) ds
  end.

(** [max(l)] on durations. *)
Definition ext_list_max (l : list ext) : result ext :=
  match l with
  | [] => Raise (ValueError "max() arg is an empty sequence")
  | e :: l' => Ok (foldl ext_max e l')
  end.

(** Lines 220-222: the largest buffered duration of the instance.  The
    generator keeps the non-empty cells only, which are those whose own
    [max] is defined. *)
Definition build_max_dur (durations : Durations) (J R_ K : list string)
    : result ext :=
  ext_list_max (
    j ← J; r ← R_; k ← K;
    let cell : gmap nat ext := ((durations !!! j) !!! r) !!! k in
    match ext_list_max (map_to_list cell).*2 with
    | Ok m => [m]
    | Raise _ => []
    end).

(** Lines 159-164: the doctors each surgery can use. *)
Definition build_surgery_doctors (J : list string) (valid : gset Combo)
    : gmap string (gset string) :=
  dict_map (λ j, j)
    (λ j, set_map combo_doctor (filter (λ c, combo_surgery c = j) valid))
    J.

(** What [build_model] computes before and while it hands the model to
    Pyomo.  The Pyomo objects themselves are outside this embedding: a
    result [Ok] says that the Python code of [build_model] and of
    [_add_constraints] raised nothing, not that Pyomo accepted every rule
    (it rejects a rule that evaluates to a plain Boolean, as the assignment
    rule does for a surgery without any valid combination). *)
Record BuiltModel : Type := {
  m_durations : Durations;
  m_epsilon_dict : gmap string R;
  m_J : list string;
  m_D : list string;
  m_R : list string;
  m_K : list string;
  m_T : list nat;
  m_day_dict : gmap string Day;
  m_doc_dict : gmap string Doctor;
  m_fixed_vars : gset Combo;
  m_VALID : gset Combo;
  m_surgery_doctors : gmap string (gset string);
  m_log_one_minus_eps : gmap string R;
  m_max_dur : ext;
  m_M_room : gmap string ext;
  m_ln_alpha : list R
}.

(** The index sets and lookup dictionaries of lines 120-128. *)
Definition sched_J (self : SurgeryScheduler) : list string :=
  s_id <$> surgeries (instance self).
Definition sched_D (self : SurgeryScheduler) : list string :=
  d_id <$> days (instance self).
Definition sched_R (self : SurgeryScheduler) : list string :=
  r_id <$> rooms (instance self).
Definition sched_K (self : SurgeryScheduler) : list string :=
  k_id <$> doctors (instance self).
Definition sched_T (self : SurgeryScheduler) : list nat :=
  seq 0 (length (alpha_choices self)).
Definition sched_day_dict (self : SurgeryScheduler) : gmap string Day :=
  dict_map d_id (λ d, d) (days (instance self)).
Definition sched_doc_dict (self : SurgeryScheduler) : gmap string Doctor :=
  dict_map k_id (λ k, k) (doctors (instance self)).

(** Line 132: the call of [_preprocess_and_fix]. *)
Definition sched_fixed_vars (self : SurgeryScheduler) (durations : Durations)
    : gset Combo :=
  preprocess_and_fix durations (max_ot_doc self)
    (sched_J self) (sched_D self) (sched_R self) (sched_K self) (sched_T self)
    (sched_day_dict self) (sched_doc_dict self).

(** Lines 135-154: the valid combinations. *)
Definition sched_valid (self : SurgeryScheduler) (durations : Durations)
    : gset Combo :=
  build_valid durations (sched_fixed_vars self durations)
    (sched_J self) (sched_D self) (sched_R self) (sched_K self) (sched_T self)
    (sched_day_dict self) (sched_doc_dict self).

Definition build_model (self : SurgeryScheduler) : result BuiltModel :=
  durations ← precompute_durations self;
  let epsilon_dict := build_epsilon_dict (epsilon self) (days (instance self)) in
  let J := sched_J self in
  let D := sched_D self in
  let R_ := sched_R self in
  let K := sched_K self in
  let T := sched_T self in
  let day_dict := sched_day_dict self in
  let doc_dict := sched_doc_dict self in
  let fixed_vars := sched_fixed_vars self durations in
  let valid := sched_valid self durations in
  let surgery_doctors := build_surgery_doctors J valid in
  log_one_minus_eps ←
    build_dict (λ d, d) (λ d, py_log (1 - epsilon_dict !!! d)) D;
  max_dur ← build_max_dur durations J R_ K;
  let M_room :=
    dict_map (λ d, d)
      (λ d, ext_add (Fin (d_H (day_dict !!! d) + max_ot_room self)) max_dur) D in
  (* _add_constraints, line 400 *)
  ln_alpha ← mapR (λ a, py_log (1 - a)) (alpha_choices self);
  Ok {| m_durations := durations; m_epsilon_dict := epsilon_dict;
        m_J := J; m_D := D; m_R := R_; m_K := K; m_T := T;
        m_day_dict := day_dict; m_doc_dict := doc_dict;
        m_fixed_vars := fixed_vars; m_VALID := valid;
        m_surgery_doctors := surgery_doctors;
        m_log_one_minus_eps := log_one_minus_eps;
        m_max_dur := max_dur; m_M_room := M_room; m_ln_alpha := ln_alpha |}.

(** ** The doctor capacity constraint, [doc_cap_rule] *)

(** Lines 299-303:
<<
    if k in doc_dict:
        doctor_capacity = doc_dict[k].get('daily_capacity', {})
        cap = doctor_capacity.get(d, day_dict[d]['H']) \
              if isinstance(doctor_capacity, dict) else day_dict[d]['H']
    else:
        cap = day_dict[d]['H']
>> *)
Definition doc_cap_rule_cap (day_dict : gmap string Day)
    (doc_dict : gmap string Doctor) (k d : string) : R :=
  match doc_dict !! k with
  | Some doc =>
      match default (CapMap ∅) (k_daily_capacity doc) with
      | CapMap doctor_capacity =>
          default (d_H (day_dict !!! d)) (doctor_capacity !! d)
      | CapScalar _ => d_H (day_dict !!! d)
      end
  | None => d_H (day_dict !!! d)
  end.

(** A doctor capacity row: skipped, or the sum of the durations of the
    listed combinations bounded by [cap + OT_doc[d,k]]. *)
Inductive DocCapRow : Type :=
  | ConstraintSkip
  | DocCapLe (terms : gset Combo) (cap : R).

Definition doc_cap_rule (m : BuiltModel) (k d : string) : DocCapRow :=
  let cap := doc_cap_rule_cap (m_day_dict m) (m_doc_dict m) k d in
  if bool_decide (cap = 0) then ConstraintSkip
  else
    DocCapLe
      (filter (λ c, combo_doctor c = k ∧ combo_day c = d ∧
                    is_Some (durations_get (m_durations m) (combo_surgery c)
                               (combo_room c) k (combo_alpha c)))
              (m_VALID m))
      cap.

(** ** [check_instance_feasibility] *)

(** [max(l)] on floats. *)
Definition py_max (l : list R) : result R :=
  match l with
  | [] => Raise (ValueError "max() arg is an empty sequence")
  | x :: l' => Ok (foldl Rmax x l')
  end.

(** [sum(l)] on floats. *)
Definition py_sum (l : list R) : R := foldl Rplus 0 l.

(** Lines 42-47: the [(mu, sigma)] that the check reads for a surgery, a
    room and a doctor; an entry of the mapping that lacks ['mu'] or
    ['sigma'] raises a [KeyError]. *)
Definition precheck_params (surgery : Surgery) (room : Room) (doctor : Doctor)
    : result (R * R) :=
  let key := combo_key (r_id room) (k_id doctor) in
  match s_mu_sigma surgery ≫= (λ ms, ms !! key) with
  | Some entry => read_entry entry
  | None =>
      Ok (default (default 0 (s_duration_mean surgery)) (s_mu surgery),
          default (default 0 (s_duration_std surgery)) (s_sigma surgery))
  end.

(** Lines 39-49: one round of the (room, doctor) loop for a surgery. *)
Definition min_dur_step (surgery : Surgery) (max_alpha : R)
    (min_dur : ext) (rd : Room * Doctor) : result ext :=
  ms ← precheck_params surgery rd.1 rd.2;
  let '(mu, sigma) := ms in
  q ← py_div (1 - max_alpha) max_alpha;
  root ← py_sqrt q;
  let buffer := sigma * root in
  let buffered := mu + buffer in
  Ok (ext_min min_dur buffered).

(** Lines 35-51: the minimum buffered duration of each surgery. *)
Definition min_buffered_durations (inst : Instance) (max_alpha : R)
    : result (list (string * ext)) :=
  mapR (λ surgery,
          min_dur ← foldlM (min_dur_step surgery max_alpha) PInf
                      (room ← rooms inst; doctor ← doctors inst; [(room, doctor)]);
          Ok (s_id surgery, min_dur))
       (surgeries inst).

(** Lines 73-76: a doctor's capacity on a day, as the totals read it. *)
Definition daily_cap_total (doctor : Doctor) (day : Day) : result R :=
  match k_daily_capacity doctor with
  | Some (CapMap m) => Ok (default (d_H day) (m !! d_id day))
  | Some (CapScalar _) => Raise (AttributeError "get")
  | None => Ok (d_H day)
  end.

(** Lines 68-78: the two doctor capacity totals. *)
Definition doctor_capacity_totals (inst : Instance) (max_ot_doc : R)
    : result (R * R) :=
  foldlM (λ (acc : R * R) (kd : Doctor * Day),
            daily_cap ← daily_cap_total kd.1 kd.2;
            Ok (acc.1 + daily_cap, acc.2 + (daily_cap + max_ot_doc)))
         (0, 0)
         (doctor ← doctors inst; day ← days inst; [(doctor, day)]).

(** Lines 90-96: the entries of the list whose maximum is
    [max_doctor_capacity_per_day]. *)
Definition doctor_day_capacity (max_ot_doc : R) (doctor : Doctor) (day : Day) : R :=
  match default (CapMap ∅) (k_daily_capacity doctor) with
  | CapMap m => default (d_H day) (m !! d_id day) + max_ot_doc
  | CapScalar _ => d_H day + max_ot_doc
  end.

Record InfeasibleSurgery : Type := {
  is_id : string;
  is_duration : ext;
  is_max_capacity : R;
  is_excess : ext
}.

(** Lines 99-112: the surgeries that exceed every doctor's day. *)
Definition individual_check (max_cap : R) (mbd : list (string * ext))
    : bool * list InfeasibleSurgery :=
  foldl (λ (acc : bool * list InfeasibleSurgery) (s : string * ext),
           if ext_gt s.2 max_cap then
             (false,
              acc.2 ++ [{| is_id := s.1; is_duration := s.2;
                           is_max_capacity := max_cap;
                           is_excess := ext_sub s.2 max_cap |}])
           else acc)
        (true, []) mbd.

Record ReliabilityCheck : Type := {
  rc_surgeries_per_day : nat;
  rc_required_ln : R;
  rc_achievable_ln : R;
  rc_feasible : bool;
  rc_max_alpha_needed : R;
  rc_max_alpha_available : R
}.

(** Lines 132-147: one entry per candidate number of surgeries per day. *)
Definition reliability_checks (epsilon_val ln_1_minus_eps max_ln_alpha max_alpha : R)
    (num_surgeries : nat) : list ReliabilityCheck :=
  (λ surgeries_per_day,
     let required_ln := ln_1_minus_eps in
     let achievable_ln := INR surgeries_per_day * max_ln_alpha in
     let feasible := bool_decide (achievable_ln >= required_ln) in
     let max_alpha_needed :=
       1 - Rpower (1 - epsilon_val) (1 / INR surgeries_per_day) in
     {| rc_surgeries_per_day := surgeries_per_day;
        rc_required_ln := required_ln;
        rc_achievable_ln := achievable_ln;
        rc_feasible := feasible;
        rc_max_alpha_needed := max_alpha_needed;
        rc_max_alpha_available := max_alpha |})
  <$> seq 1 num_surgeries.

(** Line 122: [epsilon if isinstance(epsilon, float) else 0.25]. *)
Definition check_epsilon_val (eps : Epsilon) : R :=
  match eps with
  | EpsFloat x => x
  | _ => 0.25
  end.

(** [100 * total / capacity]; a zero capacity raises. *)
Definition utilization (total : ext) (capacity : R) : result ext :=
  if bool_decide (capacity = 0) then Raise ZeroDivisionError
  else Ok (match total with
           | Fin x => Fin (100 * x / capacity)
           | PInf => PInf
           end).

Record FeasibilityReport : Type := {
  overall_feasible : bool;
  capacity_feasible : bool;
  room_capacity_feasible : bool;
  doctor_capacity_feasible : bool;
  individual_surgery_feasible : bool;
  reliability_feasible : bool;
  total_min_buffered : ext;
  total_regular_room_capacity : R;
  total_max_room_capacity : R;
  total_regular_doctor_capacity : R;
  total_max_doctor_capacity : R;
  max_doctor_capacity_per_day : R;
  room_capacity_deficit : ext;
  doctor_capacity_deficit : ext;
  infeasible_surgeries : list InfeasibleSurgery;
  capacity_utilization_room : ext;
  capacity_utilization_doctor : ext;
  min_buffered_durations_ : list (string * ext);
  reliability_checks_ : list ReliabilityCheck;
  feasible_distributions : list ReliabilityCheck;
  report_epsilon : R;
  report_max_alpha : R
}.

Definition check_instance_feasibility (inst : Instance) (alpha_choices : list R)
    (eps : Epsilon) (max_ot_room max_ot_doc : R) : result FeasibilityReport :=
  max_alpha ← py_max alpha_choices;
  mbd ← min_buffered_durations inst max_alpha;
  let total_min := foldl ext_add (Fin 0) mbd.*2 in
  let num_rooms := INR (length (rooms inst)) in
  let total_regular_room := py_sum (d_H <$> days inst) * num_rooms in
  let total_max_room :=
    py_sum ((λ d, d_H d + max_ot_room) <$> days inst) * num_rooms in
  let room_feasible := ext_le total_min total_max_room in
  let room_deficit :=
    if negb room_feasible then ext_sub total_min total_max_room else Fin 0 in
  totals ← doctor_capacity_totals inst max_ot_doc;
  let total_regular_doctor := totals.1 in
  let total_max_doctor := totals.2 in
  let doctor_feasible := ext_le total_min total_max_doctor in
  let doctor_deficit :=
    if negb doctor_feasible then ext_sub total_min total_max_doctor else Fin 0 in
  max_cap ← py_max (doctor ← doctors inst; day ← days inst;
                    [doctor_day_capacity max_ot_doc doctor day]);
  let individual := individual_check max_cap mbd in
  let individual_feasible := individual.1 in
  let infeasible := individual.2 in
  let capacity_ok := room_feasible && doctor_feasible && individual_feasible in
  let epsilon_val := check_epsilon_val eps in
  ln_1_minus_eps ← py_log (1 - epsilon_val);
  ln_alphas ← mapR (λ a, py_log (1 - a)) alpha_choices;
  max_ln_alpha ← py_max ln_alphas;
  let num_surgeries := length (surgeries inst) in
  let checks :=
    reliability_checks epsilon_val ln_1_minus_eps max_ln_alpha max_alpha
      num_surgeries in
  let feasible_dists := filter (λ r, rc_feasible r = true) checks in
  let reliability_ok := bool_decide (0 < length feasible_dists)%nat in
  let overall := capacity_ok && reliability_ok in
  util_room ← utilization total_min total_regular_room;
  util_doctor ← utilization total_min total_regular_doctor;
  Ok {| overall_feasible := overall;
        capacity_feasible := capacity_ok;
        room_capacity_feasible := room_feasible;
        doctor_capacity_feasible := doctor_feasible;
        individual_surgery_feasible := individual_feasible;
        reliability_feasible := reliability_ok;
        total_min_buffered := total_min;
        total_regular_room_capacity := total_regular_room;
        total_max_room_capacity := total_max_room;
        total_regular_doctor_capacity := total_regular_doctor;
        total_max_doctor_capacity := total_max_doctor;
        max_doctor_capacity_per_day := max_cap;
        room_capacity_deficit := room_deficit;
        doctor_capacity_deficit := doctor_deficit;
        infeasible_surgeries := infeasible;
        capacity_utilization_room := util_room;
        capacity_utilization_doctor := util_doctor;
        min_buffered_durations_ := mbd;
        reliability_checks_ := checks;
        feasible_distributions := feasible_dists;
        report_epsilon := epsilon_val;
        report_max_alpha := max_alpha |}.

(** ** [verify_reliability] *)

(** An entry of the extracted schedule; [verify_reliability] reads ['day']
    and ['alpha']. *)
Record ScheduleEntry : Type := {
  se_surgery_id : string;
  se_day : string;
  se_room : string;
  se_doctor : string;
  se_alpha : R
}.

(** Lines 198-200: append [s] to the list of its day, creating the list on
    the day's first surgery.  The dictionary keeps insertion order. *)
Fixpoint by_day_add (s : ScheduleEntry) (by_day : list (string * list ScheduleEntry))
    : list (string * list ScheduleEntry) :=
  match by_day with
  | [] => [(se_day s, [s])]
  | (day_id, ss) :: rest =>
      if decide (day_id = se_day s) then (day_id, ss ++ [s]) :: rest
      else (day_id, ss) :: by_day_add s rest
  end.

Definition group_by_day (schedule : list ScheduleEntry)
    : list (string * list ScheduleEntry) :=
  foldl (λ by_day s, by_day_add s by_day) [] schedule.

(** Line 202: [{a: math.log(1 - a) for a in alpha_choices}], as the list of
    its items. *)
Definition build_ln1ma (alpha_choices : list R) : result (list (R * R)) :=
  mapR (λ a, v ← py_log (1 - a); Ok (a, v)) alpha_choices.

(** [ln1ma[a]]: the value stored last under the key [a]. *)
Definition ln1ma_get (ln1ma : list (R * R)) (a : R) : result R :=
  match list_find (λ p : R * R, p.1 = a) (reverse ln1ma) with
  | Some (_, (_, v)) => Ok v
  | None => Raise (KeyError "alpha")
  end.

(** Lines 208-211. *)
Definition verify_epsilon_val (eps : Epsilon) (day_id : string) : R :=
  match eps with
  | EpsDict m => default 0.25 (m !! day_id)
  | EpsFloat x => x
  | EpsInt z => IZR z
  end.

Record DayReliability : Type := {
  dr_lhs : R;
  dr_rhs : R;
  dr_slack : R;
  dr_satisfied : bool;
  dr_epsilon : R
}.

(** The tolerance of line 220, [slack >= -1e-6]. *)
Definition reliability_tolerance : R := 1e-6.

(** Lines 206-222: the report of one day. *)
Definition verify_day (ln1ma : list (R * R)) (eps : Epsilon)
    (item : string * list ScheduleEntry) : result DayReliability :=
  let '(day_id, surgeries) := item in
  lhs ← foldlM (λ acc s, v ← ln1ma_get ln1ma (se_alpha s); Ok (acc + v)) 0 surgeries;
  let epsilon_val := verify_epsilon_val eps day_id in
  rhs ← py_log (1 - epsilon_val);
  let slack := lhs - rhs in
  Ok {| dr_lhs := lhs; dr_rhs := rhs; dr_slack := slack;
        dr_satisfied := bool_decide (slack >= - reliability_tolerance);
        dr_epsilon := epsilon_val |}.

Definition verify_reliability (schedule : list ScheduleEntry)
    (alpha_choices : list R) (eps : Epsilon) : result (gmap string DayReliability) :=
  let by_day := group_by_day schedule in
  ln1ma ← build_ln1ma alpha_choices;
  build_dict fst (verify_day ln1ma eps) by_day.

(** ** A small instance

    One day of 480 minutes, one room, one doctor available 480 minutes that
    day, two surgeries of 200 minutes with no variance, the single risk
    level 0.1 and epsilon 0.5. *)

Definition surgery_flat (j : string) (mean std : R) : Surgery :=
  {| s_id := j; s_specialty := None; s_mu_sigma := None;
     s_duration_mean := Some mean; s_duration_std := Some std;
     s_mu := None; s_sigma := None |}.

Definition monday : Day := {| d_id := "Mon"; d_H := 480 |}.
Definition room1 : Room := {| r_id := "OR1"; r_types := None |}.
Definition doctor1 : Doctor :=
  {| k_id := "Doc1"; k_daily_capacity := Some (CapMap {["Mon" := 480]});
     k_specialties := None |}.

(** The instances below differ in their surgeries and doctors only. *)
Definition instance_with (ss : list Surgery) (ks : list Doctor) : Instance :=
  {| surgeries := ss; days := [monday]; rooms := [room1]; doctors := ks |}.

Definition small_instance : Instance :=
  instance_with [surgery_flat "S1" 200 0; surgery_flat "S2" 200 0] [doctor1].

Definition scheduler_of (inst : Instance) (alphas : list R) (eps : Epsilon)
    : SurgeryScheduler :=
  {| instance := inst; alpha_choices := alphas; epsilon := eps;
     ot_cost_room := 3; ot_cost_doc := 1.5;
     max_ot_room := 120; max_ot_doc := 60 |}.

Definition small_scheduler : SurgeryScheduler :=
  scheduler_of small_instance [0.1] (EpsFloat 0.5).

(** A surgery described by a per-(room, doctor) mapping whose entries carry
    both ['mu'] and ['sigma']. *)
Definition full_entry (p : R * R) : MuSigmaEntry :=
  {| e_mu := Some p.1; e_sigma := Some p.2 |}.





(** A doctor without a ['daily_capacity'] key, and one whose mapping has no
    entry for Monday. *)
Definition doctor_unmapped : Doctor :=
  {| k_id := "Doc1"; k_daily_capacity := None; k_specialties := None |}.
Definition doctor_tuesday : Doctor :=
  {| k_id := "Doc1"; k_daily_capacity := Some (CapMap {["Tue" := 480]});
     k_specialties := None |}.

Definition unmapped_scheduler (doc : Doctor) : SurgeryScheduler :=
  scheduler_of
    (instance_with [surgery_flat "S1" 200 0; surgery_flat "S2" 200 0] [doc])
    [0.1] (EpsFloat 0.5).

(** Both surgeries of the small instance on Monday, at risk level 0.1. *)
Definition entry_at (j day : string) (alpha : R) : ScheduleEntry :=
  {| se_surgery_id := j; se_day := day; se_room := "OR1";
     se_doctor := "Doc1"; se_alpha := alpha |}.

Definition small_schedule : list ScheduleEntry :=
  [entry_at "S1" "Mon" 0.1; entry_at "S2" "Mon" 0.1].

(** ** The sequencing variables and the aggregate cuts *)

(** [j < i] on identifiers: Python compares strings code point by code
    point, which on UTF-8 bytes is the order of [String.ltb]. *)
Definition id_lt (j i : string) : bool := String.ltb j i.

(** Line 187, the index set of [u_room]:
    [[(j, i, d, r) for j in J for i in J for d in D for r in R if j < i]]. *)
Definition u_room_index (J D R_ : list string)
    : list (string * string * string * string) :=
  j ← J; i ← J; d ← D; r ← R_;
  if id_lt j i then [(j, i, d, r)] else [].

(** Lines 190-197, [pruned_u_doc].  The source iterates over the Python set
    [shared] in its own order; [elements] lists the same members. *)
Definition pruned_u_doc (J D : list string)
    (surgery_doctors : gmap string (gset string))
    : list (string * string * string * string) :=
  j ← J; i ← J;
  if id_lt j i then
    let shared := (surgery_doctors !!! j) ∩ (surgery_doctors !!! i) in
    d ← D; k ← elements shared; [(j, i, d, k)]
  else [].

(** [min(e1, e2)] on durations. *)
Definition ext_min_ext (e1 e2 : ext) : ext :=
  match e1, e2 with
  | Fin a, Fin b => Fin (Rmin a b)
  | Fin a, PInf => Fin a
  | PInf, e => e
  end.

(** [min(l, default=0)] on durations. *)
Definition ext_list_min_default (l : list ext) : ext :=
  match l with
  | [] => Fin 0
  | e :: l' => foldl ext_min_ext e l'
  end.

(** Lines 409-416 of [_add_constraints]: the smallest buffered duration of
    each surgery over rooms, doctors and risk levels, 0 when it has none. *)
Definition build_min_durations (durations : Durations)
    (J R_ K : list string) (T : list nat) : gmap string ext :=
  dict_map (λ j, j)
    (λ j, ext_list_min_default (
            r ← R_; k ← K; t ← T;
            match durations_get durations j r k t with
            | Some e => [e]
            | None => []
            end))
    J.



(** A doctor overtime of 60 fixes the second surgery, one of 120 does
    not. *)
Definition long_surgery_scheduler : SurgeryScheduler :=
  scheduler_of
    (instance_with [surgery_flat "S1" 200 0; surgery_flat "S2" 600 0] [doctor1])
    [0.1] (EpsFloat 0.5).

(** The same scheduler constructed with another [max_ot_doc]. *)
Definition with_max_ot_doc (self : SurgeryScheduler) (ot : R) : SurgeryScheduler :=
  {| instance := instance self; alpha_choices := alpha_choices self;
     epsilon := epsilon self;
     ot_cost_room := ot_cost_room self; ot_cost_doc := ot_cost_doc self;
     max_ot_room := max_ot_room self; max_ot_doc := ot |}.

(** ** Vocabulary of the statements *)

(** Every entry of the surgery's ['mu_sigma'] mapping carries both ['mu']
    and ['sigma']. *)
Definition mapping_complete (s : Surgery) : Prop :=
  ∀ ms key entry, s_mu_sigma s = Some ms → ms !! key = Some entry →
    is_Some (e_mu entry) ∧ is_Some (e_sigma entry).

(** A surgery read through ['duration_mean'] also carries
    ['duration_std']. *)
Definition flat_pair_complete (s : Surgery) : Prop :=
  s_mu_sigma s = None → is_Some (s_duration_mean s) → is_Some (s_duration_std s).

(** The specialty test of lines 86-90 lets the room and the doctor pass: a
    surgery with a non-empty specialty needs it among the doctor's
    specialties and among the room's types. *)
Definition specialty_allows (s : Surgery) (rm : Room) (doc : Doctor) : Prop :=
  ∀ sp, s_specialty s = Some sp → sp ≠ "" →
    sp ∈ default [] (k_specialties doc) ∧ sp ∈ default [] (r_types rm).

(** The parameters of a surgery, a room and a doctor can be read: the entry
    of the mapping for the room and the doctor, if there is one, carries
    ['mu'] and ['sigma']; without a mapping, ['duration_std'] is present
    where ['duration_mean'] is and the specialty test passes. *)
Definition parameters_readable (s : Surgery) (rm : Room) (doc : Doctor) : Prop :=
  match s_mu_sigma s with
  | Some ms =>
      ∀ entry, ms !! combo_key (r_id rm) (k_id doc) = Some entry →
        is_Some (e_mu entry) ∧ is_Some (e_sigma entry)
  | None =>
      is_Some (s_duration_mean s) → specialty_allows s rm doc →
      is_Some (s_duration_std s)
  end.

(** The duration parameters of a surgery can be read without a
    [KeyError]. *)
Definition parameters_complete (s : Surgery) : Prop :=
  mapping_complete s ∧ flat_pair_complete s.

(** What [check_instance_feasibility] needs from the instance to return:
    mapping entries that carry both parameters, some doctor and some day,
    capacity mappings that are dictionaries, and regular room and doctor
    capacities that do not sum to zero. *)
Definition check_inputs_well_formed (inst : Instance) (max_ot_doc : R) : Prop :=
  (∀ s, s ∈ surgeries inst → mapping_complete s) ∧
  doctors inst ≠ [] ∧ days inst ≠ [] ∧
  (∀ k v, k ∈ doctors inst → k_daily_capacity k ≠ Some (CapScalar v)) ∧
  py_sum (d_H <$> days inst) * INR (length (rooms inst)) ≠ 0 ∧
  (∀ totals, doctor_capacity_totals inst max_ot_doc = Ok totals → totals.1 ≠ 0).

(** The [(mu, sigma)] that [check_instance_feasibility] reads for a surgery,
    a room and a doctor (lines 42-47), where it reads them without an
    error; [(0, 0)] stands for the parameters of an entry that cannot be
    read, which a run that returns never meets. *)
Definition precheck_mu_sigma (surgery : Surgery) (room : Room) (doctor : Doctor)
    : R * R :=
  match precheck_params surgery room doctor with
  | Ok p => p
  | Raise _ => (0, 0)
  end.

(** The buffered duration it computes for them at a risk level. *)
Definition precheck_buffered (surgery : Surgery) (alpha : R) (rd : Room * Doctor) : R :=
  buffered (precheck_mu_sigma surgery rd.1 rd.2).1
           (precheck_mu_sigma surgery rd.1 rd.2).2 alpha.

(** The entry that the individual check appends for a surgery. *)
Definition infeasible_entry (max_cap : R) (s : string * ext) : InfeasibleSurgery :=
  {| is_id := s.1; is_duration := s.2; is_max_capacity := max_cap;
     is_excess := ext_sub s.2 max_cap |}.

(** The capacity of a doctor on a day in the words of the specification:
    the entry of the doctor's per-day capacity mapping, and the day's [H]
    where the mapping has no entry for the day or the doctor has no
    mapping. *)
Definition spec_doctor_capacity (day_dict : gmap string Day)
    (doc_dict : gmap string Doctor) (k d : string) : R :=
  match doc_dict !! k ≫= k_daily_capacity with
  | Some (CapMap m) => default (d_H (day_dict !!! d)) (m !! d)
  | _ => d_H (day_dict !!! d)
  end.

(** The epsilon the caller supplied for a day, if any. *)
Definition supplied_epsilon (eps : Epsilon) (day_id : string) : option R :=
  match eps with
  | EpsFloat x => Some x
  | EpsInt z => Some (IZR z)
  | EpsDict m => m !! day_id
  end.

(** The order on durations, [+inf] on top. *)
Definition ext_le_ext (e1 e2 : ext) : Prop :=
  match e1, e2 with
  | Fin a, Fin b => a <= b
  | _, PInf => True
  | PInf, Fin _ => False
  end.

(** The surgeries of a schedule on a day, in schedule order. *)
Definition on_day (d : string) (schedule : list ScheduleEntry) : list ScheduleEntry :=
  filter (λ s, se_day s = d) schedule.

(** The sum of [ln(1 - alpha)] over a list of scheduled surgeries, in the
    order in which [sum] adds them. *)
Definition sum_ln1ma (ss : list ScheduleEntry) : R :=
  foldl (λ acc s, acc + ln (1 - se_alpha s)) 0 ss.

(** The value stored under a key of an insertion-ordered dictionary. *)
Definition items_get {V} (d : string) (items : list (string * V)) : option V :=
  snd <$> (snd <$> list_find (λ p : string * V, p.1 = d) items).

(** * Properties *)

Lemma buffer_duration_unit (mu sigma alpha : R) :
  0 < alpha → alpha < 1 →
  buffer_duration mu sigma alpha = Ok (Fin (buffered mu sigma alpha)).
Proof.
  intros H0 H1. unfold buffer_duration, buffered, py_div, py_sqrt.
  rewrite bool_decide_eq_false_2 by lra.
  rewrite bool_decide_eq_false_2 by lra. cbn.
  rewrite bool_decide_eq_false_2; [done|].
  apply Rle_not_lt, Rlt_le, Rdiv_lt_0_compat; lra.
Qed.

Lemma odds_antitone (a b : R) :
  0 < a → a <= b → b < 1 → (1 - b) / b <= (1 - a) / a.
Proof.
  intros Ha Hab Hb.
  apply Rmult_le_reg_r with (r := a * b); [nra|].
  replace ((1 - b) / b * (a * b)) with ((1 - b) * a) by (field; lra).
  replace ((1 - a) / a * (a * b)) with ((1 - a) * b) by (field; lra).
  nra.
Qed.

Lemma buffered_antitone (mu sigma a b : R) :
  0 <= sigma → 0 < a → a <= b → b < 1 →
  buffered mu sigma b <= buffered mu sigma a.
Proof.
  intros Hs Ha Hab Hb. unfold buffered.
  apply Rplus_le_compat_l, Rmult_le_compat_l; [done|].
  apply sqrt_le_1_alt, odds_antitone; done.
Qed.

Lemma buffered_ge_mean (mu sigma a : R) :
  0 <= sigma → mu <= buffered mu sigma a.
Proof.
  intros Hs. unfold buffered.
  pose proof (sqrt_pos ((1 - a) / a)). nra.
Qed.

(** C8: for a mean [mu], a standard deviation [sigma] (a non-negative
    number) and risk levels [0 < a <= b < 1], the buffered duration the
    code computes is finite at both levels, does not increase from [a] to
    [b], and is at least the mean [mu] at both. *)
Theorem C8_buffered_monotone_and_above_mean (mu sigma a b : R) :
  0 <= sigma → 0 < a → a <= b → b < 1 →
  ∃ x y,
    buffer_duration mu sigma a = Ok (Fin x) ∧
    buffer_duration mu sigma b = Ok (Fin y) ∧
    y <= x ∧ mu <= y ∧ mu <= x.
Proof.
  intros Hs Ha Hab Hb.
  exists (buffered mu sigma a), (buffered mu sigma b).
  rewrite !buffer_duration_unit by lra.
  split_and!; [done|done|by apply buffered_antitone
              |by apply buffered_ge_mean|by apply buffered_ge_mean].
Qed.

Lemma C8_witness :
  ∃ x y,
    buffer_duration 200 30 (1/10) = Ok (Fin x) ∧
    buffer_duration 200 30 (1/2) = Ok (Fin y) ∧
    y <= x ∧ 200 <= y ∧ 200 <= x.
Proof.
  apply (C8_buffered_monotone_and_above_mean 200 30 (1/10) (1/2)); lra.
Defined.

(** ** The exception monad *)

Lemma bind_Ok {A B} (m : result A) (f : A → result B) (b : B) :
  m ≫= f = Ok b ↔ ∃ a, m = Ok a ∧ f a = Ok b.
Proof.
  destruct m as [a|e]; cbn; split.
  - intros Hf. by exists a.
  - by intros (a' & [= <-] & Hf).
  - done.
  - by intros (a' & [=] & _).
Qed.

Lemma bind_is_Ok {A B} (m : result A) (f : A → result B) :
  is_Ok (m ≫= f) ↔ ∃ a, m = Ok a ∧ is_Ok (f a).
Proof.
  unfold is_Ok. split.
  - intros [b (a & Ha & Hb)%bind_Ok]. eauto.
  - intros (a & Ha & b & Hb). exists b. apply bind_Ok. eauto.
Qed.

Lemma foldlM_cons {A B} (f : B → A → result B) (b : B) (a : A) (l : list A) :
  foldlM f b (a :: l) = f b a ≫= λ b', foldlM f b' l.
Proof. done. Qed.

(** ** Dictionaries built by loops *)

Section build_dict.
Context {A V : Type} `{Countable K}.
Variables (key : A → K) (g : A → result V).

Local Abbreviation insert_step := (insert_step key g).

Lemma insert_step_Ok (m m' : gmap K V) (a : A) :
  insert_step m a = Ok m' ↔ ∃ v, g a = Ok v ∧ m' = <[key a := v]> m.
Proof.
  unfold insert_step. rewrite bind_Ok. split.
  - intros (v & Hv & [= <-]). eauto.
  - intros (v & Hv & ->). eauto.
Qed.

Lemma foldlM_step_untouched (l : list A) (m0 m : gmap K V) (i : K) :
  foldlM insert_step m0 l = Ok m → i ∉ key <$> l → m !! i = m0 !! i.
Proof.
  revert m0. induction l as [|a l IH]; intros m0 Hm Hi.
  - by inversion Hm.
  - rewrite fmap_cons in Hi. apply not_elem_of_cons in Hi as [Hne Hi].
    rewrite foldlM_cons in Hm.
    apply bind_Ok in Hm as (m1 & (v & Hv & ->)%insert_step_Ok & Hm).
    rewrite (IH _ Hm Hi). by rewrite lookup_insert_ne.
Qed.

Lemma foldlM_step_lookup (l : list A) (m0 m : gmap K V) (a : A) :
  foldlM insert_step m0 l = Ok m → NoDup (key <$> l) → a ∈ l →
  ∃ v, g a = Ok v ∧ m !! key a = Some v.
Proof.
  revert m0. induction l as [|b l IH]; intros m0 Hm Hnd Ha.
  - by apply elem_of_nil in Ha.
  - rewrite fmap_cons in Hnd. apply NoDup_cons in Hnd as [Hb Hnd].
    rewrite foldlM_cons in Hm.
    apply bind_Ok in Hm as (m1 & (v & Hv & ->)%insert_step_Ok & Hm).
    apply elem_of_cons in Ha as [->|Ha].
    + exists v. split; [done|].
      rewrite (foldlM_step_untouched _ _ _ _ Hm Hb). by rewrite lookup_insert_eq.
    + by eapply IH.
Qed.

Lemma foldlM_step_inv (l : list A) (m0 m : gmap K V) (i : K) (v : V) :
  foldlM insert_step m0 l = Ok m → m !! i = Some v →
  (∃ a, a ∈ l ∧ key a = i ∧ g a = Ok v) ∨ m0 !! i = Some v.
Proof.
  revert m0. induction l as [|b l IH]; intros m0 Hm Hv.
  - inversion Hm; subst. by right.
  - rewrite foldlM_cons in Hm.
    apply bind_Ok in Hm as (m1 & (w & Hw & ->)%insert_step_Ok & Hm).
    destruct (IH _ Hm Hv) as [(a & Ha & Hk & Hga)|Hins].
    + left. exists a. split_and!; [by apply list_elem_of_further|done|done].
    + rewrite lookup_insert in Hins. case_decide as Hk.
      * left. exists b. inversion Hins; subst.
        split_and!; [apply list_elem_of_here|done|done].
      * by right.
Qed.

Lemma foldlM_step_total (l : list A) (m0 : gmap K V) :
  (∀ a, a ∈ l → is_Ok (g a)) → is_Ok (foldlM insert_step m0 l).
Proof.
  revert m0. induction l as [|b l IH]; intros m0 Hall.
  - by eexists.
  - destruct (Hall b) as [v Hv]; [apply list_elem_of_here|].
    rewrite foldlM_cons. apply bind_is_Ok.
    exists (<[key b := v]> m0). split.
    + apply insert_step_Ok. eauto.
    + apply IH. intros a Ha. by apply Hall, list_elem_of_further.
Qed.

Lemma foldlM_step_all_ok (l : list A) (m0 m : gmap K V) (a : A) :
  foldlM insert_step m0 l = Ok m → a ∈ l → is_Ok (g a).
Proof.
  revert m0. induction l as [|b l IH]; intros m0 Hm Ha.
  - by apply elem_of_nil in Ha.
  - rewrite foldlM_cons in Hm.
    apply bind_Ok in Hm as (m1 & (w & Hw & ->)%insert_step_Ok & Hm).
    apply elem_of_cons in Ha as [->|Ha]; [by eexists|by eapply IH].
Qed.

Lemma foldlM_step_is_Some (l : list A) (m0 m : gmap K V) (a : A) :
  foldlM insert_step m0 l = Ok m → a ∈ l → is_Some (m !! key a).
Proof.
  revert m0 a. induction l as [|b l IH]; intros m0 a Hm Ha.
  - by apply elem_of_nil in Ha.
  - rewrite foldlM_cons in Hm.
    apply bind_Ok in Hm as (m1 & (w & Hw & ->)%insert_step_Ok & Hm).
    destruct (decide (key a ∈ key <$> l)) as [Hin|Hnin].
    + apply list_elem_of_fmap in Hin as (a' & Hk & Ha').
      rewrite Hk. by eapply IH.
    + apply elem_of_cons in Ha as [->|Ha].
      * rewrite (foldlM_step_untouched _ _ _ _ Hm Hnin).
        rewrite lookup_insert_eq. by eexists.
      * destruct Hnin. by apply list_elem_of_fmap_2.
Qed.

Lemma build_dict_unfold (l : list A) :
  build_dict key g l = foldlM insert_step ∅ l.
Proof. done. Qed.

Lemma build_dict_lookup (l : list A) (m : gmap K V) (a : A) :
  build_dict key g l = Ok m → NoDup (key <$> l) → a ∈ l →
  ∃ v, g a = Ok v ∧ m !! key a = Some v.
Proof. apply foldlM_step_lookup. Qed.

Lemma build_dict_inv (l : list A) (m : gmap K V) (i : K) (v : V) :
  build_dict key g l = Ok m → m !! i = Some v →
  ∃ a, a ∈ l ∧ key a = i ∧ g a = Ok v.
Proof.
  intros Hm Hv. destruct (foldlM_step_inv _ _ _ _ _ Hm Hv) as [?|He]; [done|].
  by rewrite lookup_empty in He.
Qed.

Lemma build_dict_total (l : list A) :
  (∀ a, a ∈ l → is_Ok (g a)) → is_Ok (build_dict key g l).
Proof. apply foldlM_step_total. Qed.

Lemma build_dict_all_ok (l : list A) (m : gmap K V) (a : A) :
  build_dict key g l = Ok m → a ∈ l → is_Ok (g a).
Proof. apply foldlM_step_all_ok. Qed.

Lemma build_dict_is_Some (l : list A) (m : gmap K V) (a : A) :
  build_dict key g l = Ok m → a ∈ l → is_Some (m !! key a).
Proof. apply foldlM_step_is_Some. Qed.
End build_dict.

Section dict_map.
Context {A V : Type} `{Countable K}.
Variables (key : A → K) (f : A → V).

Lemma dict_map_as_build (l : list A) :
  build_dict key (λ a, Ok (f a)) l = Ok (dict_map key f l).
Proof.
  unfold build_dict, dict_map. generalize (∅ : gmap K V).
  induction l as [|a l IH]; intros m0; [done|].
  rewrite foldlM_cons. cbn. apply IH.
Qed.

Lemma dict_map_lookup (l : list A) (a : A) :
  NoDup (key <$> l) → a ∈ l → dict_map key f l !! key a = Some (f a).
Proof.
  intros Hnd Ha.
  destruct (build_dict_lookup _ _ _ _ a (dict_map_as_build l) Hnd Ha)
    as (v & [= <-] & Hv).
  done.
Qed.

Lemma dict_map_inv (l : list A) (i : K) (v : V) :
  dict_map key f l !! i = Some v → ∃ a, a ∈ l ∧ key a = i ∧ v = f a.
Proof.
  intros Hv.
  destruct (build_dict_inv _ _ _ _ _ _ (dict_map_as_build l) Hv)
    as (a & Ha & Hk & [= <-]).
  eauto.
Qed.

Lemma dict_map_is_Some (l : list A) (a : A) :
  a ∈ l → is_Some (dict_map key f l !! key a).
Proof. apply (build_dict_is_Some _ _ _ _ _ (dict_map_as_build l)). Qed.
End dict_map.

(** ** [enumerate] *)

Lemma enumerate_from_fst {A} (n : nat) (l : list A) :
  (enumerate_from n l).*1 = seq n (length l).
Proof.
  revert n. induction l as [|a l IH]; intros n; cbn; [done|].
  by rewrite IH.
Qed.

Lemma elem_of_enumerate_from {A} (n i : nat) (a : A) (l : list A) :
  (i, a) ∈ enumerate_from n l ↔ (n ≤ i)%nat ∧ l !! (i - n)%nat = Some a.
Proof.
  revert n. induction l as [|b l IH]; intros n; cbn.
  - split; [by intros ?%elem_of_nil|by intros [_ ?]].
  - rewrite elem_of_cons, IH. split.
    + intros [[= -> ->]|[Hle Hl]].
      * split; [lia|]. by rewrite Nat.sub_diag.
      * split; [lia|]. by replace (i - n)%nat with (S (i - S n)) by lia.
    + intros [Hle Hl]. destruct (decide (i = n)) as [->|Hne].
      * left. rewrite Nat.sub_diag in Hl. cbn in Hl. by inversion Hl.
      * right. split; [lia|].
        by replace (i - n)%nat with (S (i - S n)) in Hl by lia.
Qed.

Lemma elem_of_enumerate {A} (i : nat) (a : A) (l : list A) :
  (i, a) ∈ enumerate l ↔ l !! i = Some a.
Proof.
  unfold enumerate. rewrite elem_of_enumerate_from, Nat.sub_0_r.
  split; [by intros [_ ?]|]. split; [lia|done].
Qed.

Lemma NoDup_enumerate_fst {A} (l : list A) : NoDup (enumerate l).*1.
Proof. unfold enumerate. rewrite enumerate_from_fst. apply NoDup_seq. Qed.

(** ** [precompute_durations]: what each cell holds *)


Lemma duration_cell_lookup (alphas : list R) (s : Surgery) (r : Room) (k : Doctor)
    (mu sigma : R) (cell : gmap nat ext) (t : nat) (a : R) :
  lookup_mu_sigma s r k = Ok (Some (mu, sigma)) →
  duration_cell alphas s r k = Ok cell →
  alphas !! t = Some a →
  ∃ e, buffer_duration mu sigma a = Ok e ∧ cell !! t = Some e.
Proof.
  intros Hl Hc Ht. unfold duration_cell in Hc. rewrite Hl in Hc. cbn in Hc.
  apply (build_dict_lookup fst (λ p, buffer_duration mu sigma p.2) _ _ (t, a) Hc).
  - apply NoDup_enumerate_fst.
  - by apply elem_of_enumerate.
Qed.

Lemma duration_cell_inv (alphas : list R) (s : Surgery) (r : Room) (k : Doctor)
    (cell : gmap nat ext) (t : nat) (e : ext) :
  duration_cell alphas s r k = Ok cell →
  cell !! t = Some e →
  ∃ mu sigma a,
    lookup_mu_sigma s r k = Ok (Some (mu, sigma)) ∧
    alphas !! t = Some a ∧ buffer_duration mu sigma a = Ok e.
Proof.
  intros Hc He. unfold duration_cell in Hc.
  apply bind_Ok in Hc as ([[mu sigma]|] & Hl & Hc).
  - destruct (build_dict_inv _ _ _ _ _ _ Hc He) as ([t' a] & Hin & Hk & Hb).
    cbn in Hk, Hb. subst t'. apply elem_of_enumerate in Hin.
    exists mu, sigma, a. done.
  - inversion Hc; subst. by rewrite lookup_empty in He.
Qed.

Lemma lookup_total_gmap_None `{Countable K, Countable K'} {V}
    (m : gmap K (gmap K' V)) (i : K) :
  m !! i = None → m !!! i = ∅.
Proof. intros Hm. by rewrite lookup_total_alt, Hm. Qed.

Lemma lookup_total_gmap_empty `{Countable K, Countable K'} {V} (i : K) :
  (∅ : gmap K (gmap K' V)) !!! i = ∅.
Proof. apply lookup_total_gmap_None, lookup_empty. Qed.

Section precompute_durations.
Variable self : SurgeryScheduler.
Variable durations : Durations.
Hypothesis Hpre : precompute_durations self = Ok durations.

Let inst := instance self.

Lemma precompute_durations_cell (s : Surgery) (r : Room) (k : Doctor) :
  NoDup (s_id <$> surgeries inst) →
  NoDup (r_id <$> rooms inst) →
  NoDup (k_id <$> doctors inst) →
  s ∈ surgeries inst → r ∈ rooms inst → k ∈ doctors inst →
  ∃ cell,
    duration_cell (alpha_choices self) s r k = Ok cell ∧
    ((durations !!! s_id s) !!! r_id r) !!! k_id k = cell.
Proof.
  intros Hs Hr Hk Hsin Hrin Hkin. unfold precompute_durations in Hpre.
  destruct (build_dict_lookup _ _ _ _ s Hpre Hs Hsin) as (dj & Hdj & Hlj).
  destruct (build_dict_lookup _ _ _ _ r Hdj Hr Hrin) as (djr & Hdjr & Hlr).
  destruct (build_dict_lookup _ _ _ _ k Hdjr Hk Hkin) as (cell & Hcell & Hlk).
  exists cell. split; [done|].
  rewrite (lookup_total_correct _ _ _ Hlj).
  rewrite (lookup_total_correct _ _ _ Hlr).
  by rewrite (lookup_total_correct _ _ _ Hlk).
Qed.

(** Whatever the identifiers, a stored cell comes from some surgery, room
    and doctor carrying these identifiers. *)
Lemma precompute_durations_get_inv (j r k : string) (t : nat) (e : ext) :
  durations_get durations j r k t = Some e →
  ∃ s rm doc mu sigma a,
    s ∈ surgeries inst ∧ rm ∈ rooms inst ∧ doc ∈ doctors inst ∧
    s_id s = j ∧ r_id rm = r ∧ k_id doc = k ∧
    lookup_mu_sigma s rm doc = Ok (Some (mu, sigma)) ∧
    alpha_choices self !! t = Some a ∧
    buffer_duration mu sigma a = Ok e.
Proof.
  unfold durations_get. intros He.
  destruct (durations !! j) as [dj|] eqn:Hj; last first.
  { rewrite (lookup_total_gmap_None _ _ Hj) in He.
    rewrite !lookup_total_gmap_empty, lookup_empty in He. done. }
  rewrite (lookup_total_correct _ _ _ Hj) in He.
  destruct (dj !! r) as [djr|] eqn:Hr; last first.
  { rewrite (lookup_total_gmap_None _ _ Hr) in He.
    rewrite lookup_total_gmap_empty, lookup_empty in He. done. }
  rewrite (lookup_total_correct _ _ _ Hr) in He.
  destruct (djr !! k) as [cell|] eqn:Hk; last first.
  { rewrite (lookup_total_gmap_None _ _ Hk) in He.
    rewrite lookup_empty in He. done. }
  rewrite (lookup_total_correct _ _ _ Hk) in He.
  unfold precompute_durations in Hpre.
  destruct (build_dict_inv _ _ _ _ _ _ Hpre Hj) as (s & Hs & Hsid & Hdj).
  destruct (build_dict_inv _ _ _ _ _ _ Hdj Hr) as (rm & Hrm & Hrid & Hdjr).
  destruct (build_dict_inv _ _ _ _ _ _ Hdjr Hk) as (doc & Hdoc & Hkid & Hcell).
  destruct (duration_cell_inv _ _ _ _ _ _ _ Hcell He)
    as (mu & sigma & a & Hl & Ha & Hb).
  exists s, rm, doc, mu, sigma, a. done.
Qed.
End precompute_durations.

(** ** Membership in the fixed set and in the valid set *)

Section domain.
Variables (durations : Durations) (ot_doc : R).
Variables (J D R_ K : list string) (T : list nat).
Variables (day_dict : gmap string Day) (doc_dict : gmap string Doctor).

Local Abbreviation fixed :=
  (preprocess_and_fix durations ot_doc J D R_ K T day_dict doc_dict).
Local Abbreviation valid :=
  (build_valid durations fixed J D R_ K T day_dict doc_dict).
Local Abbreviation cap := (doctor_day_cap day_dict doc_dict).

Lemma elem_of_preprocess_and_fix (j d r k : string) (t : nat) :
  (j, d, r, k, t) ∈ fixed ↔
  j ∈ J ∧ d ∈ D ∧ r ∈ R_ ∧ k ∈ K ∧ t ∈ T ∧
  (cap k d = 0 ∨
   ∃ dur, durations_get durations j r k t = Some dur ∧
          ext_gt dur (cap k d + ot_doc) = true).
Proof.
  unfold preprocess_and_fix.
  rewrite elem_of_list_to_set. split.
  - intros Hin.
    apply list_elem_of_bind in Hin as (j' & Hin & Hj).
    apply list_elem_of_bind in Hin as (d' & Hin & Hd).
    apply list_elem_of_bind in Hin as (k' & Hin & Hk).
    case_bool_decide as Hcap.
    + apply list_elem_of_bind in Hin as (r' & Hin & Hr).
      apply list_elem_of_bind in Hin as (t' & Hin & Ht).
      apply list_elem_of_singleton in Hin as [= -> -> -> -> ->].
      split_and!; try done. by left.
    + apply list_elem_of_bind in Hin as (r' & Hin & Hr).
      apply list_elem_of_bind in Hin as (t' & Hin & Ht).
      destruct (durations_get durations j' r' k' t') as [dur|] eqn:Hdur;
        [|by apply elem_of_nil in Hin].
      destruct (ext_gt dur _) eqn:Hgt; [|by apply elem_of_nil in Hin].
      apply list_elem_of_singleton in Hin as [= -> -> -> -> ->].
      split_and!; try done. right. by exists dur.
  - intros (Hj & Hd & Hr & Hk & Ht & Hcase).
    apply list_elem_of_bind. exists j. split; [|done].
    apply list_elem_of_bind. exists d. split; [|done].
    apply list_elem_of_bind. exists k. split; [|done].
    case_bool_decide as Hcap.
    + apply list_elem_of_bind. exists r. split; [|done].
      apply list_elem_of_bind. exists t. split; [|done].
      by apply list_elem_of_singleton.
    + destruct Hcase as [?|(dur & Hdur & Hgt)]; [done|].
      apply list_elem_of_bind. exists r. split; [|done].
      apply list_elem_of_bind. exists t. split; [|done].
      rewrite Hdur, Hgt. by apply list_elem_of_singleton.
Qed.

Lemma elem_of_build_valid (j d r k : string) (t : nat) :
  (j, d, r, k, t) ∈ valid ↔
  j ∈ J ∧ d ∈ D ∧ r ∈ R_ ∧ k ∈ K ∧ t ∈ T ∧
  cap k d > 0 ∧
  is_Some (durations_get durations j r k t) ∧
  (j, d, r, k, t) ∉ fixed.
Proof.
  unfold build_valid.
  rewrite elem_of_list_to_set. split.
  - intros Hin.
    apply list_elem_of_bind in Hin as (j' & Hin & Hj).
    apply list_elem_of_bind in Hin as (d' & Hin & Hd).
    apply list_elem_of_bind in Hin as (r' & Hin & Hr).
    apply list_elem_of_bind in Hin as (k' & Hin & Hk).
    case_bool_decide as Hcap; [|by apply elem_of_nil in Hin].
    apply list_elem_of_bind in Hin as (t' & Hin & Ht).
    destruct (bool_decide (is_Some _) && _) eqn:Hb; [|by apply elem_of_nil in Hin].
    apply andb_true_iff in Hb as [Hsome Hnf].
    apply bool_decide_eq_true_1 in Hsome.
    apply negb_true_iff, bool_decide_eq_false_1 in Hnf.
    apply list_elem_of_singleton in Hin as [= -> -> -> -> ->].
    done.
  - intros (Hj & Hd & Hr & Hk & Ht & Hcap & Hsome & Hnf).
    apply list_elem_of_bind. exists j. split; [|done].
    apply list_elem_of_bind. exists d. split; [|done].
    apply list_elem_of_bind. exists r. split; [|done].
    apply list_elem_of_bind. exists k. split; [|done].
    rewrite bool_decide_eq_true_2 by done.
    apply list_elem_of_bind. exists t. split; [|done].
    rewrite (bool_decide_eq_true_2 _ Hsome).
    rewrite (bool_decide_eq_false_2 _ Hnf). cbn.
    by apply list_elem_of_singleton.
Qed.

Lemma build_valid_elim (j d r k : string) (t : nat) :
  (j, d, r, k, t) ∈ valid →
  j ∈ J ∧ d ∈ D ∧ r ∈ R_ ∧ k ∈ K ∧ t ∈ T ∧
  cap k d > 0 ∧
  is_Some (durations_get durations j r k t) ∧
  (j, d, r, k, t) ∉ fixed.
Proof. exact (proj1 (elem_of_build_valid j d r k t)). Qed.

Lemma build_valid_intro (j d r k : string) (t : nat) :
  j ∈ J → d ∈ D → r ∈ R_ → k ∈ K → t ∈ T →
  cap k d > 0 →
  is_Some (durations_get durations j r k t) →
  (j, d, r, k, t) ∉ fixed →
  (j, d, r, k, t) ∈ valid.
Proof. intros. by apply (proj2 (elem_of_build_valid j d r k t)). Qed.
End domain.

Lemma sched_valid_elim (self : SurgeryScheduler) (durations : Durations)
    (j d r k : string) (t : nat) :
  (j, d, r, k, t) ∈ sched_valid self durations →
  j ∈ sched_J self ∧ d ∈ sched_D self ∧ r ∈ sched_R self ∧
  k ∈ sched_K self ∧ t ∈ sched_T self ∧
  doctor_day_cap (sched_day_dict self) (sched_doc_dict self) k d > 0 ∧
  is_Some (durations_get durations j r k t) ∧
  (j, d, r, k, t) ∉ sched_fixed_vars self durations.
Proof.
  exact (build_valid_elim durations (max_ot_doc self)
           (sched_J self) (sched_D self) (sched_R self) (sched_K self)
           (sched_T self) (sched_day_dict self) (sched_doc_dict self) j d r k t).
Qed.

Lemma sched_valid_intro (self : SurgeryScheduler) (durations : Durations)
    (j d r k : string) (t : nat) :
  j ∈ sched_J self → d ∈ sched_D self → r ∈ sched_R self →
  k ∈ sched_K self → t ∈ sched_T self →
  doctor_day_cap (sched_day_dict self) (sched_doc_dict self) k d > 0 →
  is_Some (durations_get durations j r k t) →
  (j, d, r, k, t) ∉ sched_fixed_vars self durations →
  (j, d, r, k, t) ∈ sched_valid self durations.
Proof.
  exact (build_valid_intro durations (max_ot_doc self)
           (sched_J self) (sched_D self) (sched_R self) (sched_K self)
           (sched_T self) (sched_day_dict self) (sched_doc_dict self) j d r k t).
Qed.

Lemma elem_of_sched_fixed_vars (self : SurgeryScheduler) (durations : Durations)
    (j d r k : string) (t : nat) :
  (j, d, r, k, t) ∈ sched_fixed_vars self durations ↔
  j ∈ sched_J self ∧ d ∈ sched_D self ∧ r ∈ sched_R self ∧
  k ∈ sched_K self ∧ t ∈ sched_T self ∧
  (doctor_day_cap (sched_day_dict self) (sched_doc_dict self) k d = 0 ∨
   ∃ dur, durations_get durations j r k t = Some dur ∧
          ext_gt dur (doctor_day_cap (sched_day_dict self) (sched_doc_dict self) k d
                      + max_ot_doc self) = true).
Proof.
  exact (elem_of_preprocess_and_fix durations (max_ot_doc self)
           (sched_J self) (sched_D self) (sched_R self) (sched_K self)
           (sched_T self) (sched_day_dict self) (sched_doc_dict self) j d r k t).
Qed.

(** ** [mapR] *)

Lemma mapR_cons {A B} (f : A → result B) (a : A) (l : list A) :
  mapR f (a :: l) = f a ≫= λ b, mapR f l ≫= λ bs, Ok (b :: bs).
Proof. done. Qed.

Lemma mapR_total {A B} (f : A → result B) (l : list A) :
  (∀ a, a ∈ l → is_Ok (f a)) → is_Ok (mapR f l).
Proof.
  induction l as [|a l IH]; intros Hall; [by eexists|].
  destruct (Hall a) as [b Hb]; [apply list_elem_of_here|].
  destruct IH as [bs Hbs]; [intros; by apply Hall, list_elem_of_further|].
  exists (b :: bs). rewrite mapR_cons, Hb. cbn. by rewrite Hbs.
Qed.

Lemma mapR_Ok {A B} (f : A → result B) (l : list A) (bs : list B) :
  mapR f l = Ok bs ↔ Forall2 (λ a b, f a = Ok b) l bs.
Proof.
  revert bs. induction l as [|a l IH]; intros bs.
  - split; [intros [= <-]; constructor|by inversion 1].
  - rewrite mapR_cons, bind_Ok. split.
    + intros (b & Hb & (bs' & Hbs & [= <-])%bind_Ok).
      constructor; [done|by apply IH].
    + inversion 1 as [|? b ? bs' Hb Hbs]; subst.
      exists b. split; [done|]. apply bind_Ok. exists bs'.
      split; [by apply IH|done].
Qed.

(** ** [build_model]: what a returned model holds, and when it returns *)

Lemma build_model_inv (self : SurgeryScheduler) (m : BuiltModel) :
  build_model self = Ok m →
  precompute_durations self = Ok (m_durations m) ∧
  m_epsilon_dict m = build_epsilon_dict (epsilon self) (days (instance self)) ∧
  m_day_dict m = sched_day_dict self ∧
  m_doc_dict m = sched_doc_dict self ∧
  m_fixed_vars m = sched_fixed_vars self (m_durations m) ∧
  m_VALID m = sched_valid self (m_durations m) ∧
  mapR (λ a, py_log (1 - a)) (alpha_choices self) = Ok (m_ln_alpha m) ∧
  build_dict (λ d, d) (λ d, py_log (1 - m_epsilon_dict m !!! d)) (sched_D self)
  = Ok (m_log_one_minus_eps m).
Proof.
  unfold build_model. intros Hm.
  apply bind_Ok in Hm as (durations & Hd & Hm).
  apply bind_Ok in Hm as (lome & Hl & Hm).
  apply bind_Ok in Hm as (max_dur & Hmax & Hm).
  apply bind_Ok in Hm as (ln_alpha & Hln & [= <-]).
  done.
Qed.

Lemma ext_list_max_is_Ok (l : list ext) : is_Ok (ext_list_max l) ↔ l ≠ [].
Proof.
  destruct l as [|e l]; cbn; split; try done.
  - by intros [? [=]].
  - intros _. by eexists.
Qed.

Lemma build_max_dur_total (durations : Durations) (J R_ K : list string)
    (j r k : string) (t : nat) (e : ext) :
  j ∈ J → r ∈ R_ → k ∈ K →
  durations_get durations j r k t = Some e →
  is_Ok (build_max_dur durations J R_ K).
Proof.
  intros Hj Hr Hk He. unfold build_max_dur. apply ext_list_max_is_Ok.
  intros Hnil.
  assert (Hcell : is_Ok (ext_list_max
            (map_to_list (((durations !!! j) !!! r) !!! k : gmap nat ext)).*2)).
  { apply ext_list_max_is_Ok. intros Hv.
    apply fmap_nil_inv, map_to_list_empty_iff in Hv.
    unfold durations_get in He. by rewrite Hv, lookup_empty in He. }
  destruct Hcell as [mx Hmx].
  assert (Hin : mx ∈ (j' ← J; r' ← R_; k' ← K;
            match ext_list_max
                    (map_to_list (((durations !!! j') !!! r') !!! k' : gmap nat ext)).*2
            with Ok mx' => [mx'] | Raise _ => [] end)).
  { apply list_elem_of_bind. exists j. split; [|done].
    apply list_elem_of_bind. exists r. split; [|done].
    apply list_elem_of_bind. exists k. split; [|done].
    rewrite Hmx. apply list_elem_of_here. }
  rewrite Hnil in Hin. by apply elem_of_nil in Hin.
Qed.

Lemma py_log_is_Ok (x : R) : is_Ok (py_log x) ↔ 0 < x.
Proof.
  unfold py_log. case_bool_decide as Hx; split.
  - by intros [? [=]].
  - lra.
  - lra.
  - intros _. by eexists.
Qed.

Lemma py_log_Ok (x y : R) : py_log x = Ok y ↔ 0 < x ∧ y = ln x.
Proof.
  unfold py_log. case_bool_decide as Hx; split.
  - done.
  - lra.
  - intros [= <-]. lra.
  - by intros [_ ->].
Qed.

Lemma build_model_total (self : SurgeryScheduler) (durations : Durations)
    (j r k : string) (t : nat) (e : ext) :
  precompute_durations self = Ok durations →
  (∀ d, d ∈ sched_D self →
        build_epsilon_dict (epsilon self) (days (instance self)) !!! d < 1) →
  j ∈ sched_J self → r ∈ sched_R self → k ∈ sched_K self →
  durations_get durations j r k t = Some e →
  (∀ a, a ∈ alpha_choices self → a < 1) →
  is_Ok (build_model self).
Proof.
  intros Hpre Heps Hj Hr Hk He Halpha. unfold build_model.
  rewrite Hpre. cbn.
  apply bind_is_Ok.
  destruct (build_dict_total (λ d : string, d)
              (λ d, py_log (1 - build_epsilon_dict (epsilon self)
                                    (days (instance self)) !!! d))
              (sched_D self)) as [lome Hlome].
  { intros d Hd. apply py_log_is_Ok. specialize (Heps d Hd). lra. }
  exists lome. split; [done|].
  apply bind_is_Ok.
  destruct (build_max_dur_total durations _ _ _ j r k t e Hj Hr Hk He)
    as [mx Hmx].
  exists mx. split; [done|].
  apply bind_is_Ok.
  destruct (mapR_total (λ a, py_log (1 - a)) (alpha_choices self)) as [la Hla].
  { intros a Ha. apply py_log_is_Ok. specialize (Halpha a Ha). lra. }
  exists la. split; [done|]. by eexists.
Qed.

(** ** [precompute_durations]: when it returns *)

Lemma read_entry_is_Ok (entry : MuSigmaEntry) :
  is_Ok (read_entry entry) ↔ is_Some (e_mu entry) ∧ is_Some (e_sigma entry).
Proof.
  unfold read_entry, is_Ok.
  destruct (e_mu entry) as [mu|], (e_sigma entry) as [sigma|]; split.
  - intros _. split; by eexists.
  - intros _. by eexists.
  - by intros [? ?].
  - by intros [_ [? ?]].
  - by intros [? ?].
  - by intros [[? ?] _].
  - by intros [? ?].
  - by intros [[? ?] _].
Qed.

Lemma read_entry_full (p : R * R) : read_entry (full_entry p) = Ok p.
Proof. by destruct p. Qed.

Lemma lookup_mu_sigma_total (s : Surgery) (r : Room) (k : Doctor) :
  parameters_complete s → is_Ok (lookup_mu_sigma s r k).
Proof.
  intros [Hmap Hs]. unfold lookup_mu_sigma.
  destruct (s_mu_sigma s) as [ms|] eqn:Hms.
  - destruct (ms !! combo_key (r_id r) (k_id k)) as [entry|] eqn:He;
      [|by eexists].
    destruct (proj2 (read_entry_is_Ok entry) (Hmap ms _ entry Hms He))
      as [p Hp].
    rewrite Hp. by eexists.
  - destruct (s_duration_mean s) as [mean|] eqn:Hmean; [|by eexists].
    destruct (truthy _ && _); [by eexists|].
    destruct (Hs Hms) as [std Hstd]; [by eexists|].
    rewrite Hstd. by eexists.
Qed.

Lemma buffer_duration_inf (mu sigma a : R) :
  a >= 1 → buffer_duration mu sigma a = Ok PInf.
Proof. intros Ha. unfold buffer_duration. by rewrite bool_decide_eq_true_2. Qed.

Lemma buffer_duration_total (mu sigma a : R) :
  0 < a → is_Ok (buffer_duration mu sigma a).
Proof.
  intros Ha. destruct (Rlt_le_dec a 1) as [Hlt|Hge].
  - rewrite buffer_duration_unit by done. by eexists.
  - rewrite buffer_duration_inf by lra. by eexists.
Qed.

Lemma duration_cell_total (alphas : list R) (s : Surgery) (r : Room) (k : Doctor) :
  (∀ a, a ∈ alphas → 0 < a) → parameters_complete s →
  is_Ok (duration_cell alphas s r k).
Proof.
  intros Halpha Hs. unfold duration_cell.
  destruct (lookup_mu_sigma_total s r k Hs) as [[[mu sigma]|] Hl];
    rewrite Hl; cbn; [|by eexists].
  apply build_dict_total. intros [t a] Hta. cbn.
  apply buffer_duration_total, Halpha.
  apply elem_of_enumerate in Hta. by eapply list_elem_of_lookup_2.
Qed.

Lemma precompute_durations_total (self : SurgeryScheduler) :
  (∀ a, a ∈ alpha_choices self → 0 < a) →
  (∀ s, s ∈ surgeries (instance self) → parameters_complete s) →
  is_Ok (precompute_durations self).
Proof.
  intros Halpha Hflat. unfold precompute_durations.
  apply build_dict_total. intros s Hs.
  apply build_dict_total. intros r _.
  apply build_dict_total. intros k _.
  apply duration_cell_total; [done|by apply Hflat].
Qed.

(** ** The claims on the duration model and on the domain *)

(** C9: in a model that [build_model] returns, every combination of VALID
    has a strictly positive doctor capacity on its day, a defined (finite)
    buffered duration that is at most this capacity plus the maximum doctor
    overtime, and is not among the combinations fixed to zero. *)
Theorem C9_valid_invariant (self : SurgeryScheduler) (m : BuiltModel)
    (j d r k : string) (t : nat) :
  build_model self = Ok m →
  (j, d, r, k, t) ∈ m_VALID m →
  doctor_day_cap (m_day_dict m) (m_doc_dict m) k d > 0 ∧
  (∃ x, durations_get (m_durations m) j r k t = Some (Fin x) ∧
        x <= doctor_day_cap (m_day_dict m) (m_doc_dict m) k d + max_ot_doc self) ∧
  (j, d, r, k, t) ∉ m_fixed_vars m.
Proof.
  intros (Hpre & _ & Hdd & Hkd & Hfix & Hvalid & _)%build_model_inv Hin.
  rewrite Hvalid in Hin. rewrite Hdd, Hkd, Hfix.
  apply sched_valid_elim in Hin
    as (Hj & Hd & Hr & Hk & Ht & Hcap & [dur Hdur] & Hnf).
  split; [done|]. split; [|done].
  rewrite elem_of_sched_fixed_vars in Hnf.
  destruct dur as [x|].
  - exists x. split; [done|].
    destruct (Rle_dec x (doctor_day_cap (sched_day_dict self)
                           (sched_doc_dict self) k d + max_ot_doc self))
      as [Hle|Hgt]; [done|].
    destruct Hnf. split_and!; try done. right. exists (Fin x).
    split; [done|]. apply bool_decide_eq_true_2. lra.
  - destruct Hnf. split_and!; try done. right. by exists PInf.
Qed.

Lemma precompute_durations_get (self : SurgeryScheduler) (durations : Durations)
    (s : Surgery) (r : Room) (k : Doctor) (mu sigma : R) (t : nat) (a : R) :
  precompute_durations self = Ok durations →
  NoDup (s_id <$> surgeries (instance self)) →
  NoDup (r_id <$> rooms (instance self)) →
  NoDup (k_id <$> doctors (instance self)) →
  s ∈ surgeries (instance self) →
  r ∈ rooms (instance self) →
  k ∈ doctors (instance self) →
  lookup_mu_sigma s r k = Ok (Some (mu, sigma)) →
  alpha_choices self !! t = Some a →
  ∃ e, buffer_duration mu sigma a = Ok e ∧
       durations_get durations (s_id s) (r_id r) (k_id k) t = Some e.
Proof.
  intros Hpre Hns Hnr Hnk Hs Hr Hk Hl Ha.
  destruct (precompute_durations_cell self durations Hpre s r k)
    as (cell & Hcell & Hget); try done.
  destruct (duration_cell_lookup _ _ _ _ _ _ _ _ _ Hl Hcell Ha) as (e & He & Hce).
  exists e. split; [done|]. unfold durations_get. by rewrite Hget.
Qed.


(** A combination whose duration is infinite is never valid. *)
Lemma infinite_duration_not_valid (self : SurgeryScheduler) (durations : Durations)
    (j d r k : string) (t : nat) :
  durations_get durations j r k t = Some PInf →
  (j, d, r, k, t) ∉ sched_valid self durations.
Proof.
  intros Hinf Hin.
  apply sched_valid_elim in Hin as (Hj & Hd & Hr & Hk & Ht & Hcap & _ & Hnf).
  destruct Hnf. apply elem_of_sched_fixed_vars.
  split_and!; try done. right. by exists PInf.
Qed.


(** C4: when every configured risk level is positive (and the duration
    parameters are complete: mapping entries carry ['mu'] and ['sigma'],
    flat pairs carry ['duration_std'], so that the precomputation returns),
    the precomputation returns, and for every surgery, room and doctor of the
    instance with parameters [(mu, sigma)] and every configured risk level
    [a] at index [t]: if [a < 1] the stored duration is
    [mu + sigma * sqrt((1 - a) / a)]; if [a >= 1] the stored duration is
    [+inf] and no combination with that surgery, room, doctor and risk level
    is valid, on any day. *)
Theorem C4_buffered_duration_value (self : SurgeryScheduler)
    (s : Surgery) (r : Room) (k : Doctor) (mu sigma : R) (t : nat) (a : R) :
  (∀ a', a' ∈ alpha_choices self → 0 < a') →
  (∀ s', s' ∈ surgeries (instance self) → parameters_complete s') →
  NoDup (s_id <$> surgeries (instance self)) →
  NoDup (r_id <$> rooms (instance self)) →
  NoDup (k_id <$> doctors (instance self)) →
  s ∈ surgeries (instance self) →
  r ∈ rooms (instance self) →
  k ∈ doctors (instance self) →
  lookup_mu_sigma s r k = Ok (Some (mu, sigma)) →
  alpha_choices self !! t = Some a →
  ∃ durations,
    precompute_durations self = Ok durations ∧
    (a < 1 →
     durations_get durations (s_id s) (r_id r) (k_id k) t
     = Some (Fin (mu + sigma * sqrt ((1 - a) / a)))) ∧
    (a >= 1 →
     durations_get durations (s_id s) (r_id r) (k_id k) t = Some PInf ∧
     ∀ d, (s_id s, d, r_id r, k_id k, t) ∉ sched_valid self durations).
Proof.
  intros Halpha Hflat Hns Hnr Hnk Hs Hr Hk Hl Ha.
  destruct (precompute_durations_total self Halpha Hflat) as [durations Hpre].
  exists durations. split; [done|].
  destruct (precompute_durations_get self durations s r k mu sigma t a)
    as (e & He & Hget); try done.
  assert (Hpos : 0 < a) by (by eapply Halpha, list_elem_of_lookup_2).
  split.
  - intros Hlt. rewrite buffer_duration_unit in He by done.
    injection He as He. by rewrite Hget, <- He.
  - intros Hge. rewrite buffer_duration_inf in He by done.
    injection He as He. rewrite <- He in Hget. split; [done|].
    intros d. by apply infinite_duration_not_valid.
Qed.

(** ** The small instances *)

Section small.
Variables (ss : list Surgery) (ks : list Doctor) (alphas : list R) (eps : Epsilon).
Variable s0 : Surgery.
Hypothesis Hids : NoDup (s_id <$> ss).
Hypothesis Hkids : NoDup (k_id <$> ks).
Hypothesis Hdoc : doctor1 ∈ ks.
Hypothesis Hflat : ∀ s, s ∈ ss → parameters_complete s.
Hypothesis Hs0 : s0 ∈ ss.
Hypothesis Hparams : lookup_mu_sigma s0 room1 doctor1 = Ok (Some (200, 0)).
Hypothesis Hpos : ∀ a, a ∈ alphas → 0 < a.
Hypothesis Hlt : ∀ a, a ∈ alphas → a < 1.
Hypothesis Hhead : ∃ a, alphas !! 0%nat = Some a.

Local Abbreviation sched := (scheduler_of (instance_with ss ks) alphas eps).

Lemma small_cap :
  doctor_day_cap (sched_day_dict sched) (sched_doc_dict sched) "Doc1" "Mon" = 480.
Proof.
  unfold doctor_day_cap, sched_doc_dict.
  change "Doc1" with (k_id doctor1).
  rewrite (dict_map_lookup k_id (λ k, k) ks doctor1 Hkids Hdoc).
  cbn. by rewrite lookup_singleton_eq.
Qed.

Lemma small_precompute : is_Ok (precompute_durations sched).
Proof. by apply precompute_durations_total. Qed.

Lemma small_duration (durations : Durations) :
  precompute_durations sched = Ok durations →
  durations_get durations (s_id s0) "OR1" "Doc1" 0 = Some (Fin 200).
Proof.
  intros Hpre. destruct Hhead as [a Ha].
  destruct (precompute_durations_get sched durations
              s0 room1 doctor1 200 0 0%nat a Hpre)
    as (e & He & Hget); try done.
  - apply NoDup_singleton.
  - apply list_elem_of_here.
  - assert (Hin : a ∈ alphas) by (by eapply list_elem_of_lookup_2).
    rewrite buffer_duration_unit in He by auto. injection He as He.
    cbn in Hget. rewrite Hget, <- He. unfold buffered. do 2 f_equal. lra.
Qed.

Lemma small_build_model :
  (∀ d, d ∈ sched_D sched →
        build_epsilon_dict eps [monday] !!! d < 1) →
  is_Ok (build_model sched).
Proof.
  intros Heps. destruct small_precompute as [durations Hpre].
  apply (build_model_total sched durations (s_id s0) "OR1" "Doc1" 0%nat (Fin 200));
    try done.
  - by apply (list_elem_of_fmap_2 s_id).
  - apply list_elem_of_here.
  - by apply (list_elem_of_fmap_2 k_id) in Hdoc.
  - by apply small_duration.
Qed.

Lemma small_valid (durations : Durations) :
  precompute_durations sched = Ok durations →
  (s_id s0, "Mon", "OR1", "Doc1", 0%nat) ∈ sched_valid sched durations.
Proof.
  intros Hpre. pose proof (small_duration durations Hpre) as Hdur.
  apply sched_valid_intro.
  - by apply (list_elem_of_fmap_2 s_id).
  - apply list_elem_of_here.
  - apply list_elem_of_here.
  - by apply (list_elem_of_fmap_2 k_id) in Hdoc.
  - destruct Hhead as [a Ha]. apply elem_of_seq. split; [lia|].
    apply lookup_lt_Some in Ha. cbn in *. lia.
  - rewrite small_cap. lra.
  - rewrite Hdur. by eexists.
  - rewrite elem_of_sched_fixed_vars.
    intros (_ & _ & _ & _ & _ & Hcase). rewrite small_cap in Hcase.
    destruct Hcase as [Hz|(dur & Hd & Hgt)]; [lra|].
    rewrite Hdur in Hd. injection Hd as <-. cbn in Hgt.
    apply bool_decide_eq_true_1 in Hgt. lra.
Qed.
End small.

Lemma surgery_flat_complete (j : string) (mean std : R) :
  parameters_complete (surgery_flat j mean std).
Proof.
  split.
  - by intros ms key entry [=].
  - intros _ _. by eexists.
Qed.


Lemma two_ids_NoDup (s1 s2 : Surgery) :
  s_id s1 ≠ s_id s2 → NoDup (s_id <$> [s1; s2]).
Proof.
  intros Hne. cbn. apply NoDup_cons. split; [|apply NoDup_singleton].
  by intros ?%list_elem_of_singleton.
Qed.

Lemma two_flat_complete (s1 s2 s : Surgery) :
  parameters_complete s1 → parameters_complete s2 → s ∈ [s1; s2] →
  parameters_complete s.
Proof.
  intros H1 H2 [->|[->|[]%elem_of_nil]%elem_of_cons]%elem_of_cons; done.
Qed.

Lemma float_epsilon_lt_1 (x : R) (d : string) :
  x < 1 → d ∈ ["Mon"] → build_epsilon_dict (EpsFloat x) [monday] !!! d < 1.
Proof.
  intros Hx ->%list_elem_of_singleton. cbn. unfold dict_map. cbn.
  by rewrite lookup_total_insert_eq.
Qed.

Lemma one_tenth_only (P : R → Prop) : P 0.1 → ∀ a, a ∈ [0.1] → P a.
Proof. by intros HP a ->%list_elem_of_singleton. Qed.

Lemma small_scheduler_build_model : is_Ok (build_model small_scheduler).
Proof.
  apply (small_build_model _ _ _ _ (surgery_flat "S1" 200 0)).
  - by apply two_ids_NoDup.
  - apply NoDup_singleton.
  - apply list_elem_of_here.
  - intros s. apply two_flat_complete; apply surgery_flat_complete.
  - apply list_elem_of_here.
  - reflexivity.
  - apply one_tenth_only. lra.
  - apply one_tenth_only. lra.
  - by eexists.
  - intros d. apply float_epsilon_lt_1. lra.
Qed.

Lemma small_scheduler_valid (durations : Durations) :
  precompute_durations small_scheduler = Ok durations →
  ("S1", "Mon", "OR1", "Doc1", 0%nat) ∈ sched_valid small_scheduler durations.
Proof.
  apply (small_valid _ _ _ _ (surgery_flat "S1" 200 0)).
  - by apply two_ids_NoDup.
  - apply NoDup_singleton.
  - apply list_elem_of_here.
  - apply list_elem_of_here.
  - reflexivity.
  - apply one_tenth_only. lra.
  - apply one_tenth_only. lra.
  - by eexists.
Qed.

Lemma C9_witness :
  ∃ m, build_model small_scheduler = Ok m ∧
       ("S1", "Mon", "OR1", "Doc1", 0%nat) ∈ m_VALID m ∧
       doctor_day_cap (m_day_dict m) (m_doc_dict m) "Doc1" "Mon" > 0 ∧
       (∃ x, durations_get (m_durations m) "S1" "OR1" "Doc1" 0 = Some (Fin x) ∧
             x <= doctor_day_cap (m_day_dict m) (m_doc_dict m) "Doc1" "Mon"
                  + max_ot_doc small_scheduler) ∧
       ("S1", "Mon", "OR1", "Doc1", 0%nat) ∉ m_fixed_vars m.
Proof.
  destruct small_scheduler_build_model as [m Hm]. exists m.
  assert (Hin : ("S1", "Mon", "OR1", "Doc1", 0%nat) ∈ m_VALID m).
  { destruct (build_model_inv _ _ Hm) as (Hpre & _ & _ & _ & _ & -> & _).
    by apply small_scheduler_valid. }
  split; [done|]. split; [done|].
  exact (C9_valid_invariant small_scheduler m "S1" "Mon" "OR1" "Doc1" 0%nat Hm Hin).
Defined.

Lemma C4_witness :
  ∃ durations,
    precompute_durations small_scheduler = Ok durations ∧
    (0.1 < 1 →
     durations_get durations "S1" "OR1" "Doc1" 0
     = Some (Fin (200 + 0 * sqrt ((1 - 0.1) / 0.1)))) ∧
    (0.1 >= 1 →
     durations_get durations "S1" "OR1" "Doc1" 0 = Some PInf ∧
     ∀ d, ("S1", d, "OR1", "Doc1", 0%nat) ∉ sched_valid small_scheduler durations).
Proof.
  apply (C4_buffered_duration_value small_scheduler
           (surgery_flat "S1" 200 0) room1 doctor1 200 0 0%nat 0.1).
  - apply one_tenth_only. lra.
  - intros s. apply two_flat_complete; apply surgery_flat_complete.
  - by apply two_ids_NoDup.
  - apply NoDup_singleton.
  - apply NoDup_singleton.
  - apply list_elem_of_here.
  - apply list_elem_of_here.
  - apply list_elem_of_here.
  - reflexivity.
  - reflexivity.
Defined.

(** ** Default doctor capacity: the admissible combinations against the
    capacity constraint *)

Lemma unmapped_caps (doc : Doctor) :
  k_id doc = "Doc1" →
  (k_daily_capacity doc = None ∨
   ∃ m, k_daily_capacity doc = Some (CapMap m) ∧ m !! "Mon" = None) →
  let self := unmapped_scheduler doc in
  doctor_day_cap (sched_day_dict self) (sched_doc_dict self) "Doc1" "Mon" = 0 ∧
  doc_cap_rule_cap (sched_day_dict self) (sched_doc_dict self) "Doc1" "Mon" = 480.
Proof.
  intros Hid Hcap.
  unfold doctor_day_cap, doc_cap_rule_cap, sched_day_dict, sched_doc_dict, dict_map.
  cbn. rewrite Hid, !lookup_insert_eq, !lookup_total_insert_eq.
  destruct Hcap as [->|(m & -> & Hm)]; cbn.
  - by rewrite lookup_empty.
  - by rewrite Hm.
Qed.

(** C2, at a doctor without a capacity mapping and at a doctor whose mapping
    has no entry for the day: [build_model] and [_preprocess_and_fix]
    resolve the capacity to 0, not to the day's 480 minutes, so that no
    combination at all is valid, whereas [doc_cap_rule] resolves it to 480. *)
Theorem C2_default_capacity_mismatch :
  ∀ doc, doc = doctor_unmapped ∨ doc = doctor_tuesday →
    let self := unmapped_scheduler doc in
    doctor_day_cap (sched_day_dict self) (sched_doc_dict self) "Doc1" "Mon" = 0 ∧
    doc_cap_rule_cap (sched_day_dict self) (sched_doc_dict self) "Doc1" "Mon" = 480 ∧
    d_H monday = 480 ∧
    ∀ durations c, c ∉ sched_valid self durations.
Proof.
  intros doc Hdoc.
  assert (Hcaps : doctor_day_cap (sched_day_dict (unmapped_scheduler doc))
                    (sched_doc_dict (unmapped_scheduler doc)) "Doc1" "Mon" = 0 ∧
                  doc_cap_rule_cap (sched_day_dict (unmapped_scheduler doc))
                    (sched_doc_dict (unmapped_scheduler doc)) "Doc1" "Mon" = 480).
  { apply unmapped_caps; destruct Hdoc as [->| ->]; try done.
    - by left.
    - right. eexists. split; [done|]. by rewrite lookup_singleton_ne. }
  destruct Hcaps as [Hbuild Hrule]. cbn zeta. split_and!; try done.
  intros durations [[[[j d] r] k] t] Hin.
  apply sched_valid_elim in Hin as (_ & Hd & _ & Hk & _ & Hcap & _).
  assert (Hkid : k_id doc = "Doc1") by (by destruct Hdoc as [->| ->]).
  cbn in Hd, Hk. rewrite Hkid in Hk.
  apply list_elem_of_singleton in Hd as ->.
  apply list_elem_of_singleton in Hk as ->.
  rewrite Hbuild in Hcap. lra.
Qed.

Lemma C2_witness :
  doctor_day_cap (sched_day_dict (unmapped_scheduler doctor_unmapped))
    (sched_doc_dict (unmapped_scheduler doctor_unmapped)) "Doc1" "Mon" = 0 ∧
  doc_cap_rule_cap (sched_day_dict (unmapped_scheduler doctor_unmapped))
    (sched_doc_dict (unmapped_scheduler doctor_unmapped)) "Doc1" "Mon" = 480 ∧
  d_H monday = 480 ∧
  ∀ durations c, c ∉ sched_valid (unmapped_scheduler doctor_unmapped) durations.
Proof.
  apply (C2_default_capacity_mismatch doctor_unmapped). by left.
Defined.

(** ** What the preprocessing fixes *)

Lemma spec_capacity_differs (day_dict : gmap string Day)
    (doc_dict : gmap string Doctor) (k d : string) :
  doctor_day_cap day_dict doc_dict k d ≠ spec_doctor_capacity day_dict doc_dict k d →
  doctor_day_cap day_dict doc_dict k d = 0 ∧
  ∃ doc m, doc_dict !! k = Some doc ∧
           default (CapMap ∅) (k_daily_capacity doc) = CapMap m ∧ m !! d = None.
Proof.
  unfold doctor_day_cap, spec_doctor_capacity.
  destruct (doc_dict !! k) as [doc|]; cbn; [|by intros []].
  destruct (k_daily_capacity doc) as [[m|x]|] eqn:Hcap; cbn; [|by intros []|].
  - destruct (m !! d) as [v|] eqn:Hm; cbn; [by intros []|].
    intros _. split; [done|]. exists doc, m. by rewrite Hcap.
  - rewrite lookup_empty. cbn. intros _. split; [done|].
    exists doc, ∅. by rewrite Hcap, lookup_empty.
Qed.

Lemma unmapped_spec_capacity (doc : Doctor) :
  k_id doc = "Doc1" →
  (k_daily_capacity doc = None ∨
   ∃ m, k_daily_capacity doc = Some (CapMap m) ∧ m !! "Mon" = None) →
  spec_doctor_capacity (sched_day_dict (unmapped_scheduler doc))
    (sched_doc_dict (unmapped_scheduler doc)) "Doc1" "Mon" = 480.
Proof.
  intros Hid Hcap.
  unfold spec_doctor_capacity, sched_day_dict, sched_doc_dict, dict_map.
  cbn. rewrite Hid, !lookup_insert_eq, !lookup_total_insert_eq.
  cbn [mbind option_bind].
  destruct Hcap as [->|(m & -> & Hm)]; cbn; [done|].
  by rewrite Hm.
Qed.

Lemma unmapped_duration (doc : Doctor) (durations : Durations) :
  k_id doc = "Doc1" →
  precompute_durations (unmapped_scheduler doc) = Ok durations →
  durations_get durations "S1" "OR1" "Doc1" 0 = Some (Fin 200).
Proof.
  intros Hid Hpre.
  destruct (precompute_durations_get (unmapped_scheduler doc) durations
              (surgery_flat "S1" 200 0) room1 doc 200 0 0%nat 0.1 Hpre)
    as (e & He & Hget).
  - by apply two_ids_NoDup.
  - apply NoDup_singleton.
  - apply NoDup_singleton.
  - apply list_elem_of_here.
  - apply list_elem_of_here.
  - apply list_elem_of_here.
  - reflexivity.
  - reflexivity.
  - rewrite buffer_duration_unit in He by lra. injection He as <-.
    cbn in Hget. rewrite Hid in Hget. rewrite Hget. unfold buffered.
    do 2 f_equal. lra.
Qed.

Lemma unmapped_precompute (doc : Doctor) :
  is_Ok (precompute_durations (unmapped_scheduler doc)).
Proof.
  apply precompute_durations_total.
  - apply one_tenth_only. lra.
  - intros s. apply two_flat_complete; apply surgery_flat_complete.
Qed.

(** C5: [_preprocess_and_fix] fixes a combination exactly when it ranges
    over the index sets and either the capacity that the function resolves
    for the doctor and the day is zero, or the stored buffered duration
    exceeds this capacity plus the maximum doctor overtime.  The resolved
    capacity differs from the doctor's capacity of the specification only
    where the doctor's mapping (an empty one for a doctor that has none)
    lacks the day, and is 0 there, not the day's [H].  On the instance of
    C2, with a doctor without a mapping or with a mapping that lacks
    Monday, the doctor's capacity is 480 and the buffered duration 200 is
    at most [480 + 60], and the combination is fixed to zero all the
    same. *)
Theorem C5_preprocess_fixes_on_missing_capacity :
  (∀ durations ot_doc J D R_ K T day_dict doc_dict j d r k t,
     (j, d, r, k, t)
       ∈ preprocess_and_fix durations ot_doc J D R_ K T day_dict doc_dict
     ↔
     (j ∈ J ∧ d ∈ D ∧ r ∈ R_ ∧ k ∈ K ∧ t ∈ T) ∧
     (doctor_day_cap day_dict doc_dict k d = 0 ∨
      durations_get durations j r k t = Some PInf ∨
      ∃ x, durations_get durations j r k t = Some (Fin x) ∧
           x > doctor_day_cap day_dict doc_dict k d + ot_doc)) ∧
  (∀ day_dict doc_dict k d,
     doctor_day_cap day_dict doc_dict k d
       ≠ spec_doctor_capacity day_dict doc_dict k d →
     doctor_day_cap day_dict doc_dict k d = 0 ∧
     ∃ doc m, doc_dict !! k = Some doc ∧
              default (CapMap ∅) (k_daily_capacity doc) = CapMap m ∧
              m !! d = None) ∧
  (∀ doc durations,
     doc = doctor_unmapped ∨ doc = doctor_tuesday →
     precompute_durations (unmapped_scheduler doc) = Ok durations →
     spec_doctor_capacity (sched_day_dict (unmapped_scheduler doc))
       (sched_doc_dict (unmapped_scheduler doc)) "Doc1" "Mon" = 480 ∧
     durations_get durations "S1" "OR1" "Doc1" 0 = Some (Fin 200) ∧
     200 <= 480 + max_ot_doc (unmapped_scheduler doc) ∧
     ("S1", "Mon", "OR1", "Doc1", 0%nat)
       ∈ sched_fixed_vars (unmapped_scheduler doc) durations).
Proof.
  split_and!.
  - intros durations ot_doc J D R_ K T day_dict doc_dict j d r k t.
    rewrite elem_of_preprocess_and_fix. split.
    + intros (Hj & Hd & Hr & Hk & Ht & Hcase). split; [done|].
      destruct Hcase as [Hz|(dur & Hdur & Hgt)]; [by left|right].
      destruct dur as [x|]; [right|by left].
      exists x. split; [done|]. by apply bool_decide_eq_true_1 in Hgt.
    + intros ((Hj & Hd & Hr & Hk & Ht) & Hcase). split_and!; try done.
      destruct Hcase as [Hz|[Hinf|(x & Hx & Hgt)]]; [by left| |].
      * right. by exists PInf.
      * right. exists (Fin x). split; [done|]. by apply bool_decide_eq_true_2.
  - apply spec_capacity_differs.
  - intros doc durations Hdoc Hpre.
    assert (Hid : k_id doc = "Doc1") by (by destruct Hdoc as [->| ->]).
    assert (Hcap : k_daily_capacity doc = None ∨
                   ∃ m, k_daily_capacity doc = Some (CapMap m) ∧ m !! "Mon" = None).
    { destruct Hdoc as [->| ->]; [by left|].
      right. eexists. split; [done|]. by rewrite lookup_singleton_ne. }
    split_and!.
    + by apply unmapped_spec_capacity.
    + by apply (unmapped_duration doc).
    + cbn. lra.
    + apply elem_of_sched_fixed_vars. cbn [sched_J sched_D sched_R sched_K sched_T].
      split_and!.
      * apply list_elem_of_here.
      * apply list_elem_of_here.
      * apply list_elem_of_here.
      * cbn. rewrite Hid. apply list_elem_of_here.
      * apply list_elem_of_here.
      * left. by apply (unmapped_caps doc).
Qed.

Lemma C5_witness :
  ∃ durations,
    precompute_durations (unmapped_scheduler doctor_unmapped) = Ok durations ∧
    spec_doctor_capacity (sched_day_dict (unmapped_scheduler doctor_unmapped))
      (sched_doc_dict (unmapped_scheduler doctor_unmapped)) "Doc1" "Mon" = 480 ∧
    durations_get durations "S1" "OR1" "Doc1" 0 = Some (Fin 200) ∧
    200 <= 480 + max_ot_doc (unmapped_scheduler doctor_unmapped) ∧
    ("S1", "Mon", "OR1", "Doc1", 0%nat)
      ∈ sched_fixed_vars (unmapped_scheduler doctor_unmapped) durations.
Proof.
  destruct (unmapped_precompute doctor_unmapped) as [durations Hpre].
  exists durations. split; [exact Hpre|].
  apply (proj2 (proj2 C5_preprocess_fixes_on_missing_capacity)
           doctor_unmapped durations); [by left|exact Hpre].
Defined.

(** ** Missing duration parameters *)







(** ** Grouping a schedule by day *)

Lemma items_get_cons {V} (d d' : string) (v : V) (items : list (string * V)) :
  items_get d ((d', v) :: items)
  = if decide (d' = d) then Some v else items_get d items.
Proof.
  unfold items_get. cbn. destruct (decide (d' = d)); [done|].
  by destruct (list_find _ items) as [[i p]|].
Qed.

Lemma items_get_Some {V} (d : string) (v : V) (items : list (string * V)) :
  items_get d items = Some v → (d, v) ∈ items.
Proof.
  induction items as [|[d' v'] items IH]; [done|].
  rewrite items_get_cons. destruct (decide (d' = d)) as [->|Hne].
  - intros [= ->]. apply list_elem_of_here.
  - intros Hv. by apply list_elem_of_further, IH.
Qed.

Lemma items_get_None {V} (d : string) (items : list (string * V)) :
  items_get d items = None ↔ d ∉ items.*1.
Proof.
  induction items as [|[d' v'] items IH].
  - split; [intros _ []%elem_of_nil|done].
  - rewrite items_get_cons, fmap_cons, not_elem_of_cons. cbn.
    destruct (decide (d' = d)) as [->|Hne]; split; try done.
    + by intros [? _].
    + intros Hn. split; [done|by apply IH].
    + intros [_ Hn]. by apply IH.
Qed.

Lemma items_unique {V} (items : list (string * V)) (d : string) (v1 v2 : V) :
  (d, v1) ∈ items → (d, v2) ∈ items → NoDup items.*1 → v1 = v2.
Proof.
  induction items as [|[d' v'] items IH]; [by intros []%elem_of_nil|].
  rewrite fmap_cons, NoDup_cons. cbn.
  intros [[= -> ->]|H1]%elem_of_cons [[= ->]|H2]%elem_of_cons [Hd Hnd]; try done.
  - destruct Hd. by apply (list_elem_of_fmap_2 fst) in H2.
  - simplify_eq. destruct Hd. by apply (list_elem_of_fmap_2 fst) in H1.
  - by apply IH.
Qed.

Lemma by_day_add_get (s : ScheduleEntry) (d : string)
    (by_day : list (string * list ScheduleEntry)) :
  items_get d (by_day_add s by_day)
  = if decide (d = se_day s)
    then Some (default [] (items_get d by_day) ++ [s])
    else items_get d by_day.
Proof.
  induction by_day as [|[d' ss] by_day IH]; cbn [by_day_add].
  - rewrite items_get_cons. destruct (decide (d = se_day s)) as [->|Hne].
    + by rewrite decide_True.
    + by rewrite decide_False.
  - destruct (decide (d' = se_day s)) as [->|Hne'].
    + rewrite !items_get_cons.
      destruct (decide (d = se_day s)) as [->|Hne].
      * by rewrite !decide_True.
      * by rewrite !decide_False.
    + rewrite !items_get_cons, IH.
      destruct (decide (d' = d)) as [->|Hne''].
      * by rewrite decide_False.
      * done.
Qed.

Lemma by_day_add_keys (s : ScheduleEntry)
    (by_day : list (string * list ScheduleEntry)) :
  NoDup by_day.*1 → NoDup (by_day_add s by_day).*1.
Proof.
  induction by_day as [|[d' ss] by_day IH]; cbn; intros Hnd.
  - apply NoDup_singleton.
  - apply NoDup_cons in Hnd as [Hd' Hnd].
    destruct (decide (d' = se_day s)) as [->|Hne]; cbn.
    + by apply NoDup_cons.
    + apply NoDup_cons. split; [|by apply IH].
      apply items_get_None. rewrite by_day_add_get, decide_False by done.
      by apply items_get_None.
Qed.

Lemma group_by_day_snoc (schedule : list ScheduleEntry) (s : ScheduleEntry) :
  group_by_day (schedule ++ [s]) = by_day_add s (group_by_day schedule).
Proof. unfold group_by_day. by rewrite foldl_snoc. Qed.

Lemma group_by_day_keys (schedule : list ScheduleEntry) :
  NoDup (group_by_day schedule).*1.
Proof.
  induction schedule as [|s schedule IH] using rev_ind; [constructor|].
  rewrite group_by_day_snoc. by apply by_day_add_keys.
Qed.

Lemma group_by_day_get (schedule : list ScheduleEntry) (d : string) :
  items_get d (group_by_day schedule)
  = match on_day d schedule with
    | [] => None
    | ss => Some ss
    end.
Proof.
  induction schedule as [|s schedule IH] using rev_ind; [done|].
  rewrite group_by_day_snoc, by_day_add_get, IH. unfold on_day.
  rewrite filter_app.
  destruct (decide (d = se_day s)) as [->|Hne].
  - rewrite filter_cons_True, filter_nil by done.
    destruct (filter _ schedule) as [|s' ss']; done.
  - rewrite filter_cons_False, filter_nil, app_nil_r by (intros Heq; by destruct Hne).
    done.
Qed.

Lemma group_by_day_elem (schedule : list ScheduleEntry) (d : string) (s : ScheduleEntry) :
  s ∈ schedule → se_day s = d → (d, on_day d schedule) ∈ group_by_day schedule.
Proof.
  intros Hs Hd. apply items_get_Some. rewrite group_by_day_get.
  assert (Hin : s ∈ on_day d schedule) by (by apply list_elem_of_filter).
  destruct (on_day d schedule); [by apply elem_of_nil in Hin|done].
Qed.

(** ** [verify_reliability] *)

Lemma build_ln1ma_total (alphas : list R) :
  (∀ a, a ∈ alphas → a < 1) →
  build_ln1ma alphas = Ok ((λ a, (a, ln (1 - a))) <$> alphas).
Proof.
  unfold build_ln1ma. induction alphas as [|a alphas IH]; intros Hlt; [done|].
  rewrite mapR_cons, fmap_cons.
  assert (Ha : py_log (1 - a) = Ok (ln (1 - a))).
  { apply py_log_Ok. split; [|done].
    specialize (Hlt a (list_elem_of_here _ _)). lra. }
  rewrite Ha. cbn. rewrite IH; [done|].
  intros a' Ha'. by apply Hlt, list_elem_of_further.
Qed.

Lemma ln1ma_get_Ok (alphas : list R) (a : R) :
  a ∈ alphas →
  ln1ma_get ((λ a, (a, ln (1 - a))) <$> alphas) a = Ok (ln (1 - a)).
Proof.
  intros Ha. unfold ln1ma_get.
  destruct (list_find _ _) as [[i [a' v]]|] eqn:Hfind.
  - apply list_find_Some in Hfind as (Hi & Hp & _). cbn in Hp. subst a'.
    apply list_elem_of_lookup_2, elem_of_reverse, list_elem_of_fmap in Hi
      as (a' & [= -> ->] & _).
    done.
  - apply list_find_None in Hfind.
    rewrite Forall_forall in Hfind.
    destruct (Hfind (a, ln (1 - a))); [|done].
    apply elem_of_reverse, list_elem_of_fmap. by exists a.
Qed.

Lemma lhs_sum_Ok (alphas : list R) (ss : list ScheduleEntry) (acc : R) :
  (∀ s, s ∈ ss → se_alpha s ∈ alphas) →
  foldlM (λ acc s,
            v ← ln1ma_get ((λ a, (a, ln (1 - a))) <$> alphas) (se_alpha s);
            Ok (acc + v)) acc ss
  = Ok (foldl (λ acc s, acc + ln (1 - se_alpha s)) acc ss).
Proof.
  revert acc. induction ss as [|s ss IH]; intros acc Hin; [done|].
  rewrite foldlM_cons, ln1ma_get_Ok by apply Hin, list_elem_of_here.
  cbn. apply IH. intros s' Hs'. by apply Hin, list_elem_of_further.
Qed.

Lemma verify_day_Ok (alphas : list R) (eps : Epsilon) (d : string)
    (ss : list ScheduleEntry) :
  (∀ s, s ∈ ss → se_alpha s ∈ alphas) →
  verify_epsilon_val eps d < 1 →
  verify_day ((λ a, (a, ln (1 - a))) <$> alphas) eps (d, ss)
  = Ok {| dr_lhs := sum_ln1ma ss;
          dr_rhs := ln (1 - verify_epsilon_val eps d);
          dr_slack := sum_ln1ma ss - ln (1 - verify_epsilon_val eps d);
          dr_satisfied :=
            bool_decide (sum_ln1ma ss - ln (1 - verify_epsilon_val eps d) >= - reliability_tolerance);
          dr_epsilon := verify_epsilon_val eps d |}.
Proof.
  intros Hin Heps. unfold verify_day.
  rewrite lhs_sum_Ok by done. cbn.
  assert (Hlog : py_log (1 - verify_epsilon_val eps d)
                 = Ok (ln (1 - verify_epsilon_val eps d))).
  { apply py_log_Ok. split; [lra|done]. }
  by rewrite Hlog.
Qed.

Lemma verify_reliability_day_report (schedule : list ScheduleEntry)
    (alphas : list R) (eps : Epsilon) (d : string) :
  (∀ a, a ∈ alphas → a < 1) →
  (∀ s, s ∈ schedule → se_alpha s ∈ alphas) →
  (∀ s, s ∈ schedule → verify_epsilon_val eps (se_day s) < 1) →
  (∃ s, s ∈ schedule ∧ se_day s = d) →
  ∃ rc,
    verify_reliability schedule alphas eps = Ok rc ∧
    rc !! d
    = Some {| dr_lhs := sum_ln1ma (on_day d schedule);
              dr_rhs := ln (1 - verify_epsilon_val eps d);
              dr_slack := sum_ln1ma (on_day d schedule)
                          - ln (1 - verify_epsilon_val eps d);
              dr_satisfied :=
                bool_decide (sum_ln1ma (on_day d schedule)
                             - ln (1 - verify_epsilon_val eps d)
                             >= - reliability_tolerance);
              dr_epsilon := verify_epsilon_val eps d |}.
Proof.
  intros Hlt Halpha Heps (s & Hs & Hd).
  unfold verify_reliability. rewrite (build_ln1ma_total alphas Hlt). cbn.
  set (ln1ma := (λ a, (a, ln (1 - a))) <$> alphas).
  assert (Hday : ∀ item, item ∈ group_by_day schedule →
            verify_day ln1ma eps item
            = Ok {| dr_lhs := sum_ln1ma item.2;
                    dr_rhs := ln (1 - verify_epsilon_val eps item.1);
                    dr_slack := sum_ln1ma item.2
                                - ln (1 - verify_epsilon_val eps item.1);
                    dr_satisfied :=
                      bool_decide (sum_ln1ma item.2
                                   - ln (1 - verify_epsilon_val eps item.1)
                                   >= - reliability_tolerance);
                    dr_epsilon := verify_epsilon_val eps item.1 |}).
  { intros [d' ss] Hitem.
    assert (Hget : items_get d' (group_by_day schedule) = Some ss).
    { destruct (items_get d' (group_by_day schedule)) as [ss'|] eqn:Hg.
      - apply items_get_Some in Hg. f_equal.
        by eapply (items_unique (group_by_day schedule) d' ss' ss),
             group_by_day_keys.
      - apply items_get_None in Hg. destruct Hg.
        by apply (list_elem_of_fmap_2 fst) in Hitem. }
    rewrite group_by_day_get in Hget.
    assert (Hss : ss = on_day d' schedule ∧ ss ≠ []).
    { destruct (on_day d' schedule); [done|]. by injection Hget as <-. }
    destruct Hss as [-> Hne].
    destruct (on_day d' schedule) as [|s0 ss0] eqn:Hon; [done|].
    assert (Hs0 : s0 ∈ schedule ∧ se_day s0 = d').
    { assert (Hin0 : s0 ∈ on_day d' schedule) by (rewrite Hon; apply list_elem_of_here).
      apply list_elem_of_filter in Hin0 as [? ?]. done. }
    apply verify_day_Ok.
    - intros s' Hs'. apply Halpha.
      assert (Hin' : s' ∈ on_day d' schedule) by (by rewrite Hon).
      by apply list_elem_of_filter in Hin' as [_ ?].
    - destruct Hs0 as [Hs0 <-]. by apply Heps. }
  destruct (build_dict_total fst (verify_day ln1ma eps) (group_by_day schedule))
    as [rc Hrc].
  { intros item Hitem. rewrite (Hday item Hitem). by eexists. }
  pose proof (group_by_day_elem schedule d s Hs Hd) as Hitem.
  destruct (build_dict_lookup fst (verify_day ln1ma eps) _ rc _ Hrc
              (group_by_day_keys schedule) Hitem) as (dr & Hdr & Hlook).
  rewrite (Hday _ Hitem) in Hdr. injection Hdr as <-. cbn in Hlook.
  exists rc. split; [done|]. exact Hlook.
Qed.


Lemma verify_epsilon_val_supplied (eps : Epsilon) (day_id : string) :
  verify_epsilon_val eps day_id = default 0.25 (supplied_epsilon eps day_id).
Proof. by destruct eps. Qed.

(** C7: for an extracted schedule whose risk levels are configured ones
    below 1 and whose days have an epsilon below 1, [verify_reliability]
    returns, and for every day [d] with at least one scheduled surgery its
    report has: lhs, the sum of [ln(1 - alpha)] over the surgeries of the
    schedule on [d]; epsilon, the epsilon configured for [d] (the float, or
    the dictionary's entry for [d], 0.25 standing for an entry that the
    dictionary lacks); rhs, [ln(1 - epsilon_d)] for this epsilon; slack,
    [lhs - rhs]; and satisfied exactly when [slack >= -1e-6], a positive
    tolerance, so that a slack below [-1e-6] is reported as not
    satisfied. *)
Theorem C7_verify_reliability_report (schedule : list ScheduleEntry)
    (alphas : list R) (eps : Epsilon) (d : string) :
  (∀ a, a ∈ alphas → a < 1) →
  (∀ s, s ∈ schedule → se_alpha s ∈ alphas) →
  (∀ s, s ∈ schedule → default 0.25 (supplied_epsilon eps (se_day s)) < 1) →
  (∃ s, s ∈ schedule ∧ se_day s = d) →
  ∃ rc dr,
    verify_reliability schedule alphas eps = Ok rc ∧
    rc !! d = Some dr ∧
    dr_lhs dr = sum_ln1ma (on_day d schedule) ∧
    dr_epsilon dr = default 0.25 (supplied_epsilon eps d) ∧
    dr_rhs dr = ln (1 - default 0.25 (supplied_epsilon eps d)) ∧
    (∀ e, supplied_epsilon eps d = Some e →
          dr_epsilon dr = e ∧ dr_rhs dr = ln (1 - e)) ∧
    dr_slack dr = dr_lhs dr - dr_rhs dr ∧
    reliability_tolerance = 1e-6 ∧ 0 < reliability_tolerance ∧
    (dr_satisfied dr = true ↔ dr_slack dr >= - reliability_tolerance) ∧
    (dr_satisfied dr = false ↔ dr_slack dr < - reliability_tolerance).
Proof.
  intros Hlt Halpha Heps Hday.
  destruct (verify_reliability_day_report schedule alphas eps d Hlt Halpha)
    as (rc & Hrc & Hlook); [|done|].
  { intros s Hs. rewrite verify_epsilon_val_supplied. by apply Heps. }
  exists rc. eexists. split; [done|]. split; [exact Hlook|].
  cbn [dr_satisfied dr_slack dr_lhs dr_rhs dr_epsilon].
  rewrite verify_epsilon_val_supplied.
  split; [reflexivity|]. split; [reflexivity|]. split; [reflexivity|].
  split; [by intros e ->|].
  split; [reflexivity|]. split; [reflexivity|].
  split; [unfold reliability_tolerance; lra|]. split.
  - apply bool_decide_eq_true.
  - rewrite bool_decide_eq_false. split; lra.
Qed.

Lemma small_schedule_alphas (s : ScheduleEntry) :
  s ∈ small_schedule → se_alpha s ∈ [0.1].
Proof.
  intros [->|[->|[]%elem_of_nil]%elem_of_cons]%elem_of_cons;
    apply list_elem_of_here.
Qed.

Lemma small_schedule_epsilon (s : ScheduleEntry) :
  s ∈ small_schedule → verify_epsilon_val (EpsFloat 0.5) (se_day s) < 1.
Proof. intros _. cbn [verify_epsilon_val]. lra. Qed.

Lemma C7_witness :
  ∃ rc dr,
    verify_reliability small_schedule [0.1] (EpsFloat 0.5) = Ok rc ∧
    rc !! "Mon" = Some dr ∧
    dr_lhs dr = sum_ln1ma (on_day "Mon" small_schedule) ∧
    dr_epsilon dr = 0.5 ∧
    dr_rhs dr = ln (1 - 0.5) ∧
    (∀ e, supplied_epsilon (EpsFloat 0.5) "Mon" = Some e →
          dr_epsilon dr = e ∧ dr_rhs dr = ln (1 - e)) ∧
    dr_slack dr = dr_lhs dr - dr_rhs dr ∧
    reliability_tolerance = 1e-6 ∧ 0 < reliability_tolerance ∧
    (dr_satisfied dr = true ↔ dr_slack dr >= - reliability_tolerance) ∧
    (dr_satisfied dr = false ↔ dr_slack dr < - reliability_tolerance).
Proof.
  apply (C7_verify_reliability_report small_schedule [0.1] (EpsFloat 0.5) "Mon").
  - apply one_tenth_only. lra.
  - apply small_schedule_alphas.
  - intros s _. cbn. lra.
  - exists (entry_at "S1" "Mon" 0.1). split; [apply list_elem_of_here|reflexivity].
Defined.

(** ** [max] on floats *)

Lemma foldl_Rmax_elem (x : R) (l : list R) : foldl Rmax x l ∈ x :: l.
Proof.
  revert x. induction l as [|y l IH]; intros x; cbn; [apply list_elem_of_here|].
  specialize (IH (Rmax x y)). apply elem_of_cons in IH as [->|IH].
  - unfold Rmax. destruct (Rle_dec x y).
    + apply list_elem_of_further, list_elem_of_here.
    + apply list_elem_of_here.
  - by do 2 apply list_elem_of_further.
Qed.

Lemma foldl_Rmax_ge_init (x : R) (l : list R) : x <= foldl Rmax x l.
Proof.
  revert x. induction l as [|y l IH]; intros x; cbn; [lra|].
  pose proof (IH (Rmax x y)). pose proof (Rmax_l x y). lra.
Qed.

Lemma foldl_Rmax_upper (x : R) (l : list R) (y : R) :
  y ∈ x :: l → y <= foldl Rmax x l.
Proof.
  revert x. induction l as [|z l IH]; intros x.
  - intros ->%list_elem_of_singleton. cbn. lra.
  - cbn. intros [->|[->|Hy]%elem_of_cons]%elem_of_cons.
    + pose proof (foldl_Rmax_ge_init (Rmax x z) l). pose proof (Rmax_l x z). lra.
    + pose proof (foldl_Rmax_ge_init (Rmax x z) l). pose proof (Rmax_r x z). lra.
    + apply IH. by apply list_elem_of_further.
Qed.

Lemma py_max_Ok (l : list R) (m : R) :
  py_max l = Ok m → m ∈ l ∧ ∀ y, y ∈ l → y <= m.
Proof.
  destruct l as [|x l]; [done|]. intros [= <-]. split.
  - apply foldl_Rmax_elem.
  - apply foldl_Rmax_upper.
Qed.

Lemma py_max_total (l : list R) : l ≠ [] → is_Ok (py_max l).
Proof. destruct l; [done|]. intros _. by eexists. Qed.

Lemma foldlM_total {A B} (f : B → A → result B) (b : B) (l : list A) :
  (∀ b' a, a ∈ l → is_Ok (f b' a)) → is_Ok (foldlM f b l).
Proof.
  revert b. induction l as [|a l IH]; intros b Hall; [by eexists|].
  rewrite foldlM_cons. apply bind_is_Ok.
  destruct (Hall b a) as [b' Hb']; [apply list_elem_of_here|].
  exists b'. split; [done|]. apply IH.
  intros b'' a' Ha'. by apply Hall, list_elem_of_further.
Qed.

(** ** The largest [ln(1 - a)] is attained at the smallest [a] *)

Lemma ln_alphas_Ok (alphas : list R) (lns : list R) :
  mapR (λ a, py_log (1 - a)) alphas = Ok lns →
  (∀ a, a ∈ alphas → a < 1) ∧ lns = (λ a, ln (1 - a)) <$> alphas.
Proof.
  revert lns. induction alphas as [|a alphas IH]; intros lns.
  - intros [= <-]. split; [by intros a []%elem_of_nil|done].
  - rewrite mapR_cons.
    intros (v & [Ha ->]%py_log_Ok & (lns' & Hl & [= <-])%bind_Ok)%bind_Ok.
    destruct (IH lns' Hl) as [Hlt ->]. split; [|done].
    intros a' [->|Ha']%elem_of_cons; [lra|by apply Hlt].
Qed.

Lemma ln_alphas_total (alphas : list R) :
  (∀ a, a ∈ alphas → a < 1) →
  mapR (λ a, py_log (1 - a)) alphas = Ok ((λ a, ln (1 - a)) <$> alphas).
Proof.
  induction alphas as [|a alphas IH]; intros Hlt; [done|].
  rewrite mapR_cons, fmap_cons.
  assert (Ha : py_log (1 - a) = Ok (ln (1 - a))).
  { apply py_log_Ok. split; [|done].
    specialize (Hlt a (list_elem_of_here _ _)). lra. }
  rewrite Ha. cbn. rewrite IH; [done|].
  intros a' Ha'. by apply Hlt, list_elem_of_further.
Qed.

Lemma ln_le_inv (x y : R) : 0 < x → 0 < y → ln x <= ln y → x <= y.
Proof.
  intros Hx Hy Hln. destruct (Rle_lt_dec x y) as [?|Hlt]; [done|].
  pose proof (ln_increasing y x Hy Hlt). lra.
Qed.

Lemma max_ln_alpha_is_min_alpha (alphas : list R) (max_ln_alpha : R) :
  (∀ a, a ∈ alphas → a < 1) →
  py_max ((λ a, ln (1 - a)) <$> alphas) = Ok max_ln_alpha →
  ∃ a_min, a_min ∈ alphas ∧ (∀ a, a ∈ alphas → a_min <= a) ∧
           max_ln_alpha = ln (1 - a_min).
Proof.
  intros Hlt [Hin Hup]%py_max_Ok.
  apply list_elem_of_fmap in Hin as (a_min & -> & Hmin).
  exists a_min. split; [done|]. split; [|done].
  intros a Ha.
  assert (Hle : ln (1 - a) <= ln (1 - a_min)).
  { apply Hup, list_elem_of_fmap. by exists a. }
  pose proof (Hlt a Ha). pose proof (Hlt a_min Hmin).
  apply ln_le_inv in Hle; lra.
Qed.

(** ** [check_instance_feasibility]: what it returns, and when *)

Lemma check_instance_feasibility_inv (inst : Instance) (alphas : list R)
    (eps : Epsilon) (ot_room ot_doc : R) (rep : FeasibilityReport) :
  check_instance_feasibility inst alphas eps ot_room ot_doc = Ok rep →
  ∃ max_alpha ln_eps lns max_ln,
    py_max alphas = Ok max_alpha ∧
    py_log (1 - check_epsilon_val eps) = Ok ln_eps ∧
    mapR (λ a, py_log (1 - a)) alphas = Ok lns ∧
    py_max lns = Ok max_ln ∧
    report_max_alpha rep = max_alpha ∧
    report_epsilon rep = check_epsilon_val eps ∧
    reliability_checks_ rep
    = reliability_checks (check_epsilon_val eps) ln_eps max_ln max_alpha
        (length (surgeries inst)) ∧
    feasible_distributions rep
    = filter (λ r, rc_feasible r = true) (reliability_checks_ rep) ∧
    reliability_feasible rep
    = bool_decide (0 < length (feasible_distributions rep))%nat.
Proof.
  unfold check_instance_feasibility. intros Hrep.
  apply bind_Ok in Hrep as (max_alpha & Hmax & Hrep).
  apply bind_Ok in Hrep as (mbd & Hmbd & Hrep).
  apply bind_Ok in Hrep as (totals & Htot & Hrep).
  apply bind_Ok in Hrep as (max_cap & Hcap & Hrep).
  apply bind_Ok in Hrep as (ln_eps & Hln & Hrep).
  apply bind_Ok in Hrep as (lns & Hlns & Hrep).
  apply bind_Ok in Hrep as (max_ln & Hmaxln & Hrep).
  apply bind_Ok in Hrep as (ur & Hur & Hrep).
  apply bind_Ok in Hrep as (ud & Hud & [= <-]).
  exists max_alpha, ln_eps, lns, max_ln. done.
Qed.

Lemma precheck_params_total (surgery : Surgery) (room : Room) (doctor : Doctor) :
  mapping_complete surgery → is_Ok (precheck_params surgery room doctor).
Proof.
  intros Hmap. unfold precheck_params.
  destruct (s_mu_sigma surgery) as [ms|] eqn:Hms; cbn; [|by eexists].
  destruct (ms !! combo_key (r_id room) (k_id doctor)) as [entry|] eqn:He;
    [|by eexists].
  apply read_entry_is_Ok. exact (Hmap ms _ entry Hms He).
Qed.

Lemma min_dur_step_total (surgery : Surgery) (max_alpha : R) (min_dur : ext)
    (rd : Room * Doctor) :
  mapping_complete surgery →
  0 < max_alpha → max_alpha <= 1 →
  is_Ok (min_dur_step surgery max_alpha min_dur rd).
Proof.
  intros Hmap H0 H1. unfold min_dur_step.
  destruct (precheck_params_total surgery rd.1 rd.2 Hmap) as [[mu sigma] ->].
  cbn [mbind result_bind].
  unfold py_div. rewrite bool_decide_eq_false_2 by lra. cbn.
  unfold py_sqrt. rewrite bool_decide_eq_false_2; [by eexists|].
  apply Rle_not_lt. apply Rmult_le_pos; [lra|].
  apply Rlt_le, Rinv_0_lt_compat. lra.
Qed.

Lemma min_buffered_durations_total (inst : Instance) (max_alpha : R) :
  (∀ s, s ∈ surgeries inst → mapping_complete s) →
  0 < max_alpha → max_alpha <= 1 →
  is_Ok (min_buffered_durations inst max_alpha).
Proof.
  intros Hmap H0 H1. apply mapR_total. intros surgery Hs. apply bind_is_Ok.
  destruct (foldlM_total (min_dur_step surgery max_alpha) PInf
              (room ← rooms inst; doctor ← doctors inst; [(room, doctor)]))
    as [md Hmd].
  { intros. by apply min_dur_step_total; [apply Hmap|..]. }
  exists md. split; [done|]. by eexists.
Qed.

Lemma doctor_capacity_totals_total (inst : Instance) (ot_doc : R) :
  (∀ k v, k ∈ doctors inst → k_daily_capacity k ≠ Some (CapScalar v)) →
  is_Ok (doctor_capacity_totals inst ot_doc).
Proof.
  intros Hmap. apply foldlM_total. intros acc [k d] Hkd. cbn.
  apply list_elem_of_bind in Hkd as (k' & Hkd & Hk).
  apply list_elem_of_bind in Hkd as (d' & [= -> ->]%list_elem_of_singleton & Hd).
  apply bind_is_Ok. unfold daily_cap_total.
  destruct (k_daily_capacity k') as [[m|v]|] eqn:Hc.
  - eexists. split; [done|]. by eexists.
  - by destruct (Hmap k' v Hk).
  - eexists. split; [done|]. by eexists.
Qed.

Lemma utilization_total (total : ext) (capacity : R) :
  capacity ≠ 0 → is_Ok (utilization total capacity).
Proof.
  intros Hc. unfold utilization. rewrite bool_decide_eq_false_2 by done.
  by eexists.
Qed.

Lemma check_instance_feasibility_total (inst : Instance) (alphas : list R)
    (eps : Epsilon) (ot_room ot_doc : R) :
  alphas ≠ [] →
  (∀ a, a ∈ alphas → 0 < a < 1) →
  check_epsilon_val eps < 1 →
  check_inputs_well_formed inst ot_doc →
  is_Ok (check_instance_feasibility inst alphas eps ot_room ot_doc).
Proof.
  intros Hne Halpha Heps (Hentries & Hdocs & Hdays & Hmap & Hroom & Hdoc).
  unfold check_instance_feasibility.
  destruct (py_max_total alphas Hne) as [max_alpha Hmax].
  apply bind_is_Ok. exists max_alpha. split; [done|].
  assert (Hin : max_alpha ∈ alphas) by (by apply py_max_Ok in Hmax as [? _]).
  destruct (Halpha max_alpha Hin) as [Hm0 Hm1].
  destruct (min_buffered_durations_total inst max_alpha Hentries)
    as [mbd Hmbd]; [lra..|].
  apply bind_is_Ok. exists mbd. split; [done|].
  destruct (doctor_capacity_totals_total inst ot_doc Hmap) as [totals Htot].
  apply bind_is_Ok. exists totals. split; [done|].
  destruct (py_max_total (doctor ← doctors inst; day ← days inst;
                          [doctor_day_capacity ot_doc doctor day]))
    as [max_cap Hcap].
  { destruct (doctors inst) as [|k ks]; [done|].
    destruct (days inst) as [|d ds]; done. }
  apply bind_is_Ok. exists max_cap. split; [done|].
  apply bind_is_Ok. exists (ln (1 - check_epsilon_val eps)).
  split; [apply py_log_Ok; split; [lra|done]|].
  apply bind_is_Ok. exists ((λ a, ln (1 - a)) <$> alphas). split.
  { apply ln_alphas_total. intros a Ha. by apply Halpha. }
  destruct (py_max_total ((λ a, ln (1 - a)) <$> alphas)) as [max_ln Hmaxln].
  { by destruct alphas. }
  apply bind_is_Ok. exists max_ln. split; [done|].
  destruct (utilization_total (foldl ext_add (Fin 0) mbd.*2)
              (py_sum (d_H <$> days inst) * INR (length (rooms inst))) Hroom)
    as [ur Hur].
  apply bind_is_Ok. exists ur. split; [done|].
  destruct (utilization_total (foldl ext_add (Fin 0) mbd.*2) totals.1
              (Hdoc totals Htot)) as [ud Hud].
  apply bind_is_Ok. exists ud. split; [done|]. by eexists.
Qed.

(** ** The reliability part of the feasibility report *)

Lemma reliability_checks_counts (e le ml ma : R) (N : nat) :
  rc_surgeries_per_day <$> reliability_checks e le ml ma N = seq 1 N.
Proof.
  unfold reliability_checks. rewrite <- list_fmap_compose.
  rewrite <- (list_fmap_id (seq 1 N)) at 2. by apply list_fmap_ext.
Qed.

Lemma elem_of_reliability_checks (e le ml ma : R) (N : nat) (c : ReliabilityCheck) :
  c ∈ reliability_checks e le ml ma N →
  (1 <= rc_surgeries_per_day c <= N)%nat ∧
  rc_required_ln c = le ∧
  rc_achievable_ln c = INR (rc_surgeries_per_day c) * ml ∧
  rc_feasible c = bool_decide (INR (rc_surgeries_per_day c) * ml >= le) ∧
  rc_max_alpha_available c = ma.
Proof.
  unfold reliability_checks. intros (n & -> & Hn)%list_elem_of_fmap.
  apply elem_of_seq in Hn. cbn. split; [lia|done].
Qed.

Lemma reliability_checks_has (e le ml ma : R) (N n : nat) :
  (1 <= n <= N)%nat →
  ∃ c, c ∈ reliability_checks e le ml ma N ∧ rc_surgeries_per_day c = n.
Proof.
  intros Hn. eexists. split.
  - unfold reliability_checks. apply list_elem_of_fmap. exists n.
    split; [done|]. apply elem_of_seq. lia.
  - done.
Qed.

Lemma reliability_feasible_iff (checks : list ReliabilityCheck) :
  bool_decide (0 < length (filter (λ r, rc_feasible r = true) checks))%nat = true
  ↔ ∃ c, c ∈ checks ∧ rc_feasible c = true.
Proof.
  rewrite bool_decide_eq_true. split.
  - intros Hlen.
    destruct (filter (λ r, rc_feasible r = true) checks) as [|c cs] eqn:Hf;
      [cbn in Hlen; lia|].
    exists c.
    assert (Hin : c ∈ filter (λ r, rc_feasible r = true) checks)
      by (rewrite Hf; apply list_elem_of_here).
    apply list_elem_of_filter in Hin as [? ?]. done.
  - intros (c & Hc & Hfeas).
    assert (Hin : c ∈ filter (λ r, rc_feasible r = true) checks)
      by (by apply list_elem_of_filter).
    destruct (filter _ checks); [by apply elem_of_nil in Hin|cbn; lia].
Qed.

(** With a float epsilon, a returned report carries the checks computed from
    [ln(1 - epsilon)] and from [ln(1 - a_min)], [a_min] the smallest
    configured risk level. *)
Lemma float_report_reliability (inst : Instance) (alphas : list R) (e : R)
    (ot_room ot_doc : R) (rep : FeasibilityReport) :
  check_instance_feasibility inst alphas (EpsFloat e) ot_room ot_doc = Ok rep →
  ∃ a_min,
    a_min ∈ alphas ∧ (∀ a, a ∈ alphas → a_min <= a) ∧
    (∀ a, a ∈ alphas → a < 1) ∧ e < 1 ∧
    reliability_checks_ rep
    = reliability_checks e (ln (1 - e)) (ln (1 - a_min)) (report_max_alpha rep)
        (length (surgeries inst)) ∧
    reliability_feasible rep
    = bool_decide
        (0 < length (filter (λ r, rc_feasible r = true) (reliability_checks_ rep)))%nat.
Proof.
  intros (ma & le & lns & ml & Hma & Hle & Hlns & Hml & Hrma & _ & Hchecks & Hfd & Hrf)
    %check_instance_feasibility_inv.
  cbn [check_epsilon_val] in *.
  apply py_log_Ok in Hle as [He ->].
  apply ln_alphas_Ok in Hlns as [Hlt ->].
  destruct (max_ln_alpha_is_min_alpha alphas ml Hlt Hml) as (a_min & Hin & Hmin & ->).
  exists a_min. split_and!; try done.
  - lra.
  - by rewrite Hchecks, Hrma.
  - by rewrite Hrf, Hfd.
Qed.

Lemma ln_neg (x : R) : 0 < x → x < 1 → ln x < 0.
Proof. intros H0 H1. rewrite <- ln_1. by apply ln_increasing. Qed.

Lemma ln_ge_iff (x y : R) : 0 < x → 0 < y → ln x >= ln y ↔ y <= x.
Proof.
  intros Hx Hy. split.
  - intros Hge. apply ln_le_inv; [done..|lra].
  - intros Hle. destruct (Req_dec y x) as [->|Hne]; [lra|].
    apply Rle_ge, Rlt_le, ln_increasing; lra.
Qed.

Lemma small_check_inputs_well_formed (ot_doc : R) :
  check_inputs_well_formed small_instance ot_doc.
Proof.
  split_and!; try done.
  - intros s [->|[->|[]%elem_of_nil]%elem_of_cons]%elem_of_cons;
      by intros ms key entry [=].
  - intros k v ->%list_elem_of_singleton. done.
  - cbn. unfold py_sum. cbn. lra.
  - intros totals. unfold doctor_capacity_totals. cbn.
    rewrite lookup_singleton_eq. cbn. intros [= <-]. cbn. lra.
Qed.

(** C1 fails as stated: with risk levels 0.1 and 0.5 and epsilon 0.2, the
    report names 0.5 as the most aggressive level and declares one surgery
    per day feasible, although [1 * ln(1 - 0.5) < ln(1 - 0.2)]. *)
Lemma C1_counterexample :
  ∃ rep c,
    check_instance_feasibility small_instance [0.1; 0.5] (EpsFloat 0.2) 120 60
    = Ok rep ∧
    report_max_alpha rep = 0.5 ∧
    c ∈ reliability_checks_ rep ∧
    rc_surgeries_per_day c = 1%nat ∧
    rc_feasible c = true ∧
    ¬ (INR 1 * ln (1 - 0.5) >= ln (1 - 0.2)).
Proof.
  destruct (check_instance_feasibility_total small_instance [0.1; 0.5]
              (EpsFloat 0.2) 120 60) as [rep Hrep].
  { done. }
  { intros a [->|[->|[]%elem_of_nil]%elem_of_cons]%elem_of_cons; lra. }
  { cbn. lra. }
  { apply small_check_inputs_well_formed. }
  destruct (float_report_reliability _ _ _ _ _ _ Hrep)
    as (a_min & Hin & Hmin & _ & _ & Hchecks & _).
  assert (Hamin : a_min = 0.1).
  { pose proof (Hmin 0.1 (list_elem_of_here _ _)).
    apply elem_of_cons in Hin as [->|[->|[]%elem_of_nil]%elem_of_cons]; lra. }
  subst a_min.
  destruct (reliability_checks_has 0.2 (ln (1 - 0.2)) (ln (1 - 0.1))
              (report_max_alpha rep) 2 1) as (c & Hc & Hn); [lia|].
  exists rep, c. split; [done|]. split_and!.
  - apply check_instance_feasibility_inv in Hrep
      as (ma & _ & _ & _ & Hma & _ & _ & _ & Hrma & _).
    rewrite Hrma. cbn in Hma. injection Hma as <-.
    unfold Rmax. destruct (Rle_dec 0.1 0.5); lra.
  - by rewrite Hchecks.
  - done.
  - apply elem_of_reliability_checks in Hc as (_ & _ & _ & -> & _).
    rewrite Hn. apply bool_decide_eq_true_2. cbn [INR].
    assert (ln (1 - 0.2) < ln (1 - 0.1)) by (apply ln_increasing; lra). lra.
  - cbn [INR].
    assert (ln (1 - 0.5) < ln (1 - 0.2)) by (apply ln_increasing; lra). lra.
Qed.

(** C1, amended: with a float epsilon below 1, risk levels in (0, 1) and an
    instance on which the check returns, the report has one check per count
    [n = 1 .. |surgeries|]; count [n] is declared feasible iff
    [n * ln(1 - a_min) >= ln(1 - epsilon)], where [a_min] is the smallest
    configured risk level (its [ln(1 - a)] is the largest); and reliability
    is reported feasible iff at least one count is declared feasible. *)
Theorem C1_reliability_uses_smallest_alpha (inst : Instance) (alphas : list R)
    (e ot_room ot_doc : R) :
  alphas ≠ [] →
  (∀ a, a ∈ alphas → 0 < a < 1) →
  e < 1 →
  check_inputs_well_formed inst ot_doc →
  ∃ rep a_min,
    check_instance_feasibility inst alphas (EpsFloat e) ot_room ot_doc = Ok rep ∧
    a_min ∈ alphas ∧ (∀ a, a ∈ alphas → a_min <= a) ∧
    rc_surgeries_per_day <$> reliability_checks_ rep
    = seq 1 (length (surgeries inst)) ∧
    (∀ c, c ∈ reliability_checks_ rep →
          (rc_feasible c = true ↔
           INR (rc_surgeries_per_day c) * ln (1 - a_min) >= ln (1 - e))) ∧
    (reliability_feasible rep = true ↔
     ∃ c, c ∈ reliability_checks_ rep ∧ rc_feasible c = true).
Proof.
  intros Hne Halpha He Hwf.
  destruct (check_instance_feasibility_total inst alphas (EpsFloat e)
              ot_room ot_doc Hne Halpha He Hwf) as [rep Hrep].
  destruct (float_report_reliability _ _ _ _ _ _ Hrep)
    as (a_min & Hin & Hmin & _ & _ & Hchecks & Hfeas).
  exists rep, a_min. split_and!; try done.
  - rewrite Hchecks. apply reliability_checks_counts.
  - intros c Hc. rewrite Hchecks in Hc.
    apply elem_of_reliability_checks in Hc as (_ & _ & _ & -> & _).
    apply bool_decide_eq_true.
  - rewrite Hfeas. apply reliability_feasible_iff.
Qed.

Lemma C1_witness :
  ∃ rep a_min,
    check_instance_feasibility small_instance [0.1] (EpsFloat 0.5) 120 60 = Ok rep ∧
    a_min ∈ [0.1] ∧ (∀ a, a ∈ [0.1] → a_min <= a) ∧
    rc_surgeries_per_day <$> reliability_checks_ rep
    = seq 1 (length (surgeries small_instance)) ∧
    (∀ c, c ∈ reliability_checks_ rep →
          (rc_feasible c = true ↔
           INR (rc_surgeries_per_day c) * ln (1 - a_min) >= ln (1 - 0.5))) ∧
    (reliability_feasible rep = true ↔
     ∃ c, c ∈ reliability_checks_ rep ∧ rc_feasible c = true).
Proof.
  apply (C1_reliability_uses_smallest_alpha small_instance [0.1] 0.5 120 60).
  - discriminate.
  - apply one_tenth_only. lra.
  - lra.
  - apply small_check_inputs_well_formed.
Defined.

(** C10: with at least one surgery, risk levels in (0, 1) and a float
    epsilon in (0, 1), on an instance on which the check returns: the checks
    range over the counts [1 .. |surgeries|]; the check of the count [n]
    has the required value [ln(1 - epsilon)] and the achievable value
    [n * max_a ln(1 - a)], where [max_a ln(1 - a) = ln(1 - a_min)] for the
    smallest configured risk level [a_min], and is feasible exactly when
    the achievable value is at least the required one; the achievable value
    does not increase with [n]; a count below a feasible count is feasible;
    and the returned [reliability_feasible] is true iff
    [ln(1 - a_min) >= ln(1 - epsilon)], iff [a_min <= epsilon] (over the
    reals). *)
Theorem C10_feasible_counts_form_a_prefix (inst : Instance) (alphas : list R)
    (e ot_room ot_doc : R) :
  surgeries inst ≠ [] →
  alphas ≠ [] →
  (∀ a, a ∈ alphas → 0 < a < 1) →
  0 < e < 1 →
  check_inputs_well_formed inst ot_doc →
  ∃ rep a_min,
    check_instance_feasibility inst alphas (EpsFloat e) ot_room ot_doc = Ok rep ∧
    a_min ∈ alphas ∧ (∀ a, a ∈ alphas → a_min <= a) ∧
    (∀ a, a ∈ alphas → ln (1 - a) <= ln (1 - a_min)) ∧
    rc_surgeries_per_day <$> reliability_checks_ rep
    = seq 1 (length (surgeries inst)) ∧
    (∀ c, c ∈ reliability_checks_ rep →
       rc_required_ln c = ln (1 - e) ∧
       rc_achievable_ln c = INR (rc_surgeries_per_day c) * ln (1 - a_min) ∧
       (rc_feasible c = true ↔
        INR (rc_surgeries_per_day c) * ln (1 - a_min) >= ln (1 - e))) ∧
    (∀ c1 c2, c1 ∈ reliability_checks_ rep → c2 ∈ reliability_checks_ rep →
       (rc_surgeries_per_day c1 <= rc_surgeries_per_day c2)%nat →
       rc_achievable_ln c2 <= rc_achievable_ln c1 ∧
       (rc_feasible c2 = true → rc_feasible c1 = true)) ∧
    (reliability_feasible rep = true ↔ ln (1 - a_min) >= ln (1 - e)) ∧
    (reliability_feasible rep = true ↔ a_min <= e).
Proof.
  intros Hsurg Hne Halpha [He0 He1] Hwf.
  destruct (check_instance_feasibility_total inst alphas (EpsFloat e)
              ot_room ot_doc Hne Halpha He1 Hwf) as [rep Hrep].
  destruct (float_report_reliability _ _ _ _ _ _ Hrep)
    as (a_min & Hin & Hmin & _ & _ & Hchecks & Hfeas).
  destruct (Halpha a_min Hin) as [Ha0 Ha1].
  assert (Hml : ln (1 - a_min) < 0) by (apply ln_neg; lra).
  assert (Hmono : ∀ n1 n2 : nat, (n1 <= n2)%nat →
            INR n2 * ln (1 - a_min) <= INR n1 * ln (1 - a_min)).
  { intros n1 n2 Hle. apply le_INR in Hle. nra. }
  assert (Hiff : reliability_feasible rep = true ↔ ln (1 - a_min) >= ln (1 - e)).
  { rewrite Hfeas, reliability_feasible_iff, Hchecks. split.
    - intros (c & Hc & Hf).
      apply elem_of_reliability_checks in Hc as (Hn & _ & _ & Hfc & _).
      rewrite Hfc in Hf. apply bool_decide_eq_true_1 in Hf.
      pose proof (Hmono 1%nat (rc_surgeries_per_day c) (proj1 Hn)) as H1.
      cbn [INR] in H1. lra.
    - intros Hge.
      destruct (reliability_checks_has e (ln (1 - e)) (ln (1 - a_min))
                  (report_max_alpha rep) (length (surgeries inst)) 1)
        as (c & Hc & Hn).
      { destruct (surgeries inst); [done|cbn; lia]. }
      exists c. split; [done|].
      apply elem_of_reliability_checks in Hc as (_ & _ & _ & -> & _).
      rewrite Hn. apply bool_decide_eq_true_2. cbn [INR]. lra. }
  exists rep, a_min. split_and!; try done.
  - intros a Ha. destruct (Halpha a Ha) as [_ Ha1'].
    pose proof (Hmin a Ha) as Hle.
    destruct (Req_dec a a_min) as [->|Hneq]; [lra|].
    apply Rlt_le, ln_increasing; lra.
  - rewrite Hchecks. apply reliability_checks_counts.
  - intros c Hc. rewrite Hchecks in Hc.
    apply elem_of_reliability_checks in Hc as (_ & -> & -> & -> & _).
    split_and!; [done|done|apply bool_decide_eq_true].
  - intros c1 c2 Hc1 Hc2 Hle. rewrite Hchecks in Hc1, Hc2.
    apply elem_of_reliability_checks in Hc1 as (_ & _ & -> & -> & _).
    apply elem_of_reliability_checks in Hc2 as (_ & _ & -> & -> & _).
    pose proof (Hmono _ _ Hle). split; [done|].
    rewrite !bool_decide_eq_true. lra.
  - rewrite Hiff, ln_ge_iff by lra. split; lra.
Qed.

Lemma C10_witness :
  ∃ rep a_min,
    check_instance_feasibility small_instance [0.1; 0.5] (EpsFloat 0.5) 120 60
    = Ok rep ∧
    a_min = 0.1 ∧
    (∀ a, a ∈ [0.1; 0.5] → ln (1 - a) <= ln (1 - a_min)) ∧
    rc_surgeries_per_day <$> reliability_checks_ rep
    = seq 1 (length (surgeries small_instance)) ∧
    (∀ c, c ∈ reliability_checks_ rep →
       rc_required_ln c = ln (1 - 0.5) ∧
       rc_achievable_ln c = INR (rc_surgeries_per_day c) * ln (1 - a_min) ∧
       (rc_feasible c = true ↔
        INR (rc_surgeries_per_day c) * ln (1 - a_min) >= ln (1 - 0.5))) ∧
    (∀ c1 c2, c1 ∈ reliability_checks_ rep → c2 ∈ reliability_checks_ rep →
       (rc_surgeries_per_day c1 <= rc_surgeries_per_day c2)%nat →
       rc_achievable_ln c2 <= rc_achievable_ln c1 ∧
       (rc_feasible c2 = true → rc_feasible c1 = true)) ∧
    (reliability_feasible rep = true ↔ ln (1 - a_min) >= ln (1 - 0.5)) ∧
    (reliability_feasible rep = true ↔ a_min <= 0.5).
Proof.
  destruct (C10_feasible_counts_form_a_prefix small_instance [0.1; 0.5] 0.5 120 60)
    as (rep & a_min & Hrep & Hin & Hmin & Hrest).
  - discriminate.
  - discriminate.
  - intros a [->|[->|[]%elem_of_nil]%elem_of_cons]%elem_of_cons; lra.
  - lra.
  - apply small_check_inputs_well_formed.
  - exists rep, a_min. split; [exact Hrep|]. split; [|exact Hrest].
    pose proof (Hmin 0.1 (list_elem_of_here _ _)).
    apply elem_of_cons in Hin as [->|[->|[]%elem_of_nil]%elem_of_cons]; lra.
Defined.

(** ** Where epsilon comes from *)

Lemma build_epsilon_dict_lookup (eps : Epsilon) (ds : list Day) (d : Day) :
  d ∈ ds →
  build_epsilon_dict eps ds !! d_id d
  = Some (default 0.25 (supplied_epsilon eps (d_id d))).
Proof.
  intros Hd. unfold build_epsilon_dict.
  destruct eps as [x|z|m];
    match goal with
    | |- dict_map d_id ?f ds !! _ = _ =>
        destruct (dict_map_is_Some d_id f ds d Hd) as [v Hv];
        rewrite Hv;
        apply dict_map_inv in Hv as (a & _ & Hid & ->)
    end; cbn; by rewrite ?Hid.
Qed.

Lemma verify_day_inv (ln1ma : list (R * R)) (eps : Epsilon) (day_id : string)
    (ss : list ScheduleEntry) (dr : DayReliability) :
  verify_day ln1ma eps (day_id, ss) = Ok dr →
  dr_epsilon dr = verify_epsilon_val eps day_id ∧
  dr_rhs dr = ln (1 - verify_epsilon_val eps day_id).
Proof.
  unfold verify_day.
  intros (lhs & _ & (rhs & [_ ->]%py_log_Ok & [= <-])%bind_Ok)%bind_Ok.
  done.
Qed.

Lemma monday_default_epsilon :
  build_epsilon_dict (EpsDict ∅) [monday] !! "Mon" = Some 0.25.
Proof.
  pose proof (build_epsilon_dict_lookup (EpsDict ∅) [monday] monday
                (list_elem_of_here _ _)) as Hl.
  change (d_id monday) with "Mon" in Hl. rewrite Hl.
  unfold supplied_epsilon. by rewrite lookup_empty.
Qed.

(** C6 fails as stated: with a per-day mapping that has no entry for
    Monday, model construction and verification use 0.25 for Monday, and
    the feasibility check uses 0.25 although the mapping gives Monday 0.5;
    no caller supplied 0.25. *)
Lemma C6_counterexample :
  (∃ m, build_model (scheduler_of small_instance [0.1] (EpsDict ∅)) = Ok m ∧
        m_epsilon_dict m !! "Mon" = Some 0.25) ∧
  (∃ rc dr, verify_reliability small_schedule [0.1] (EpsDict ∅) = Ok rc ∧
            rc !! "Mon" = Some dr ∧ dr_epsilon dr = 0.25) ∧
  (∃ rep, check_instance_feasibility small_instance [0.1]
            (EpsDict {["Mon" := 0.5]}) 120 60 = Ok rep ∧
          report_epsilon rep = 0.25).
Proof.
  split_and!.
  - destruct (small_build_model
                [surgery_flat "S1" 200 0; surgery_flat "S2" 200 0] [doctor1]
                [0.1] (EpsDict ∅) (surgery_flat "S1" 200 0))
      as [m Hm].
    + by apply two_ids_NoDup.
    + apply NoDup_singleton.
    + apply list_elem_of_here.
    + intros s. apply two_flat_complete; apply surgery_flat_complete.
    + apply list_elem_of_here.
    + reflexivity.
    + apply one_tenth_only. lra.
    + apply one_tenth_only. lra.
    + by eexists.
    + intros d ->%list_elem_of_singleton.
      rewrite (lookup_total_correct _ _ _ monday_default_epsilon). lra.
    + exists m. split; [done|].
      apply build_model_inv in Hm as (_ & -> & _).
      apply monday_default_epsilon.
  - destruct (verify_reliability_day_report small_schedule [0.1] (EpsDict ∅) "Mon")
      as (rc & Hrc & Hlook).
    + apply one_tenth_only. lra.
    + apply small_schedule_alphas.
    + intros s _. cbn. rewrite lookup_empty. cbn. lra.
    + exists (entry_at "S1" "Mon" 0.1). split; [apply list_elem_of_here|done].
    + exists rc. eexists. split; [done|]. split; [exact Hlook|].
      cbn. by rewrite lookup_empty.
  - destruct (check_instance_feasibility_total small_instance [0.1]
                (EpsDict {["Mon" := 0.5]}) 120 60) as [rep Hrep].
    + discriminate.
    + apply one_tenth_only. lra.
    + cbn. lra.
    + apply small_check_inputs_well_formed.
    + exists rep. split; [done|].
      by apply check_instance_feasibility_inv in Hrep
        as (_ & _ & _ & _ & _ & _ & _ & _ & _ & -> & _).
Qed.

(** C6, amended: epsilon is a caller-supplied input, a single value or a
    per-day mapping.  For every day of the instance, model construction and
    post-solve verification use the supplied value (the single value, or the
    mapping's entry for the day) and fall back on the hard-wired 0.25 when
    the mapping has no entry for the day; the feasibility check uses the
    supplied value when it is a float and the hard-wired 0.25 otherwise.
    The logarithms the three of them compare against are those of one minus
    these values. *)
Theorem C6_epsilon_resolution (self : SurgeryScheduler)
    (schedule : list ScheduleEntry) (m : BuiltModel) (rep : FeasibilityReport)
    (rc : gmap string DayReliability) (d : Day) (dr : DayReliability) :
  build_model self = Ok m →
  check_instance_feasibility (instance self) (alpha_choices self) (epsilon self)
    (max_ot_room self) (max_ot_doc self) = Ok rep →
  verify_reliability schedule (alpha_choices self) (epsilon self) = Ok rc →
  d ∈ days (instance self) →
  rc !! d_id d = Some dr →
  m_epsilon_dict m !! d_id d
  = Some (default 0.25 (supplied_epsilon (epsilon self) (d_id d))) ∧
  m_log_one_minus_eps m !! d_id d
  = Some (ln (1 - default 0.25 (supplied_epsilon (epsilon self) (d_id d)))) ∧
  dr_epsilon dr = default 0.25 (supplied_epsilon (epsilon self) (d_id d)) ∧
  dr_rhs dr = ln (1 - default 0.25 (supplied_epsilon (epsilon self) (d_id d))) ∧
  report_epsilon rep
  = match epsilon self with EpsFloat x => x | _ => 0.25 end ∧
  (∀ c, c ∈ reliability_checks_ rep →
        rc_required_ln c = ln (1 - report_epsilon rep)).
Proof.
  intros Hm Hrep Hrc Hd Hdr.
  apply build_model_inv in Hm as (_ & Heps & _ & _ & _ & _ & _ & Hlog).
  pose proof (build_epsilon_dict_lookup (epsilon self) _ d Hd) as Hlook.
  rewrite <- Heps in Hlook.
  assert (HD : d_id d ∈ sched_D self) by (by apply list_elem_of_fmap_2).
  split; [done|]. split.
  { destruct (build_dict_is_Some _ _ _ _ _ Hlog HD) as [v Hv].
    cbn beta in Hv. rewrite Hv.
    apply (build_dict_inv _ _ _ _ _ _ Hlog) in Hv as (a & _ & -> & Ha).
    apply py_log_Ok in Ha as [_ ->].
    by rewrite (lookup_total_correct _ _ _ Hlook). }
  unfold verify_reliability in Hrc.
  apply bind_Ok in Hrc as (ln1ma & _ & Hrc).
  apply (build_dict_inv _ _ _ _ _ _ Hrc) in Hdr as ([day_id ss] & _ & Hid & Hday).
  cbn in Hid. subst day_id.
  apply verify_day_inv in Hday as [Hde Hrhs].
  rewrite verify_epsilon_val_supplied in Hde, Hrhs.
  split; [done|]. split; [done|].
  apply check_instance_feasibility_inv in Hrep
    as (ma & le & lns & ml & _ & Hle & _ & _ & _ & Hre & Hchecks & _).
  split; [by rewrite Hre|].
  intros c Hc. rewrite Hchecks in Hc.
  apply elem_of_reliability_checks in Hc as (_ & -> & _).
  apply py_log_Ok in Hle as [_ ->]. by rewrite Hre.
Qed.

Lemma C6_witness :
  ∃ m rep rc dr,
    build_model small_scheduler = Ok m ∧
    check_instance_feasibility small_instance [0.1] (EpsFloat 0.5) 120 60 = Ok rep ∧
    verify_reliability small_schedule [0.1] (EpsFloat 0.5) = Ok rc ∧
    rc !! "Mon" = Some dr ∧
    m_epsilon_dict m !! "Mon" = Some 0.5 ∧
    m_log_one_minus_eps m !! "Mon" = Some (ln (1 - 0.5)) ∧
    dr_epsilon dr = 0.5 ∧
    dr_rhs dr = ln (1 - 0.5) ∧
    report_epsilon rep = 0.5 ∧
    (∀ c, c ∈ reliability_checks_ rep →
          rc_required_ln c = ln (1 - report_epsilon rep)).
Proof.
  destruct small_scheduler_build_model as [m Hm].
  destruct (check_instance_feasibility_total small_instance [0.1]
              (EpsFloat 0.5) 120 60) as [rep Hrep].
  { discriminate. }
  { apply one_tenth_only. lra. }
  { cbn [check_epsilon_val]. lra. }
  { apply small_check_inputs_well_formed. }
  destruct (verify_reliability_day_report small_schedule [0.1] (EpsFloat 0.5) "Mon")
    as (rc & Hrc & Hlook).
  { apply one_tenth_only. lra. }
  { apply small_schedule_alphas. }
  { apply small_schedule_epsilon. }
  { exists (entry_at "S1" "Mon" 0.1). split; [apply list_elem_of_here|done]. }
  exists m, rep, rc. eexists.
  split; [exact Hm|]. split; [exact Hrep|]. split; [exact Hrc|].
  split; [exact Hlook|].
  exact (C6_epsilon_resolution small_scheduler small_schedule m rep rc monday _
           Hm Hrep Hrc (list_elem_of_here _ _) Hlook).
Defined.

(** * Further properties of the code *)

(** ** The order on durations *)

Lemma ext_le_ext_refl (e : ext) : ext_le_ext e e.
Proof. destruct e; cbn; [lra|done]. Qed.

Lemma ext_le_ext_trans (e1 e2 e3 : ext) :
  ext_le_ext e1 e2 → ext_le_ext e2 e3 → ext_le_ext e1 e3.
Proof. destruct e1, e2, e3; cbn; try done. lra. Qed.

Lemma ext_max_l (e1 e2 : ext) : ext_le_ext e1 (ext_max e1 e2).
Proof. destruct e1, e2; cbn; try done. apply Rmax_l. Qed.

Lemma ext_max_r (e1 e2 : ext) : ext_le_ext e2 (ext_max e1 e2).
Proof. destruct e1, e2; cbn; try done. apply Rmax_r. Qed.

Lemma ext_max_cases (e1 e2 : ext) : ext_max e1 e2 = e1 ∨ ext_max e1 e2 = e2.
Proof.
  destruct e1 as [a|], e2 as [b|]; cbn; auto.
  unfold Rmax. destruct (Rle_dec a b); auto.
Qed.

Lemma ext_min_ext_l (e1 e2 : ext) : ext_le_ext (ext_min_ext e1 e2) e1.
Proof. destruct e1, e2; cbn; try done; try apply Rmin_l; lra. Qed.

Lemma ext_min_ext_r (e1 e2 : ext) : ext_le_ext (ext_min_ext e1 e2) e2.
Proof. destruct e1, e2; cbn; try done; try apply Rmin_r; lra. Qed.

Lemma foldl_ext_max_init (e : ext) (l : list ext) : ext_le_ext e (foldl ext_max e l).
Proof.
  revert e. induction l as [|e' l IH]; intros e; cbn; [apply ext_le_ext_refl|].
  eapply ext_le_ext_trans; [apply (ext_max_l e e')|apply IH].
Qed.

Lemma foldl_ext_max_upper (e : ext) (l : list ext) (e' : ext) :
  e' ∈ e :: l → ext_le_ext e' (foldl ext_max e l).
Proof.
  revert e. induction l as [|e0 l IH]; intros e.
  - intros ->%list_elem_of_singleton. apply ext_le_ext_refl.
  - cbn. intros [->|[->|He']%elem_of_cons]%elem_of_cons.
    + eapply ext_le_ext_trans; [apply (ext_max_l e e0)|apply foldl_ext_max_init].
    + eapply ext_le_ext_trans; [apply (ext_max_r e e0)|apply foldl_ext_max_init].
    + apply IH. by apply list_elem_of_further.
Qed.

Lemma foldl_ext_max_elem (e : ext) (l : list ext) : foldl ext_max e l ∈ e :: l.
Proof.
  revert e. induction l as [|e0 l IH]; intros e; cbn; [apply list_elem_of_here|].
  specialize (IH (ext_max e e0)). apply elem_of_cons in IH as [Heq|IH].
  - rewrite Heq. destruct (ext_max_cases e e0) as [-> | ->].
    + apply list_elem_of_here.
    + apply list_elem_of_further, list_elem_of_here.
  - by do 2 apply list_elem_of_further.
Qed.

Lemma ext_list_max_Ok (l : list ext) (m : ext) :
  ext_list_max l = Ok m → m ∈ l ∧ ∀ e, e ∈ l → ext_le_ext e m.
Proof.
  destruct l as [|e l]; [done|]. intros [= <-]. split.
  - apply foldl_ext_max_elem.
  - apply foldl_ext_max_upper.
Qed.

Lemma foldl_ext_min_init (e : ext) (l : list ext) :
  ext_le_ext (foldl ext_min_ext e l) e.
Proof.
  revert e. induction l as [|e' l IH]; intros e; cbn; [apply ext_le_ext_refl|].
  eapply ext_le_ext_trans; [apply IH|apply ext_min_ext_l].
Qed.

Lemma foldl_ext_min_lower (e : ext) (l : list ext) (e' : ext) :
  e' ∈ e :: l → ext_le_ext (foldl ext_min_ext e l) e'.
Proof.
  revert e. induction l as [|e0 l IH]; intros e.
  - intros ->%list_elem_of_singleton. apply ext_le_ext_refl.
  - cbn. intros [->|[->|He']%elem_of_cons]%elem_of_cons.
    + eapply ext_le_ext_trans; [apply foldl_ext_min_init|apply ext_min_ext_l].
    + eapply ext_le_ext_trans; [apply foldl_ext_min_init|apply ext_min_ext_r].
    + apply IH. by apply list_elem_of_further.
Qed.

Lemma ext_list_min_default_lower (l : list ext) (e : ext) :
  e ∈ l → ext_le_ext (ext_list_min_default l) e.
Proof.
  destruct l as [|e0 l]; [by intros ?%elem_of_nil|]. apply foldl_ext_min_lower.
Qed.

(** ** [build_model]: the remaining fields *)

Lemma build_model_fields (self : SurgeryScheduler) (m : BuiltModel) :
  build_model self = Ok m →
  m_J m = sched_J self ∧ m_D m = sched_D self ∧ m_R m = sched_R self ∧
  m_K m = sched_K self ∧ m_T m = sched_T self ∧
  m_surgery_doctors m
  = build_surgery_doctors (sched_J self) (sched_valid self (m_durations m)) ∧
  build_max_dur (m_durations m) (sched_J self) (sched_R self) (sched_K self)
  = Ok (m_max_dur m) ∧
  m_M_room m
  = dict_map (λ d, d)
      (λ d, ext_add (Fin (d_H (sched_day_dict self !!! d) + max_ot_room self))
                    (m_max_dur m))
      (sched_D self).
Proof.
  unfold build_model. intros Hm.
  apply bind_Ok in Hm as (durations & Hd & Hm).
  apply bind_Ok in Hm as (lome & Hl & Hm).
  apply bind_Ok in Hm as (max_dur & Hmax & Hm).
  apply bind_Ok in Hm as (ln_alpha & Hln & [= <-]).
  done.
Qed.

Lemma id_in_index (A : Type) (key : A → string) (l : list A) (i : string) :
  i ∈ key <$> l → ∃ a, a ∈ l ∧ key a = i.
Proof. intros (a & -> & Ha)%list_elem_of_fmap. eauto. Qed.

(** ** The valid set, exactly *)

(** X1: a combination is valid exactly when it ranges over the index sets,
    the doctor's capacity on the day is strictly positive, and the buffered
    duration of its (room, doctor, risk level) exists, is finite and is at
    most this capacity plus the maximum doctor overtime. *)
Theorem X1_valid_exactly (self : SurgeryScheduler) (durations : Durations)
    (j d r k : string) (t : nat) :
  (j, d, r, k, t) ∈ sched_valid self durations ↔
  (j ∈ sched_J self ∧ d ∈ sched_D self ∧ r ∈ sched_R self ∧
   k ∈ sched_K self ∧ t ∈ sched_T self) ∧
  doctor_day_cap (sched_day_dict self) (sched_doc_dict self) k d > 0 ∧
  ∃ x, durations_get durations j r k t = Some (Fin x) ∧
       x <= doctor_day_cap (sched_day_dict self) (sched_doc_dict self) k d
            + max_ot_doc self.
Proof.
  split.
  - intros (Hj & Hd & Hr & Hk & Ht & Hcap & [e He] & Hnf)%sched_valid_elim.
    split; [done|]. split; [done|].
    rewrite elem_of_sched_fixed_vars in Hnf. destruct e as [x|].
    + exists x. split; [done|].
      destruct (Rle_dec x (doctor_day_cap (sched_day_dict self)
                             (sched_doc_dict self) k d + max_ot_doc self))
        as [?|Hgt]; [done|].
      destruct Hnf. split_and!; try done. right. exists (Fin x).
      split; [done|]. apply bool_decide_eq_true_2. lra.
    + destruct Hnf. split_and!; try done. right. by exists PInf.
  - intros ((Hj & Hd & Hr & Hk & Ht) & Hcap & x & Hx & Hle).
    apply sched_valid_intro; try done.
    rewrite elem_of_sched_fixed_vars.
    intros (_ & _ & _ & _ & _ & [Hz|(dur & Hdur & Hgt)]); [lra|].
    rewrite Hx in Hdur. injection Hdur as <-. cbn in Hgt.
    apply bool_decide_eq_true_1 in Hgt. lra.
Qed.

(** ** More doctor overtime never shrinks the valid set *)

Lemma same_index_sets (self1 self2 : SurgeryScheduler) :
  instance self1 = instance self2 →
  alpha_choices self1 = alpha_choices self2 →
  sched_J self1 = sched_J self2 ∧ sched_D self1 = sched_D self2 ∧
  sched_R self1 = sched_R self2 ∧ sched_K self1 = sched_K self2 ∧
  sched_T self1 = sched_T self2 ∧
  sched_day_dict self1 = sched_day_dict self2 ∧
  sched_doc_dict self1 = sched_doc_dict self2.
Proof.
  intros Hi Ha.
  unfold sched_J, sched_D, sched_R, sched_K, sched_T, sched_day_dict, sched_doc_dict.
  by rewrite Hi, Ha.
Qed.

(** X2: for two schedulers on the same instance and risk levels, the one
    with the larger maximum doctor overtime has every valid combination of
    the other, and fixes to zero no combination that the other leaves
    free. *)
Theorem X2_overtime_monotone (self1 self2 : SurgeryScheduler)
    (durations : Durations) :
  instance self1 = instance self2 →
  alpha_choices self1 = alpha_choices self2 →
  max_ot_doc self1 <= max_ot_doc self2 →
  sched_valid self1 durations ⊆ sched_valid self2 durations ∧
  sched_fixed_vars self2 durations ⊆ sched_fixed_vars self1 durations.
Proof.
  intros Hi Ha Hot.
  destruct (same_index_sets self1 self2 Hi Ha)
    as (HJ & HD & HR & HK & HT & Hdd & Hkd).
  assert (Hfixed : sched_fixed_vars self2 durations ⊆ sched_fixed_vars self1 durations).
  { intros [[[[j d] r] k] t]. rewrite !elem_of_sched_fixed_vars.
    rewrite HJ, HD, HR, HK, HT, Hdd, Hkd.
    intros (Hj & Hd & Hr & Hk & Ht & Hcase). split_and!; try done.
    destruct Hcase as [Hz|(dur & Hdur & Hgt)]; [by left|right].
    exists dur. split; [done|]. destruct dur as [x|]; [|done]. cbn in *.
    apply bool_decide_eq_true_1 in Hgt. apply bool_decide_eq_true_2. lra. }
  split; [|done].
  intros [[[[j d] r] k] t]
    (Hj & Hd & Hr & Hk & Ht & Hcap & Hsome & Hnf)%sched_valid_elim.
  apply sched_valid_intro; rewrite <- ?HJ, <- ?HD, <- ?HR, <- ?HK, <- ?HT,
    <- ?Hdd, <- ?Hkd; try done.
  intros Hin. by apply Hnf, Hfixed.
Qed.

(** ** The keys of the duration dictionary *)

Lemma precompute_durations_cell_inv (self : SurgeryScheduler)
    (durations : Durations) (j r k : string) (t : nat) (e : ext) :
  precompute_durations self = Ok durations →
  durations_get durations j r k t = Some e →
  ∃ s rm doc cell,
    s ∈ surgeries (instance self) ∧ rm ∈ rooms (instance self) ∧
    doc ∈ doctors (instance self) ∧
    duration_cell (alpha_choices self) s rm doc = Ok cell ∧
    cell !! t = Some e.
Proof.
  unfold durations_get. intros Hpre He.
  destruct (durations !! j) as [dj|] eqn:Hj; last first.
  { rewrite (lookup_total_gmap_None _ _ Hj) in He.
    rewrite !lookup_total_gmap_empty, lookup_empty in He. done. }
  rewrite (lookup_total_correct _ _ _ Hj) in He.
  destruct (dj !! r) as [djr|] eqn:Hr; last first.
  { rewrite (lookup_total_gmap_None _ _ Hr) in He.
    rewrite lookup_total_gmap_empty, lookup_empty in He. done. }
  rewrite (lookup_total_correct _ _ _ Hr) in He.
  destruct (djr !! k) as [cell|] eqn:Hk; last first.
  { rewrite (lookup_total_gmap_None _ _ Hk) in He.
    rewrite lookup_empty in He. done. }
  rewrite (lookup_total_correct _ _ _ Hk) in He.
  unfold precompute_durations in Hpre.
  destruct (build_dict_inv _ _ _ _ _ _ Hpre Hj) as (s & Hs & _ & Hdj).
  destruct (build_dict_inv _ _ _ _ _ _ Hdj Hr) as (rm & Hrm & _ & Hdjr).
  destruct (build_dict_inv _ _ _ _ _ _ Hdjr Hk) as (doc & Hdoc & _ & Hcell).
  exists s, rm, doc, cell. done.
Qed.

(** X3: when the precomputation returns, the dictionary it returns has a
    cell for every surgery, room and doctor identifier of the instance, so
    that no subscript [durations[j][r][k]] of the callers can raise; its
    outer keys are surgery identifiers, and the keys of a cell are indices
    of configured risk levels. *)
Theorem X3_durations_keys (self : SurgeryScheduler) (durations : Durations) :
  precompute_durations self = Ok durations →
  (∀ j r k, j ∈ sched_J self → r ∈ sched_R self → k ∈ sched_K self →
     ∃ dj djr cell,
       durations !! j = Some dj ∧ dj !! r = Some djr ∧ djr !! k = Some cell) ∧
  (∀ j, is_Some (durations !! j) → j ∈ sched_J self) ∧
  (∀ j r k t, is_Some (durations_get durations j r k t) → t ∈ sched_T self).
Proof.
  intros Hpre. split_and!.
  - intros j r k (s & Hs & <-)%id_in_index (rm & Hrm & <-)%id_in_index
      (doc & Hdoc & <-)%id_in_index.
    unfold precompute_durations in Hpre.
    destruct (build_dict_is_Some _ _ _ _ _ Hpre Hs) as [dj Hj].
    destruct (build_dict_inv _ _ _ _ _ _ Hpre Hj) as (s' & _ & _ & Hdj).
    destruct (build_dict_is_Some _ _ _ _ _ Hdj Hrm) as [djr Hr].
    destruct (build_dict_inv _ _ _ _ _ _ Hdj Hr) as (rm' & _ & _ & Hdjr).
    destruct (build_dict_is_Some _ _ _ _ _ Hdjr Hdoc) as [cell Hk].
    exists dj, djr, cell. done.
  - intros j [dj Hj]. unfold precompute_durations in Hpre.
    destruct (build_dict_inv _ _ _ _ _ _ Hpre Hj) as (s & Hs & <- & _).
    by apply list_elem_of_fmap_2.
  - intros j r k t [e He].
    destruct (precompute_durations_cell_inv _ _ _ _ _ _ _ Hpre He)
      as (s & rm & doc & cell & _ & _ & _ & Hcell & Hce).
    destruct (duration_cell_inv _ _ _ _ _ _ _ Hcell Hce) as (_ & _ & a & _ & Ha & _).
    apply elem_of_seq. apply lookup_lt_Some in Ha. lia.
Qed.

(** ** What a returned model guarantees *)

Lemma buffer_duration_below_1 (mu sigma a : R) (e : ext) :
  buffer_duration mu sigma a = Ok e → a < 1 →
  0 < a ∧ e = Fin (buffered mu sigma a).
Proof.
  intros He Ha. unfold buffer_duration in He.
  rewrite bool_decide_eq_false_2 in He by lra.
  apply bind_Ok in He as (q & Hq & He).
  apply bind_Ok in He as (root & Hroot & [= <-]).
  unfold py_div in Hq. case_bool_decide as Hz; [done|]. injection Hq as <-.
  unfold py_sqrt in Hroot. case_bool_decide as Hneg; [done|].
  injection Hroot as <-.
  assert (Hpos : 0 < a).
  { destruct (Rlt_le_dec 0 a) as [?|Hle]; [done|]. destruct Hneg.
    assert (a < 0) by lra.
    assert (0 < (1 - a) * / (- a)).
    { apply Rmult_lt_0_compat; [lra|]. apply Rinv_0_lt_compat. lra. }
    unfold Rdiv. replace (/ a) with (- / (- a)) by (field; lra). lra. }
  done.
Qed.

Lemma returned_model_alphas (self : SurgeryScheduler) (m : BuiltModel) :
  build_model self = Ok m → ∀ a, a ∈ alpha_choices self → a < 1.
Proof.
  intros (_ & _ & _ & _ & _ & _ & Hln & _)%build_model_inv.
  by apply ln_alphas_Ok in Hln as [? _].
Qed.

Lemma stored_duration_finite (self : SurgeryScheduler) (durations : Durations)
    (j r k : string) (t : nat) (e : ext) :
  precompute_durations self = Ok durations →
  (∀ a, a ∈ alpha_choices self → a < 1) →
  durations_get durations j r k t = Some e →
  (∃ x, e = Fin x) ∧ alpha_choices self ≠ [] ∧
  ∀ a, a ∈ alpha_choices self → 0 < a.
Proof.
  intros Hpre Hlt He.
  destruct (precompute_durations_cell_inv _ _ _ _ _ _ _ Hpre He)
    as (s & rm & doc & cell & _ & _ & _ & Hcell & Hce).
  destruct (duration_cell_inv _ _ _ _ _ _ _ Hcell Hce)
    as (mu & sigma & a & Hl & Ha & Hb).
  split_and!.
  - apply buffer_duration_below_1 in Hb as [_ ->]; [by eexists|].
    by eapply Hlt, list_elem_of_lookup_2.
  - intros Hnil. by rewrite Hnil in Ha.
  - intros a' Ha'. unfold duration_cell in Hcell. rewrite Hl in Hcell.
    cbn in Hcell. apply list_elem_of_lookup in Ha' as [t' Ht'].
    destruct (build_dict_all_ok _ _ _ _ (t', a') Hcell) as [e' He'].
    { by apply elem_of_enumerate. }
    cbn in He'. apply buffer_duration_below_1 in He' as [? _]; [done|].
    by eapply Hlt, list_elem_of_lookup_2.
Qed.

Lemma max_dur_is_stored (durations : Durations) (J R_ K : list string) (mx : ext) :
  build_max_dur durations J R_ K = Ok mx →
  (∃ j r k t, j ∈ J ∧ r ∈ R_ ∧ k ∈ K ∧ durations_get durations j r k t = Some mx) ∧
  (∀ j r k t e, j ∈ J → r ∈ R_ → k ∈ K →
     durations_get durations j r k t = Some e → ext_le_ext e mx).
Proof.
  unfold build_max_dur. intros [Hin Hup]%ext_list_max_Ok. split.
  - apply list_elem_of_bind in Hin as (j & Hin & Hj).
    apply list_elem_of_bind in Hin as (r & Hin & Hr).
    apply list_elem_of_bind in Hin as (k & Hin & Hk).
    destruct (ext_list_max _) as [mc|] eqn:Hmc; [|by apply elem_of_nil in Hin].
    apply list_elem_of_singleton in Hin as ->.
    apply ext_list_max_Ok in Hmc as [Hmc _].
    apply list_elem_of_fmap in Hmc as ([t e] & -> & Hte).
    apply elem_of_map_to_list in Hte. by exists j, r, k, t.
  - intros j r k t e Hj Hr Hk He. unfold durations_get in He.
    assert (Hval : e ∈ (map_to_list
              (((durations !!! j) !!! r) !!! k : gmap nat ext)).*2).
    { apply list_elem_of_fmap. exists (t, e). split; [done|].
      by apply elem_of_map_to_list. }
    destruct (ext_list_max (map_to_list
                (((durations !!! j) !!! r) !!! k : gmap nat ext)).*2)
      as [mc|err] eqn:Hmc.
    + eapply ext_le_ext_trans; [by apply (ext_list_max_Ok _ _ Hmc)|].
      apply Hup.
      apply list_elem_of_bind. exists j. split; [|done].
      apply list_elem_of_bind. exists r. split; [|done].
      apply list_elem_of_bind. exists k. split; [|done].
      rewrite Hmc. apply list_elem_of_here.
    + destruct (map_to_list _).*2; [by apply elem_of_nil in Hval|done].
Qed.

Lemma returned_model_epsilon (self : SurgeryScheduler) (m : BuiltModel) (d : Day) :
  build_model self = Ok m → d ∈ days (instance self) →
  default 0.25 (supplied_epsilon (epsilon self) (d_id d)) < 1 ∧
  m_log_one_minus_eps m !! d_id d
  = Some (ln (1 - default 0.25 (supplied_epsilon (epsilon self) (d_id d)))).
Proof.
  intros (_ & Heps & _ & _ & _ & _ & _ & Hlog)%build_model_inv Hd.
  assert (HD : d_id d ∈ sched_D self) by by apply list_elem_of_fmap_2.
  destruct (build_dict_is_Some _ _ _ _ _ Hlog HD) as [v Hv]. cbn in Hv.
  destruct (build_dict_inv _ _ _ _ _ _ Hlog Hv) as (d' & _ & -> & Hpy).
  rewrite Heps in Hpy.
  rewrite (lookup_total_correct _ _ _ (build_epsilon_dict_lookup _ _ _ Hd)) in Hpy.
  apply py_log_Ok in Hpy as [Hlt ->]. split; [lra|done].
Qed.

(** X4: a model is only returned for data on which every logarithm and
    every square root of the construction is defined: there is at least one
    risk level, every risk level lies strictly between 0 and 1, the epsilon
    of every day is below 1 and its [log_one_minus_eps] parameter is
    [ln (1 - epsilon)], and every stored buffered duration is finite. *)
Theorem X4_returned_model_is_well_defined (self : SurgeryScheduler)
    (m : BuiltModel) :
  build_model self = Ok m →
  alpha_choices self ≠ [] ∧
  (∀ a, a ∈ alpha_choices self → 0 < a < 1) ∧
  (∀ d, d ∈ days (instance self) →
     default 0.25 (supplied_epsilon (epsilon self) (d_id d)) < 1 ∧
     m_log_one_minus_eps m !! d_id d
     = Some (ln (1 - default 0.25 (supplied_epsilon (epsilon self) (d_id d))))) ∧
  (∀ j r k t e, durations_get (m_durations m) j r k t = Some e → ∃ x, e = Fin x).
Proof.
  intros Hm.
  pose proof (returned_model_alphas _ _ Hm) as Hlt.
  destruct (build_model_inv _ _ Hm) as (Hpre & _).
  destruct (build_model_fields _ _ Hm) as (_ & _ & _ & _ & _ & _ & Hmax & _).
  destruct (max_dur_is_stored _ _ _ _ _ Hmax) as [(j & r & k & t & _ & _ & _ & Hmx) _].
  destruct (stored_duration_finite _ _ _ _ _ _ _ Hpre Hlt Hmx) as (_ & Hne & Hpos).
  split_and!.
  - done.
  - intros a Ha. split; [by apply Hpos|by apply Hlt].
  - intros d Hd. by apply returned_model_epsilon.
  - intros j' r' k' t' e He.
    by destruct (stored_duration_finite _ _ _ _ _ _ _ Hpre Hlt He) as [? _].
Qed.

Lemma X4_witness :
  ∃ m, build_model small_scheduler = Ok m ∧
    alpha_choices small_scheduler ≠ [] ∧
    (∀ a, a ∈ alpha_choices small_scheduler → 0 < a < 1) ∧
    (∀ d, d ∈ days (instance small_scheduler) →
       default 0.25 (supplied_epsilon (epsilon small_scheduler) (d_id d)) < 1 ∧
       m_log_one_minus_eps m !! d_id d
       = Some (ln (1 - default 0.25
                      (supplied_epsilon (epsilon small_scheduler) (d_id d))))) ∧
    (∀ j r k t e,
       durations_get (m_durations m) j r k t = Some e → ∃ x, e = Fin x).
Proof.
  destruct small_scheduler_build_model as [m Hm]. exists m.
  split; [done|]. exact (X4_returned_model_is_well_defined small_scheduler m Hm).
Defined.

(** X5: the big-M bound of a returned model is sound. [max_dur] is a finite
    buffered duration of the dictionary, no duration of a surgery, room and
    doctor of the instance exceeds it (in particular none of a valid
    combination), and the room bound of every day is the day's regular
    time plus the maximum room overtime plus [max_dur]. *)
Theorem X5_big_M_dominates (self : SurgeryScheduler) (m : BuiltModel) :
  build_model self = Ok m →
  ∃ x, m_max_dur m = Fin x ∧
    (∃ j r k t, j ∈ m_J m ∧ r ∈ m_R m ∧ k ∈ m_K m ∧
       durations_get (m_durations m) j r k t = Some (Fin x)) ∧
    (∀ j r k t y, j ∈ m_J m → r ∈ m_R m → k ∈ m_K m →
       durations_get (m_durations m) j r k t = Some (Fin y) → y <= x) ∧
    (∀ j d r k t, (j, d, r, k, t) ∈ m_VALID m →
       ∃ y, durations_get (m_durations m) j r k t = Some (Fin y) ∧ y <= x) ∧
    (∀ d, d ∈ m_D m →
       m_M_room m !! d
       = Some (Fin (d_H (m_day_dict m !!! d) + max_ot_room self + x))).
Proof.
  intros Hm.
  pose proof (returned_model_alphas _ _ Hm) as Hlt.
  destruct (build_model_inv _ _ Hm) as (Hpre & _ & Hdd & _ & _ & HV & _).
  destruct (build_model_fields _ _ Hm) as (-> & -> & -> & -> & _ & _ & Hmax & HM).
  destruct (max_dur_is_stored _ _ _ _ _ Hmax)
    as [(j & r & k & t & Hj & Hr & Hk & Hmx) Hup].
  destruct (stored_duration_finite _ _ _ _ _ _ _ Hpre Hlt Hmx) as ([x Hx] & _).
  exists x. rewrite Hx in *. split_and!.
  - done.
  - by exists j, r, k, t.
  - intros j' r' k' t' y Hj' Hr' Hk' Hy. exact (Hup _ _ _ _ _ Hj' Hr' Hk' Hy).
  - intros j' d r' k' t'. rewrite HV.
    intros (Hj' & _ & Hr' & Hk' & _ & _ & [e He] & _)%sched_valid_elim.
    destruct (stored_duration_finite _ _ _ _ _ _ _ Hpre Hlt He) as ([y ->] & _).
    exists y. split; [done|]. exact (Hup _ _ _ _ _ Hj' Hr' Hk' He).
  - intros d Hd. rewrite HM, Hdd.
    destruct (dict_map_is_Some (λ d, d)
                (λ d, ext_add (Fin (d_H (sched_day_dict self !!! d)
                                    + max_ot_room self)) (Fin x))
                (sched_D self) d Hd) as [v Hv].
    rewrite Hv. apply dict_map_inv in Hv as (d' & _ & -> & ->). done.
Qed.

Lemma X5_witness :
  ∃ m, build_model small_scheduler = Ok m ∧
  ∃ x, m_max_dur m = Fin x ∧
    (∃ j r k t, j ∈ m_J m ∧ r ∈ m_R m ∧ k ∈ m_K m ∧
       durations_get (m_durations m) j r k t = Some (Fin x)) ∧
    (∀ j r k t y, j ∈ m_J m → r ∈ m_R m → k ∈ m_K m →
       durations_get (m_durations m) j r k t = Some (Fin y) → y <= x) ∧
    (∀ j d r k t, (j, d, r, k, t) ∈ m_VALID m →
       ∃ y, durations_get (m_durations m) j r k t = Some (Fin y) ∧ y <= x) ∧
    (∀ d, d ∈ m_D m →
       m_M_room m !! d
       = Some (Fin (d_H (m_day_dict m !!! d) + max_ot_room small_scheduler + x))).
Proof.
  destruct small_scheduler_build_model as [m Hm]. exists m.
  split; [done|]. exact (X5_big_M_dominates small_scheduler m Hm).
Defined.

(** ** The doctor sequencing variables *)

Lemma build_surgery_doctors_lookup (J : list string) (valid : gset Combo)
    (j k : string) :
  j ∈ J →
  k ∈ (build_surgery_doctors J valid !!! j : gset string) ↔
  ∃ d r t, (j, d, r, k, t) ∈ valid.
Proof.
  intros Hj. unfold build_surgery_doctors.
  destruct (dict_map_is_Some (λ j : string, j)
              (λ j, set_map (D:=gset string) combo_doctor
                      (filter (λ c : Combo, combo_surgery c = j) valid))
              J j Hj) as [S HS].
  rewrite (lookup_total_correct _ _ _ HS).
  apply dict_map_inv in HS as (j' & _ & -> & ->).
  rewrite elem_of_map. split.
  - intros ([[[[j0 d] r] k0] t] & -> & [Hc Hin]%elem_of_filter).
    cbn in Hc. subst j0. by exists d, r, t.
  - intros (d & r & t & Hin). exists (j, d, r, k, t). split; [done|].
    by apply elem_of_filter.
Qed.

(** X6: the doctor sequencing variable [u_doc] is created exactly for the
    tuples [(j, i, d, k)] of two surgeries of the instance with [j < i], a
    day of the instance and a doctor [k] with whom both surgeries have a
    valid combination (on any day, in any room, at any risk level). *)
Theorem X6_pruned_u_doc_exactly (J D : list string) (valid : gset Combo)
    (j i d k : string) :
  (j, i, d, k) ∈ pruned_u_doc J D (build_surgery_doctors J valid) ↔
  j ∈ J ∧ i ∈ J ∧ id_lt j i = true ∧ d ∈ D ∧
  (∃ d1 r1 t1, (j, d1, r1, k, t1) ∈ valid) ∧
  (∃ d2 r2 t2, (i, d2, r2, k, t2) ∈ valid).
Proof.
  unfold pruned_u_doc. split.
  - intros (j' & Hin & Hj)%list_elem_of_bind.
    apply list_elem_of_bind in Hin as (i' & Hin & Hi).
    destruct (id_lt j' i') eqn:Hlt; [|by apply elem_of_nil in Hin].
    apply list_elem_of_bind in Hin as (d' & Hin & Hd).
    apply list_elem_of_bind in Hin as (k' & Hin & Hk).
    apply list_elem_of_singleton in Hin. injection Hin as -> -> -> ->.
    apply elem_of_elements, elem_of_intersection in Hk as [Hkj Hki].
    apply build_surgery_doctors_lookup in Hkj; [|done].
    apply build_surgery_doctors_lookup in Hki; [|done].
    done.
  - intros (Hj & Hi & Hlt & Hd & Hvj & Hvi).
    apply list_elem_of_bind. exists j. split; [|done].
    apply list_elem_of_bind. exists i. split; [|done].
    rewrite Hlt.
    apply list_elem_of_bind. exists d. split; [|done].
    apply list_elem_of_bind. exists k. split; [apply list_elem_of_here|].
    apply elem_of_elements, elem_of_intersection.
    split; by apply build_surgery_doctors_lookup.
Qed.

(** ** The doctor capacity rows *)

Lemma doc_cap_rule_cap_agrees (day_dict : gmap string Day)
    (doc_dict : gmap string Doctor) (k d : string) :
  doctor_day_cap day_dict doc_dict k d ≠ 0 →
  doc_cap_rule_cap day_dict doc_dict k d = doctor_day_cap day_dict doc_dict k d.
Proof.
  unfold doc_cap_rule_cap, doctor_day_cap.
  destruct (doc_dict !! k) as [doc|]; [|done].
  destruct (default (CapMap ∅) (k_daily_capacity doc)) as [cm|x]; [|done].
  by destruct (cm !! d).
Qed.

(** X7: in a returned model the capacity row of doctor [k] on day [d], when
    it is not skipped, sums over exactly the valid combinations of [k] on
    [d] (the test on the stored duration removes none), and every valid
    combination of [k] on [d] is a term of a row that is not skipped and is
    bounded by the capacity under which the combination was found valid. *)
Theorem X7_doc_cap_row_covers_valid (self : SurgeryScheduler) (m : BuiltModel)
    (k d : string) :
  build_model self = Ok m →
  (∀ terms cap, doc_cap_rule m k d = DocCapLe terms cap →
     ∀ c, c ∈ terms ↔ c ∈ m_VALID m ∧ combo_doctor c = k ∧ combo_day c = d) ∧
  (∀ c, c ∈ m_VALID m → combo_doctor c = k → combo_day c = d →
     ∃ terms,
       doc_cap_rule m k d
       = DocCapLe terms (doctor_day_cap (m_day_dict m) (m_doc_dict m) k d) ∧
       c ∈ terms).
Proof.
  intros Hm.
  destruct (build_model_inv _ _ Hm) as (_ & _ & Hdd & Hkd & _ & HV & _).
  assert (Hsome : ∀ c, c ∈ m_VALID m → combo_doctor c = k →
            is_Some (durations_get (m_durations m) (combo_surgery c)
                       (combo_room c) k (combo_alpha c))).
  { intros [[[[j0 d0] r0] k0] t0] Hc Hk0. cbn in Hk0. subst k0.
    rewrite HV in Hc. by apply sched_valid_elim in Hc as (_ & _ & _ & _ & _ & _ & ? & _). }
  split.
  - unfold doc_cap_rule. intros terms cap. case_bool_decide; [done|].
    intros [= <- <-] c. rewrite elem_of_filter. split.
    + by intros [(? & ? & _) ?].
    + intros (Hc & Hk & Hd). split_and!; try done. by apply Hsome.
  - intros [[[[j0 d0] r0] k0] t0] Hc Hk Hd. cbn in Hk, Hd. subst k0 d0.
    assert (Hcap : doctor_day_cap (m_day_dict m) (m_doc_dict m) k d > 0).
    { rewrite Hdd, Hkd. rewrite HV in Hc.
      by apply sched_valid_elim in Hc as (_ & _ & _ & _ & _ & ? & _). }
    unfold doc_cap_rule.
    rewrite doc_cap_rule_cap_agrees by lra.
    rewrite bool_decide_eq_false_2 by lra.
    eexists. split; [done|]. apply elem_of_filter. split; [|done].
    split_and!; try done. by apply (Hsome _ Hc).
Qed.

Lemma X7_witness :
  ∃ m, build_model small_scheduler = Ok m ∧
    ("S1", "Mon", "OR1", "Doc1", 0%nat) ∈ m_VALID m ∧
    (∀ terms cap, doc_cap_rule m "Doc1" "Mon" = DocCapLe terms cap →
       ∀ c, c ∈ terms ↔
            c ∈ m_VALID m ∧ combo_doctor c = "Doc1" ∧ combo_day c = "Mon") ∧
    (∀ c, c ∈ m_VALID m → combo_doctor c = "Doc1" → combo_day c = "Mon" →
       ∃ terms,
         doc_cap_rule m "Doc1" "Mon"
         = DocCapLe terms
             (doctor_day_cap (m_day_dict m) (m_doc_dict m) "Doc1" "Mon") ∧
         c ∈ terms).
Proof.
  destruct small_scheduler_build_model as [m Hm]. exists m.
  split; [done|]. split.
  - destruct (build_model_inv _ _ Hm) as (Hpre & _ & _ & _ & _ & -> & _).
    by apply small_scheduler_valid.
  - exact (X7_doc_cap_row_covers_valid small_scheduler m "Doc1" "Mon" Hm).
Defined.

(** ** The minimum durations of the aggregate cuts *)

Lemma ext_min_ext_cases (e1 e2 : ext) :
  ext_min_ext e1 e2 = e1 ∨ ext_min_ext e1 e2 = e2.
Proof.
  destruct e1 as [a|], e2 as [b|]; cbn; auto.
  unfold Rmin. destruct (Rle_dec a b); auto.
Qed.

Lemma foldl_ext_min_elem (e : ext) (l : list ext) : foldl ext_min_ext e l ∈ e :: l.
Proof.
  revert e. induction l as [|e0 l IH]; intros e; cbn; [apply list_elem_of_here|].
  specialize (IH (ext_min_ext e e0)). apply elem_of_cons in IH as [Heq|IH].
  - rewrite Heq. destruct (ext_min_ext_cases e e0) as [-> | ->].
    + apply list_elem_of_here.
    + apply list_elem_of_further, list_elem_of_here.
  - by do 2 apply list_elem_of_further.
Qed.

Lemma elem_of_stored_durations (durations : Durations) (j : string)
    (R_ K : list string) (T : list nat) (e : ext) :
  e ∈ (r ← R_; k ← K; t ← T;
       match durations_get durations j r k t with
       | Some e => [e]
       | None => []
       end) ↔
  ∃ r k t, r ∈ R_ ∧ k ∈ K ∧ t ∈ T ∧ durations_get durations j r k t = Some e.
Proof.
  split.
  - intros (r & Hin & Hr)%list_elem_of_bind.
    apply list_elem_of_bind in Hin as (k & Hin & Hk).
    apply list_elem_of_bind in Hin as (t & Hin & Ht).
    destruct (durations_get durations j r k t) as [e'|] eqn:He;
      [|by apply elem_of_nil in Hin].
    apply list_elem_of_singleton in Hin as ->. by exists r, k, t.
  - intros (r & k & t & Hr & Hk & Ht & He).
    apply list_elem_of_bind. exists r. split; [|done].
    apply list_elem_of_bind. exists k. split; [|done].
    apply list_elem_of_bind. exists t. split; [|done].
    rewrite He. apply list_elem_of_here.
Qed.

(** X8: in a returned model the minimum duration that the aggregate cuts
    use for a surgery is a finite number, a lower bound of every stored
    buffered duration of the surgery and so of the duration of each of its
    valid combinations; it is one of these stored durations, or 0 when the
    surgery has none. *)
Theorem X8_min_durations_lower_bound (self : SurgeryScheduler) (m : BuiltModel)
    (j : string) :
  build_model self = Ok m → j ∈ m_J m →
  ∃ lo,
    build_min_durations (m_durations m) (m_J m) (m_R m) (m_K m) (m_T m) !! j
    = Some (Fin lo) ∧
    (∀ r k t y, r ∈ m_R m → k ∈ m_K m → t ∈ m_T m →
       durations_get (m_durations m) j r k t = Some (Fin y) → lo <= y) ∧
    (∀ d r k t, (j, d, r, k, t) ∈ m_VALID m →
       ∃ y, durations_get (m_durations m) j r k t = Some (Fin y) ∧ lo <= y) ∧
    ((∃ r k t, r ∈ m_R m ∧ k ∈ m_K m ∧ t ∈ m_T m ∧
        durations_get (m_durations m) j r k t = Some (Fin lo)) ∨
     (lo = 0 ∧ ∀ r k t, r ∈ m_R m → k ∈ m_K m → t ∈ m_T m →
        durations_get (m_durations m) j r k t = None)).
Proof.
  intros Hm Hj.
  pose proof (returned_model_alphas _ _ Hm) as Hlt.
  destruct (build_model_inv _ _ Hm) as (Hpre & _ & _ & _ & _ & HV & _).
  destruct (build_model_fields _ _ Hm) as (HJ & _ & HR & HK & HT & _).
  unfold build_min_durations.
  set (L := r ← m_R m; k ← m_K m; t ← m_T m;
            match durations_get (m_durations m) j r k t with
            | Some e => [e]
            | None => []
            end).
  destruct (dict_map_is_Some (λ j : string, j)
    (λ j, ext_list_min_default (
            r ← m_R m; k ← m_K m; t ← m_T m;
            match durations_get (m_durations m) j r k t with
            | Some e => [e]
            | None => []
            end)) (m_J m) j Hj) as [v Hv].
  rewrite Hv. apply dict_map_inv in Hv as (j' & _ & -> & ->). fold L.
  assert (Hlow : ∀ e, e ∈ L → ext_le_ext (ext_list_min_default L) e).
  { intros e. apply ext_list_min_default_lower. }
  assert (Hcase : (L = [] ∧ ext_list_min_default L = Fin 0) ∨
                  ext_list_min_default L ∈ L).
  { destruct L as [|e0 L']; [by left|right]. apply foldl_ext_min_elem. }
  assert (Hlo : ∃ lo, ext_list_min_default L = Fin lo).
  { destruct Hcase as [[_ ->]|Hin]; [by eexists|].
    apply elem_of_stored_durations in Hin as (r & k & t & _ & _ & _ & He).
    by destruct (stored_duration_finite _ _ _ _ _ _ _ Hpre Hlt He) as [? _]. }
  destruct Hlo as [lo Hlo]. rewrite Hlo in *. exists lo.
  assert (Hbound : ∀ r k t y, r ∈ m_R m → k ∈ m_K m → t ∈ m_T m →
            durations_get (m_durations m) j r k t = Some (Fin y) → lo <= y).
  { intros r k t y Hr Hk Ht Hy.
    apply (Hlow (Fin y)). apply elem_of_stored_durations. by exists r, k, t. }
  split_and!.
  - done.
  - done.
  - intros d r k t. rewrite HV.
    intros (_ & _ & Hr & Hk & Ht & _ & [e He] & _)%sched_valid_elim.
    destruct (stored_duration_finite _ _ _ _ _ _ _ Hpre Hlt He) as ([y ->] & _).
    exists y. split; [done|].
    apply (Hbound r k t); by rewrite ?HR, ?HK, ?HT.
  - destruct Hcase as [[Hnil [= <-]]|Hin].
    + right. split; [done|]. intros r k t Hr Hk Ht.
      destruct (durations_get (m_durations m) j r k t) as [e|] eqn:He; [|done].
      assert (Hin : e ∈ L) by (apply elem_of_stored_durations; by exists r, k, t).
      rewrite Hnil in Hin. by apply elem_of_nil in Hin.
    + left. by apply elem_of_stored_durations in Hin.
Qed.

Lemma X8_witness :
  ∃ m, build_model small_scheduler = Ok m ∧ "S1" ∈ m_J m ∧
  ("S1", "Mon", "OR1", "Doc1", 0%nat) ∈ m_VALID m ∧
  ∃ lo,
    build_min_durations (m_durations m) (m_J m) (m_R m) (m_K m) (m_T m) !! "S1"
    = Some (Fin lo) ∧
    (∀ r k t y, r ∈ m_R m → k ∈ m_K m → t ∈ m_T m →
       durations_get (m_durations m) "S1" r k t = Some (Fin y) → lo <= y) ∧
    (∀ d r k t, ("S1", d, r, k, t) ∈ m_VALID m →
       ∃ y, durations_get (m_durations m) "S1" r k t = Some (Fin y) ∧ lo <= y) ∧
    ((∃ r k t, r ∈ m_R m ∧ k ∈ m_K m ∧ t ∈ m_T m ∧
        durations_get (m_durations m) "S1" r k t = Some (Fin lo)) ∨
     (lo = 0 ∧ ∀ r k t, r ∈ m_R m → k ∈ m_K m → t ∈ m_T m →
        durations_get (m_durations m) "S1" r k t = None)).
Proof.
  destruct small_scheduler_build_model as [m Hm]. exists m.
  assert (Hj : "S1" ∈ m_J m).
  { destruct (build_model_fields _ _ Hm) as (-> & _). apply list_elem_of_here. }
  split; [done|]. split; [done|]. split.
  - destruct (build_model_inv _ _ Hm) as (Hpre & _ & _ & _ & _ & -> & _).
    by apply small_scheduler_valid.
  - exact (X8_min_durations_lower_bound small_scheduler m "S1" Hm Hj).
Defined.

(** ** [verify_reliability]: when it returns, and for which days *)

Lemma group_by_day_item (schedule : list ScheduleEntry) (d : string)
    (ss : list ScheduleEntry) :
  (d, ss) ∈ group_by_day schedule → ss = on_day d schedule ∧ ss ≠ [].
Proof.
  intros Hitem.
  assert (Hget : items_get d (group_by_day schedule) = Some ss).
  { destruct (items_get d (group_by_day schedule)) as [ss'|] eqn:Hg.
    - apply items_get_Some in Hg. f_equal.
      by eapply (items_unique (group_by_day schedule) d ss' ss),
           group_by_day_keys.
    - apply items_get_None in Hg. destruct Hg.
      by apply (list_elem_of_fmap_2 fst) in Hitem. }
  rewrite group_by_day_get in Hget.
  destruct (on_day d schedule); [done|]. by injection Hget as <-.
Qed.

Lemma build_ln1ma_inv (alphas : list R) (ln1ma : list (R * R)) :
  build_ln1ma alphas = Ok ln1ma →
  (∀ a, a ∈ alphas → a < 1) ∧ ln1ma = (λ a, (a, ln (1 - a))) <$> alphas.
Proof.
  unfold build_ln1ma. revert ln1ma.
  induction alphas as [|a alphas IH]; intros ln1ma.
  - intros [= <-]. split; [by intros a []%elem_of_nil|done].
  - rewrite mapR_cons.
    intros (p & (v & [Ha ->]%py_log_Ok & [= <-])%bind_Ok
              & (l & Hl & [= <-])%bind_Ok)%bind_Ok.
    destruct (IH l Hl) as [Hlt ->]. split; [|done].
    intros a' [->|Ha']%elem_of_cons; [lra|by apply Hlt].
Qed.

Lemma ln1ma_get_inv (alphas : list R) (a v : R) :
  ln1ma_get ((λ a, (a, ln (1 - a))) <$> alphas) a = Ok v → a ∈ alphas.
Proof.
  unfold ln1ma_get.
  destruct (list_find _ _) as [[i [a' v']]|] eqn:Hfind; [|done].
  intros _. apply list_find_Some in Hfind as (Hi & Hp & _). cbn in Hp. subst a'.
  by apply list_elem_of_lookup_2, elem_of_reverse, list_elem_of_fmap in Hi
    as (a' & [= -> ->] & ?).
Qed.

Lemma lhs_sum_inv (alphas : list R) (ss : list ScheduleEntry) (acc lhs : R) :
  foldlM (λ acc s,
            v ← ln1ma_get ((λ a, (a, ln (1 - a))) <$> alphas) (se_alpha s);
            Ok (acc + v)) acc ss
  = Ok lhs →
  ∀ s, s ∈ ss → se_alpha s ∈ alphas.
Proof.
  revert acc. induction ss as [|s ss IH]; intros acc; [by intros _ s []%elem_of_nil|].
  rewrite foldlM_cons.
  intros (acc' & (v & Hv & [= <-])%bind_Ok & Hrest)%bind_Ok s' [->|Hs']%elem_of_cons.
  - by apply ln1ma_get_inv in Hv.
  - by apply (IH _ Hrest).
Qed.

Lemma verify_day_returns (alphas : list R) (eps : Epsilon) (d : string)
    (ss : list ScheduleEntry) (dr : DayReliability) :
  verify_day ((λ a, (a, ln (1 - a))) <$> alphas) eps (d, ss) = Ok dr →
  (∀ s, s ∈ ss → se_alpha s ∈ alphas) ∧ verify_epsilon_val eps d < 1.
Proof.
  unfold verify_day.
  intros (lhs & Hlhs & (rhs & [Hlt _]%py_log_Ok & _)%bind_Ok)%bind_Ok.
  split; [by apply (lhs_sum_inv _ _ _ _ Hlhs)|lra].
Qed.

Lemma verify_reliability_inv (schedule : list ScheduleEntry) (alphas : list R)
    (eps : Epsilon) (rc : gmap string DayReliability) :
  verify_reliability schedule alphas eps = Ok rc →
  (∀ a, a ∈ alphas → a < 1) ∧
  (∀ s, s ∈ schedule →
     se_alpha s ∈ alphas ∧ verify_epsilon_val eps (se_day s) < 1 ∧
     is_Some (rc !! se_day s)) ∧
  (∀ d dr, rc !! d = Some dr →
     on_day d schedule ≠ [] ∧
     dr_lhs dr = sum_ln1ma (on_day d schedule) ∧
     dr_rhs dr = ln (1 - verify_epsilon_val eps d) ∧
     dr_slack dr = dr_lhs dr - dr_rhs dr).
Proof.
  unfold verify_reliability.
  intros (ln1ma & [Hlt ->]%build_ln1ma_inv & Hrc)%bind_Ok.
  split; [done|]. split.
  - intros s Hs.
    pose proof (group_by_day_elem schedule _ s Hs eq_refl) as Hitem.
    destruct (build_dict_all_ok _ _ _ _ _ Hrc Hitem) as [dr Hdr].
    apply verify_day_returns in Hdr as [Hin Heps].
    split_and!; [|done|].
    + apply Hin. by apply list_elem_of_filter.
    + exact (build_dict_is_Some _ _ _ _ _ Hrc Hitem).
  - intros d dr Hdr.
    destruct (build_dict_inv _ _ _ _ _ _ Hrc Hdr) as ([d' ss] & Hitem & Hd & Hv).
    cbn in Hd. subst d'.
    apply group_by_day_item in Hitem as [-> Hne].
    destruct (verify_day_returns _ _ _ _ _ Hv) as [Hin Heps].
    rewrite (verify_day_Ok _ _ _ _ Hin Heps) in Hv. injection Hv as <-.
    done.
Qed.

(** X9: [verify_reliability] returns exactly when every configured risk
    level is below 1 and every scheduled surgery has a configured risk
    level and a day whose epsilon is below 1; the keys of the returned
    dictionary are exactly the days on which the schedule has a surgery. *)
Theorem X9_verify_reliability_returns_exactly (schedule : list ScheduleEntry)
    (alphas : list R) (eps : Epsilon) :
  (is_Ok (verify_reliability schedule alphas eps) ↔
   (∀ a, a ∈ alphas → a < 1) ∧
   (∀ s, s ∈ schedule →
      se_alpha s ∈ alphas ∧ verify_epsilon_val eps (se_day s) < 1)) ∧
  (∀ rc, verify_reliability schedule alphas eps = Ok rc →
     ∀ d, is_Some (rc !! d) ↔ ∃ s, s ∈ schedule ∧ se_day s = d).
Proof.
  split.
  - split.
    + intros [rc (Hlt & Hs & _)%verify_reliability_inv]. split; [done|].
      intros s Hin. by destruct (Hs s Hin) as (? & ? & _).
    + intros [Hlt Hs]. unfold verify_reliability.
      rewrite (build_ln1ma_total alphas Hlt). cbn.
      apply build_dict_total. intros [d ss] [-> Hne]%group_by_day_item.
      destruct (on_day d schedule) as [|s0 ss0] eqn:Hon; [done|].
      assert (Hall : ∀ s, s ∈ s0 :: ss0 → s ∈ schedule ∧ se_day s = d).
      { intros s Hin. rewrite <- Hon in Hin.
        by apply list_elem_of_filter in Hin as [? ?]. }
      rewrite verify_day_Ok; [by eexists| |].
      * intros s [Hin _]%Hall. by apply Hs.
      * destruct (Hall s0 (list_elem_of_here _ _)) as [Hin <-]. by apply Hs.
  - intros rc Hrc d. apply verify_reliability_inv in Hrc as (_ & Hs & Hd). split.
    + intros [dr (Hne & _)%Hd].
      destruct (on_day d schedule) as [|s0 ss0] eqn:Hon; [done|].
      assert (Hin0 : s0 ∈ on_day d schedule)
        by (rewrite Hon; apply list_elem_of_here).
      apply list_elem_of_filter in Hin0 as [? ?]. by exists s0.
    + intros (s & Hin & <-). by destruct (Hs s Hin) as (_ & _ & ?).
Qed.

(** ** A verified day and the reliability pre-check *)

Lemma sum_ln1ma_bound (ss : list ScheduleEntry) (acc M : R) :
  (∀ s, s ∈ ss → ln (1 - se_alpha s) <= M) →
  foldl (λ acc s, acc + ln (1 - se_alpha s)) acc ss <= acc + INR (length ss) * M.
Proof.
  revert acc. induction ss as [|s ss IH]; intros acc Hle.
  - cbn. lra.
  - cbn [foldl length]. rewrite S_INR.
    pose proof (Hle s (list_elem_of_here _ _)) as Hs.
    pose proof (IH (acc + ln (1 - se_alpha s))
                  (λ s' Hs', Hle s' (list_elem_of_further _ _ _ Hs'))) as Hrest.
    lra.
Qed.

(** X10: the reliability pre-check is a necessary condition for what
    [verify_reliability] accepts.  With a float epsilon and the same risk
    levels, if a day of a schedule is verified with a non-negative slack and
    has no more surgeries than the instance, then the pre-check lists this
    number of surgeries per day among its feasible distributions, and so
    reports reliability as feasible. *)
Theorem X10_verified_day_count_is_feasible (inst : Instance) (alphas : list R)
    (e ot_room ot_doc : R) (rep : FeasibilityReport)
    (schedule : list ScheduleEntry) (rc : gmap string DayReliability)
    (d : string) (dr : DayReliability) :
  check_instance_feasibility inst alphas (EpsFloat e) ot_room ot_doc = Ok rep →
  verify_reliability schedule alphas (EpsFloat e) = Ok rc →
  rc !! d = Some dr →
  dr_slack dr >= 0 →
  (length (on_day d schedule) <= length (surgeries inst))%nat →
  (∃ c, c ∈ feasible_distributions rep ∧
        rc_surgeries_per_day c = length (on_day d schedule)) ∧
  reliability_feasible rep = true.
Proof.
  intros Hrep Hrc Hdr Hslack Hlen.
  destruct (check_instance_feasibility_inv _ _ _ _ _ _ Hrep)
    as (ma & le & lns & ml & _ & Hle & Hlns & Hml & _ & _ & Hchecks & Hfd & Hrf).
  cbn [check_epsilon_val] in *.
  apply py_log_Ok in Hle as [He ->].
  apply ln_alphas_Ok in Hlns as [Hlt ->].
  destruct (verify_reliability_inv _ _ _ _ Hrc) as (_ & Hs & Hd).
  destruct (Hd d dr Hdr) as (Hne & Hlhs & Hrhs & Hsl).
  cbn [verify_epsilon_val] in Hrhs.
  set (ss := on_day d schedule) in *.
  assert (Hsum : sum_ln1ma ss <= INR (length ss) * ml).
  { unfold sum_ln1ma.
    pose proof (sum_ln1ma_bound ss 0 ml) as Hb.
    rewrite Rplus_0_l in Hb. apply Hb. intros s Hin.
    apply (py_max_Ok _ _ Hml). apply list_elem_of_fmap. exists (se_alpha s).
    split; [done|].
    apply list_elem_of_filter in Hin as [_ Hin]. by destruct (Hs s Hin). }
  assert (Hn : (1 <= length ss <= length (surgeries inst))%nat).
  { split; [|done]. destruct ss; [done|cbn; lia]. }
  destruct (reliability_checks_has e (ln (1 - e)) ml ma _ _ Hn) as (c & Hc & Hcn).
  assert (Hcf : rc_feasible c = true).
  { destruct (elem_of_reliability_checks _ _ _ _ _ _ Hc) as (_ & _ & _ & -> & _).
    apply bool_decide_eq_true_2. rewrite Hcn. lra. }
  assert (Hin : c ∈ feasible_distributions rep).
  { rewrite Hfd, Hchecks. by apply list_elem_of_filter. }
  split; [by exists c|].
  rewrite Hrf. apply bool_decide_eq_true_2.
  destruct (feasible_distributions rep); [by apply elem_of_nil in Hin|cbn; lia].
Qed.

Lemma small_schedule_slack :
  sum_ln1ma (on_day "Mon" small_schedule)
  - ln (1 - verify_epsilon_val (EpsFloat 0.5) "Mon") >= 0.
Proof.
  change (on_day "Mon" small_schedule) with small_schedule.
  unfold sum_ln1ma. cbn [foldl small_schedule entry_at se_alpha verify_epsilon_val].
  rewrite Rplus_0_l, <- ln_mult by lra.
  assert (ln ((1 - 0.1) * (1 - 0.1)) >= ln (1 - 0.5)); [|lra].
  apply ln_ge_iff; lra.
Qed.

Lemma X10_witness :
  ∃ rep rc dr,
    check_instance_feasibility small_instance [0.1] (EpsFloat 0.5) 120 60 = Ok rep ∧
    verify_reliability small_schedule [0.1] (EpsFloat 0.5) = Ok rc ∧
    rc !! "Mon" = Some dr ∧
    dr_slack dr >= 0 ∧
    (length (on_day "Mon" small_schedule) <= length (surgeries small_instance))%nat ∧
    (∃ c, c ∈ feasible_distributions rep ∧
          rc_surgeries_per_day c = length (on_day "Mon" small_schedule)) ∧
    reliability_feasible rep = true.
Proof.
  destruct (check_instance_feasibility_total small_instance [0.1] (EpsFloat 0.5)
              120 60) as [rep Hrep].
  { discriminate. }
  { apply one_tenth_only. lra. }
  { cbn [check_epsilon_val]. lra. }
  { apply small_check_inputs_well_formed. }
  destruct (verify_reliability_day_report small_schedule [0.1] (EpsFloat 0.5) "Mon")
    as (rc & Hrc & Hdr).
  { apply one_tenth_only. lra. }
  { apply small_schedule_alphas. }
  { apply small_schedule_epsilon. }
  { exists (entry_at "S1" "Mon" 0.1). split; [apply list_elem_of_here|reflexivity]. }
  assert (Hlen : (length (on_day "Mon" small_schedule)
                  <= length (surgeries small_instance))%nat).
  { change (on_day "Mon" small_schedule) with small_schedule. cbn. lia. }
  exists rep, rc. eexists. split; [exact Hrep|]. split; [exact Hrc|].
  split; [exact Hdr|]. split; [exact small_schedule_slack|]. split; [exact Hlen|].
  exact (X10_verified_day_count_is_feasible small_instance [0.1] 0.5 120 60 rep
           small_schedule rc "Mon" _ Hrep Hrc Hdr small_schedule_slack Hlen).
Defined.

(** ** [check_instance_feasibility]: the capacity part of the report *)

Lemma check_instance_feasibility_capacity_inv (inst : Instance) (alphas : list R)
    (eps : Epsilon) (ot_room ot_doc : R) (rep : FeasibilityReport) :
  check_instance_feasibility inst alphas eps ot_room ot_doc = Ok rep →
  py_max alphas = Ok (report_max_alpha rep) ∧
  min_buffered_durations inst (report_max_alpha rep)
  = Ok (min_buffered_durations_ rep) ∧
  total_min_buffered rep = foldl ext_add (Fin 0) (min_buffered_durations_ rep).*2 ∧
  total_regular_room_capacity rep
  = py_sum (d_H <$> days inst) * INR (length (rooms inst)) ∧
  total_max_room_capacity rep
  = py_sum ((λ d, d_H d + ot_room) <$> days inst) * INR (length (rooms inst)) ∧
  room_capacity_feasible rep
  = ext_le (total_min_buffered rep) (total_max_room_capacity rep) ∧
  room_capacity_deficit rep
  = (if negb (room_capacity_feasible rep)
     then ext_sub (total_min_buffered rep) (total_max_room_capacity rep)
     else Fin 0) ∧
  doctor_capacity_totals inst ot_doc
  = Ok (total_regular_doctor_capacity rep, total_max_doctor_capacity rep) ∧
  doctor_capacity_feasible rep
  = ext_le (total_min_buffered rep) (total_max_doctor_capacity rep) ∧
  doctor_capacity_deficit rep
  = (if negb (doctor_capacity_feasible rep)
     then ext_sub (total_min_buffered rep) (total_max_doctor_capacity rep)
     else Fin 0) ∧
  py_max (doctor ← doctors inst; day ← days inst;
          [doctor_day_capacity ot_doc doctor day])
  = Ok (max_doctor_capacity_per_day rep) ∧
  individual_check (max_doctor_capacity_per_day rep) (min_buffered_durations_ rep)
  = (individual_surgery_feasible rep, infeasible_surgeries rep) ∧
  capacity_feasible rep
  = room_capacity_feasible rep && doctor_capacity_feasible rep
    && individual_surgery_feasible rep ∧
  overall_feasible rep = capacity_feasible rep && reliability_feasible rep ∧
  utilization (total_min_buffered rep) (total_regular_room_capacity rep)
  = Ok (capacity_utilization_room rep) ∧
  utilization (total_min_buffered rep) (total_regular_doctor_capacity rep)
  = Ok (capacity_utilization_doctor rep).
Proof.
  unfold check_instance_feasibility. intros Hrep.
  apply bind_Ok in Hrep as (max_alpha & Hmax & Hrep).
  apply bind_Ok in Hrep as (mbd & Hmbd & Hrep).
  apply bind_Ok in Hrep as ([tr tm] & Htot & Hrep).
  apply bind_Ok in Hrep as (max_cap & Hcap & Hrep).
  apply bind_Ok in Hrep as (ln_eps & Hln & Hrep).
  apply bind_Ok in Hrep as (lns & Hlns & Hrep).
  apply bind_Ok in Hrep as (max_ln & Hmaxln & Hrep).
  apply bind_Ok in Hrep as (ur & Hur & Hrep).
  apply bind_Ok in Hrep as (ud & Hud & [= <-]).
  cbn [report_max_alpha min_buffered_durations_ total_min_buffered
       total_regular_room_capacity total_max_room_capacity
       room_capacity_feasible room_capacity_deficit
       total_regular_doctor_capacity total_max_doctor_capacity
       doctor_capacity_feasible doctor_capacity_deficit
       max_doctor_capacity_per_day individual_surgery_feasible
       infeasible_surgeries capacity_feasible overall_feasible
       reliability_feasible capacity_utilization_room
       capacity_utilization_doctor fst snd] in *.
  split_and!; try done.
  by destruct (individual_check _ _).
Qed.

(** ** The minimum buffered durations of the feasibility check *)

Lemma min_dur_step_Ok (surgery : Surgery) (max_alpha : R) (min_dur e : ext)
    (rd : Room * Doctor) :
  min_dur_step surgery max_alpha min_dur rd = Ok e →
  max_alpha ≠ 0 ∧ 0 <= (1 - max_alpha) / max_alpha ∧
  e = ext_min min_dur (precheck_buffered surgery max_alpha rd).
Proof.
  unfold min_dur_step, precheck_buffered, precheck_mu_sigma, buffered.
  intros ([mu sigma] & -> & Hstep)%bind_Ok.
  apply bind_Ok in Hstep as (q & Hq & (root & Hroot & [= <-])%bind_Ok).
  unfold py_div in Hq. case_bool_decide as Hz; [done|]. injection Hq as <-.
  unfold py_sqrt in Hroot. case_bool_decide as Hneg; [done|].
  injection Hroot as <-. split_and!; [done|lra|done].
Qed.

Lemma min_dur_fold_params (surgery : Surgery) (max_alpha : R)
    (l : list (Room * Doctor)) (e e' : ext) :
  foldlM (min_dur_step surgery max_alpha) e l = Ok e' →
  ∀ rd, rd ∈ l → is_Ok (precheck_params surgery rd.1 rd.2).
Proof.
  revert e. induction l as [|rd l IH]; intros e; [by intros _ rd []%elem_of_nil|].
  rewrite foldlM_cons. intros (e1 & Hstep & Hrest)%bind_Ok rd' [->|Hin]%elem_of_cons.
  - unfold min_dur_step in Hstep. apply bind_Ok in Hstep as (p & Hp & _).
    by exists p.
  - by apply (IH _ Hrest).
Qed.

Lemma min_dur_fold (surgery : Surgery) (max_alpha : R)
    (l : list (Room * Doctor)) (e e' : ext) :
  foldlM (min_dur_step surgery max_alpha) e l = Ok e' →
  ext_le_ext e' e ∧
  (∀ rd, rd ∈ l → ext_le_ext e' (Fin (precheck_buffered surgery max_alpha rd))) ∧
  (e' = e ∨ ∃ rd, rd ∈ l ∧ e' = Fin (precheck_buffered surgery max_alpha rd)) ∧
  (l ≠ [] → (∃ x, e' = Fin x) ∧ max_alpha ≠ 0 ∧ 0 <= (1 - max_alpha) / max_alpha).
Proof.
  revert e. induction l as [|rd l IH]; intros e.
  - intros [= <-]. split_and!; [apply ext_le_ext_refl| |by left|done].
    by intros rd []%elem_of_nil.
  - rewrite foldlM_cons.
    intros (e1 & (Hne & Hpos & ->)%min_dur_step_Ok & Hrest)%bind_Ok.
    destruct (IH _ Hrest) as (Hle & Hall & Hatt & Hfin).
    set (b := precheck_buffered surgery max_alpha rd) in *.
    assert (Hl : ext_le_ext (ext_min e b) e).
    { destruct e; cbn; [apply Rmin_l|done]. }
    assert (Hr : ext_le_ext (ext_min e b) (Fin b)).
    { destruct e; cbn; [apply Rmin_r|lra]. }
    split_and!.
    + by eapply ext_le_ext_trans.
    + intros rd' [->|Hin]%elem_of_cons; [by eapply ext_le_ext_trans|by apply Hall].
    + destruct Hatt as [->|(rd' & Hin & ->)].
      * destruct e as [x|]; cbn.
        -- unfold Rmin. destruct (Rle_dec x b); [by left|].
           right. exists rd. split; [apply list_elem_of_here|done].
        -- right. exists rd. split; [apply list_elem_of_here|done].
      * right. exists rd'. split; [by apply list_elem_of_further|done].
    + intros _. split_and!; [|done|done].
      destruct Hatt as [->|(rd' & _ & ->)]; [|by eexists].
      destruct e; by eexists.
Qed.

Lemma min_buffered_durations_inv (inst : Instance) (max_alpha : R)
    (mbd : list (string * ext)) :
  min_buffered_durations inst max_alpha = Ok mbd →
  Forall2 (λ surgery p,
             p.1 = s_id surgery ∧
             foldlM (min_dur_step surgery max_alpha) PInf
               (room ← rooms inst; doctor ← doctors inst; [(room, doctor)])
             = Ok p.2)
          (surgeries inst) mbd.
Proof.
  unfold min_buffered_durations. rewrite mapR_Ok. intros Hall.
  eapply Forall2_impl; [exact Hall|].
  intros surgery p (e & He & [= <-])%bind_Ok. done.
Qed.

Lemma elem_of_room_doctor_pairs (inst : Instance) (room : Room) (doctor : Doctor) :
  (room, doctor) ∈ (room ← rooms inst; doctor ← doctors inst; [(room, doctor)]) ↔
  room ∈ rooms inst ∧ doctor ∈ doctors inst.
Proof.
  split.
  - intros (r & Hin & Hr)%list_elem_of_bind.
    apply list_elem_of_bind in Hin as (k & [= -> ->]%list_elem_of_singleton & Hk).
    done.
  - intros [Hr Hk]. apply list_elem_of_bind. exists room. split; [|done].
    apply list_elem_of_bind. exists doctor. split; [apply list_elem_of_here|done].
Qed.

Lemma returned_report_nonempty (inst : Instance) (alphas : list R)
    (eps : Epsilon) (ot_room ot_doc : R) (rep : FeasibilityReport) :
  check_instance_feasibility inst alphas eps ot_room ot_doc = Ok rep →
  rooms inst ≠ [] ∧ doctors inst ≠ [] ∧ days inst ≠ [].
Proof.
  intros (_ & _ & _ & Hrr & _ & _ & _ & _ & _ & _ & Hcap & _ & _ & _ & Hur & _)
    %check_instance_feasibility_capacity_inv.
  split_and!.
  - intros Hnil. unfold utilization in Hur. rewrite Hrr, Hnil in Hur.
    cbn [length INR] in Hur. rewrite Rmult_0_r in Hur.
    by rewrite bool_decide_eq_true_2 in Hur.
  - intros Hnil. by rewrite Hnil in Hcap.
  - intros Hnil. rewrite Hnil in Hcap.
    assert (Hl : ∀ ks : list Doctor,
              (doctor ← ks; day ← @nil Day;
               [doctor_day_capacity ot_doc doctor day]) = []).
    { intros ks. induction ks as [|k ks IH]; [done|]. cbn. exact IH. }
    by rewrite Hl in Hcap.
Qed.

(** X11: when the feasibility check returns, its list of minimum buffered
    durations has one entry per surgery of the instance, in order; the
    entry of a surgery is finite, is the buffered duration at the largest
    configured risk level of some room and doctor of the instance, and is
    at most that of every room and doctor; the parameters of every room and
    doctor were read without an error. *)
Theorem X11_min_buffered_is_minimum (inst : Instance) (alphas : list R)
    (eps : Epsilon) (ot_room ot_doc : R) (rep : FeasibilityReport) :
  check_instance_feasibility inst alphas eps ot_room ot_doc = Ok rep →
  (report_max_alpha rep ∈ alphas ∧ ∀ a, a ∈ alphas → a <= report_max_alpha rep) ∧
  Forall2 (λ surgery p,
             p.1 = s_id surgery ∧
             ∃ x, p.2 = Fin x ∧
               (∃ room doctor, room ∈ rooms inst ∧ doctor ∈ doctors inst ∧
                  x = precheck_buffered surgery (report_max_alpha rep) (room, doctor)) ∧
               (∀ room doctor, room ∈ rooms inst → doctor ∈ doctors inst →
                  x <= precheck_buffered surgery (report_max_alpha rep) (room, doctor)) ∧
               (∀ room doctor, room ∈ rooms inst → doctor ∈ doctors inst →
                  precheck_params surgery room doctor
                  = Ok (precheck_mu_sigma surgery room doctor)))
          (surgeries inst) (min_buffered_durations_ rep).
Proof.
  intros Hrep.
  destruct (returned_report_nonempty _ _ _ _ _ _ Hrep) as (Hrooms & Hdocs & _).
  destruct (check_instance_feasibility_capacity_inv _ _ _ _ _ _ Hrep)
    as (Hmax & Hmbd & _).
  split; [by apply py_max_Ok|].
  apply min_buffered_durations_inv in Hmbd.
  eapply Forall2_impl; [exact Hmbd|].
  intros surgery [j e] [Hj Hfold]. cbn [fst snd] in *. split; [done|].
  destruct (min_dur_fold _ _ _ _ _ Hfold) as (_ & Hall & Hatt & Hfin).
  destruct Hfin as ([x ->] & _).
  { destruct (rooms inst) as [|r rs]; [done|].
    destruct (doctors inst) as [|k ks]; [done|]. done. }
  exists x. split; [done|]. split_and!.
  - destruct Hatt as [?|([room doctor] & Hin & [= ->])]; [done|].
    apply elem_of_room_doctor_pairs in Hin as [? ?]. by exists room, doctor.
  - intros room doctor Hr Hk.
    apply (Hall (room, doctor)). by apply elem_of_room_doctor_pairs.
  - intros room doctor Hr Hk.
    destruct (min_dur_fold_params _ _ _ _ _ Hfold (room, doctor)) as [p Hp].
    { by apply elem_of_room_doctor_pairs. }
    cbn [fst snd] in Hp. unfold precheck_mu_sigma. by rewrite Hp.
Qed.

Lemma X11_witness :
  ∃ rep,
    check_instance_feasibility small_instance [0.1] (EpsFloat 0.5) 120 60 = Ok rep ∧
    (report_max_alpha rep ∈ [0.1] ∧ ∀ a, a ∈ [0.1] → a <= report_max_alpha rep) ∧
    Forall2 (λ surgery p,
               p.1 = s_id surgery ∧
               ∃ x, p.2 = Fin x ∧
                 (∃ room doctor,
                    room ∈ rooms small_instance ∧ doctor ∈ doctors small_instance ∧
                    x = precheck_buffered surgery (report_max_alpha rep)
                          (room, doctor)) ∧
                 (∀ room doctor,
                    room ∈ rooms small_instance → doctor ∈ doctors small_instance →
                    x <= precheck_buffered surgery (report_max_alpha rep)
                           (room, doctor)) ∧
                 (∀ room doctor,
                    room ∈ rooms small_instance → doctor ∈ doctors small_instance →
                    precheck_params surgery room doctor
                    = Ok (precheck_mu_sigma surgery room doctor)))
            (surgeries small_instance) (min_buffered_durations_ rep).
Proof.
  destruct (check_instance_feasibility_total small_instance [0.1] (EpsFloat 0.5)
              120 60) as [rep Hrep].
  { discriminate. }
  { apply one_tenth_only. lra. }
  { cbn [check_epsilon_val]. lra. }
  { apply small_check_inputs_well_formed. }
  exists rep. split; [exact Hrep|].
  exact (X11_min_buffered_is_minimum small_instance [0.1] (EpsFloat 0.5) 120 60
           rep Hrep).
Defined.

(** ** The individual surgery check *)

Lemma individual_check_fold (max_cap : R) (mbd : list (string * ext))
    (b : bool) (l : list InfeasibleSurgery) :
  foldl (λ (acc : bool * list InfeasibleSurgery) (s : string * ext),
           if ext_gt s.2 max_cap then
             (false,
              acc.2 ++ [{| is_id := s.1; is_duration := s.2;
                           is_max_capacity := max_cap;
                           is_excess := ext_sub s.2 max_cap |}])
           else acc)
        (b, l) mbd
  = (b && forallb (λ s, negb (ext_gt s.2 max_cap)) mbd,
     l ++ (infeasible_entry max_cap
             <$> filter (λ s, ext_gt s.2 max_cap = true) mbd)).
Proof.
  revert b l. induction mbd as [|s mbd IH]; intros b l.
  - cbn. by rewrite andb_true_r, app_nil_r.
  - cbn [foldl forallb]. destruct (ext_gt s.2 max_cap) eqn:Hgt.
    + rewrite IH, filter_cons_True by done.
      rewrite fmap_cons, <- app_assoc. cbn. by rewrite andb_false_r.
    + rewrite IH, filter_cons_False by (by rewrite Hgt). done.
Qed.

Lemma individual_check_spec (max_cap : R) (mbd : list (string * ext)) :
  individual_check max_cap mbd
  = (forallb (λ s, negb (ext_gt s.2 max_cap)) mbd,
     infeasible_entry max_cap <$> filter (λ s, ext_gt s.2 max_cap = true) mbd).
Proof. unfold individual_check. by rewrite individual_check_fold. Qed.

Lemma elem_of_doctor_day_capacities (inst : Instance) (ot_doc x : R) :
  x ∈ (doctor ← doctors inst; day ← days inst;
       [doctor_day_capacity ot_doc doctor day]) ↔
  ∃ doctor day, doctor ∈ doctors inst ∧ day ∈ days inst ∧
                x = doctor_day_capacity ot_doc doctor day.
Proof.
  split.
  - intros (k & Hin & Hk)%list_elem_of_bind.
    apply list_elem_of_bind in Hin as (d & ->%list_elem_of_singleton & Hd).
    by exists k, d.
  - intros (k & d & Hk & Hd & ->).
    apply list_elem_of_bind. exists k. split; [|done].
    apply list_elem_of_bind. exists d. split; [apply list_elem_of_here|done].
Qed.

(** X12: in a returned report [max_doctor_capacity_per_day] is the largest
    capacity plus overtime of any doctor on any day; the infeasible
    surgeries are, in the order of the instance, exactly the surgeries whose
    minimum buffered duration exceeds it, each listed with a finite duration
    and its positive excess; and [individual_surgery_feasible] is true
    exactly when this list is empty. *)
Theorem X12_individual_check_flags_exactly (inst : Instance) (alphas : list R)
    (eps : Epsilon) (ot_room ot_doc : R) (rep : FeasibilityReport) :
  check_instance_feasibility inst alphas eps ot_room ot_doc = Ok rep →
  (∃ doctor day, doctor ∈ doctors inst ∧ day ∈ days inst ∧
     max_doctor_capacity_per_day rep = doctor_day_capacity ot_doc doctor day) ∧
  (∀ doctor day, doctor ∈ doctors inst → day ∈ days inst →
     doctor_day_capacity ot_doc doctor day <= max_doctor_capacity_per_day rep) ∧
  infeasible_surgeries rep
  = infeasible_entry (max_doctor_capacity_per_day rep)
      <$> filter (λ s, ext_gt s.2 (max_doctor_capacity_per_day rep) = true)
            (min_buffered_durations_ rep) ∧
  (∀ x, x ∈ infeasible_surgeries rep →
     ∃ dur, is_duration x = Fin dur ∧
            dur > max_doctor_capacity_per_day rep ∧
            is_excess x = Fin (dur - max_doctor_capacity_per_day rep) ∧
            (is_id x, Fin dur) ∈ min_buffered_durations_ rep) ∧
  (individual_surgery_feasible rep = true ↔ infeasible_surgeries rep = []) ∧
  (individual_surgery_feasible rep = true ↔
   ∀ j dur, (j, Fin dur) ∈ min_buffered_durations_ rep →
            dur <= max_doctor_capacity_per_day rep).
Proof.
  intros Hrep.
  destruct (returned_report_nonempty _ _ _ _ _ _ Hrep) as (Hrooms & Hdocs & _).
  destruct (check_instance_feasibility_capacity_inv _ _ _ _ _ _ Hrep)
    as (_ & Hmbd & _ & _ & _ & _ & _ & _ & _ & _ & Hcap & Hind & _).
  set (cap := max_doctor_capacity_per_day rep) in *.
  set (mbd := min_buffered_durations_ rep) in *.
  rewrite individual_check_spec in Hind. injection Hind as Hflag Hlist.
  assert (Hfin : ∀ s, s ∈ mbd → ∃ x, s.2 = Fin x).
  { intros s Hs. apply min_buffered_durations_inv in Hmbd.
    apply list_elem_of_lookup in Hs as [i Hi].
    destruct (Forall2_lookup_r _ _ _ _ _ Hmbd Hi) as (surgery & _ & _ & Hfold).
    destruct (min_dur_fold _ _ _ _ _ Hfold) as (_ & _ & _ & Hf).
    apply Hf.
    destruct (rooms inst) as [|r rs]; [done|].
    destruct (doctors inst) as [|k ks]; [done|]. done. }
  apply py_max_Ok in Hcap as [Hin Hup].
  split_and!.
  - by apply elem_of_doctor_day_capacities in Hin.
  - intros doctor day Hk Hd. apply Hup, elem_of_doctor_day_capacities.
    by exists doctor, day.
  - done.
  - intros x. rewrite <- Hlist.
    intros ([j e] & -> & [Hgt Hs]%list_elem_of_filter)%list_elem_of_fmap.
    destruct (Hfin _ Hs) as [dur Hdur]. cbn in Hdur, Hgt. subst e.
    exists dur. cbn in Hgt. apply bool_decide_eq_true_1 in Hgt. done.
  - rewrite <- Hflag, <- Hlist. rewrite forallb_forall. split.
    + intros Hall.
      destruct (filter _ mbd) as [|s ss] eqn:Hf; [done|].
      assert (Hs : s ∈ filter (λ s, ext_gt s.2 cap = true) mbd)
        by (rewrite Hf; apply list_elem_of_here).
      apply list_elem_of_filter in Hs as [Hgt Hs].
      apply list_elem_of_In, Hall in Hs. by rewrite Hgt in Hs.
    + intros Hnil s Hs%list_elem_of_In.
      destruct (ext_gt s.2 cap) eqn:Hgt; [|done].
      assert (Hin' : s ∈ filter (λ s, ext_gt s.2 cap = true) mbd)
        by (by apply list_elem_of_filter).
      apply (list_elem_of_fmap_2 (infeasible_entry cap)) in Hin'.
      rewrite Hnil in Hin'. by apply elem_of_nil in Hin'.
  - rewrite <- Hflag, forallb_forall. split.
    + intros Hall j dur Hs%list_elem_of_In. apply Hall in Hs. cbn in Hs.
      apply negb_true_iff, bool_decide_eq_false_1 in Hs. lra.
    + intros Hall [j e] Hs%list_elem_of_In.
      destruct (Hfin _ Hs) as [dur Hdur]. cbn in Hdur. subst e. cbn.
      apply negb_true_iff, bool_decide_eq_false_2.
      pose proof (Hall j dur Hs). lra.
Qed.

Lemma X12_witness :
  ∃ rep,
    check_instance_feasibility small_instance [0.1] (EpsFloat 0.5) 120 60 = Ok rep ∧
    (∃ doctor day, doctor ∈ doctors small_instance ∧ day ∈ days small_instance ∧
       max_doctor_capacity_per_day rep = doctor_day_capacity 60 doctor day) ∧
    (∀ doctor day, doctor ∈ doctors small_instance → day ∈ days small_instance →
       doctor_day_capacity 60 doctor day <= max_doctor_capacity_per_day rep) ∧
    infeasible_surgeries rep
    = infeasible_entry (max_doctor_capacity_per_day rep)
        <$> filter (λ s, ext_gt s.2 (max_doctor_capacity_per_day rep) = true)
              (min_buffered_durations_ rep) ∧
    (∀ x, x ∈ infeasible_surgeries rep →
       ∃ dur, is_duration x = Fin dur ∧
              dur > max_doctor_capacity_per_day rep ∧
              is_excess x = Fin (dur - max_doctor_capacity_per_day rep) ∧
              (is_id x, Fin dur) ∈ min_buffered_durations_ rep) ∧
    (individual_surgery_feasible rep = true ↔ infeasible_surgeries rep = []) ∧
    (individual_surgery_feasible rep = true ↔
     ∀ j dur, (j, Fin dur) ∈ min_buffered_durations_ rep →
              dur <= max_doctor_capacity_per_day rep).
Proof.
  destruct (check_instance_feasibility_total small_instance [0.1] (EpsFloat 0.5)
              120 60) as [rep Hrep].
  { discriminate. }
  { apply one_tenth_only. lra. }
  { cbn [check_epsilon_val]. lra. }
  { apply small_check_inputs_well_formed. }
  exists rep. split; [exact Hrep|].
  exact (X12_individual_check_flags_exactly small_instance [0.1] (EpsFloat 0.5)
           120 60 rep Hrep).
Defined.

(** ** The largest risk level a count of surgeries allows *)

Lemma reliability_checks_needed (e le ml ma : R) (N : nat) (c : ReliabilityCheck) :
  c ∈ reliability_checks e le ml ma N →
  rc_max_alpha_needed c
  = 1 - Rpower (1 - e) (1 / INR (rc_surgeries_per_day c)).
Proof.
  unfold reliability_checks. by intros (n & -> & _)%list_elem_of_fmap.
Qed.

Lemma ln_root (x : R) (n : nat) :
  0 < x → (1 <= n)%nat → INR n * ln (Rpower x (1 / INR n)) = ln x.
Proof.
  intros Hx Hn. unfold Rpower. rewrite ln_exp.
  assert (0 < INR n) by (apply lt_0_INR; lia). field. lra.
Qed.

(** X13: in a returned report, the [max_alpha_needed] of the check for [n]
    surgeries per day is the risk level at which [n] equal surgeries use
    the whole of the day's budget, [n * ln(1 - max_alpha_needed) =
    ln(1 - epsilon)]; it is below 1, and the check is feasible exactly when
    some configured risk level is at most [max_alpha_needed].  The reported
    [max_alpha_available] is the largest configured level, so
    [max_alpha_available <= max_alpha_needed] implies feasibility but is
    not required for it. *)
Theorem X13_max_alpha_needed (inst : Instance) (alphas : list R)
    (eps : Epsilon) (ot_room ot_doc : R) (rep : FeasibilityReport)
    (c : ReliabilityCheck) :
  check_instance_feasibility inst alphas eps ot_room ot_doc = Ok rep →
  c ∈ reliability_checks_ rep →
  rc_max_alpha_needed c < 1 ∧
  INR (rc_surgeries_per_day c) * ln (1 - rc_max_alpha_needed c)
  = ln (1 - report_epsilon rep) ∧
  (rc_feasible c = true ↔ ∃ a, a ∈ alphas ∧ a <= rc_max_alpha_needed c) ∧
  (rc_max_alpha_available c <= rc_max_alpha_needed c → rc_feasible c = true) ∧
  (∀ a, a ∈ alphas → a <= rc_max_alpha_available c).
Proof.
  intros Hrep Hc.
  destruct (check_instance_feasibility_inv _ _ _ _ _ _ Hrep)
    as (ma & le & lns & ml & Hma & Hle & Hlns & Hml & _ & Hreps & Hchecks & _).
  rewrite Hchecks in Hc. rewrite Hreps.
  set (e := check_epsilon_val eps) in *.
  apply py_log_Ok in Hle as [He ->].
  apply ln_alphas_Ok in Hlns as [Hlt ->].
  destruct (max_ln_alpha_is_min_alpha alphas ml Hlt Hml) as (a_min & Hin & Hmin & ->).
  pose proof (reliability_checks_needed _ _ _ _ _ _ Hc) as Hneeded.
  destruct (elem_of_reliability_checks _ _ _ _ _ _ Hc)
    as ([Hn1 _] & _ & _ & Hfeas & Havail).
  set (n := rc_surgeries_per_day c) in *.
  assert (Hpow : 0 < Rpower (1 - e) (1 / INR n)) by apply exp_pos.
  assert (Hroot : INR n * ln (1 - rc_max_alpha_needed c) = ln (1 - e)).
  { rewrite Hneeded.
    replace (1 - (1 - Rpower (1 - e) (1 / INR n)))
      with (Rpower (1 - e) (1 / INR n)) by lra.
    by apply ln_root. }
  assert (Hn : 0 < INR n) by (apply lt_0_INR; lia).
  assert (Hiff : rc_feasible c = true ↔ a_min <= rc_max_alpha_needed c).
  { rewrite Hfeas, bool_decide_eq_true, <- Hroot.
    pose proof (Hlt a_min Hin) as Ha.
    assert (Hequiv : ln (1 - a_min) >= ln (1 - rc_max_alpha_needed c)
                     ↔ a_min <= rc_max_alpha_needed c).
    { rewrite ln_ge_iff by lra. split; lra. }
    rewrite <- Hequiv. split; intros Hge; nra. }
  split_and!.
  - lra.
  - done.
  - rewrite Hiff. split.
    + intros Hle. by exists a_min.
    + intros (a & Ha & Hle). pose proof (Hmin a Ha). lra.
  - rewrite Hiff, Havail. intros Hle.
    apply py_max_Ok in Hma as [_ Hup]. pose proof (Hup a_min Hin). lra.
  - rewrite Havail. by apply py_max_Ok in Hma as [_ Hup].
Qed.

Lemma X13_witness :
  ∃ rep c,
    check_instance_feasibility small_instance [0.1] (EpsFloat 0.5) 120 60 = Ok rep ∧
    c ∈ reliability_checks_ rep ∧
    rc_max_alpha_needed c < 1 ∧
    INR (rc_surgeries_per_day c) * ln (1 - rc_max_alpha_needed c)
    = ln (1 - report_epsilon rep) ∧
    (rc_feasible c = true ↔ ∃ a, a ∈ [0.1] ∧ a <= rc_max_alpha_needed c) ∧
    (rc_max_alpha_available c <= rc_max_alpha_needed c → rc_feasible c = true) ∧
    (∀ a, a ∈ [0.1] → a <= rc_max_alpha_available c).
Proof.
  destruct (check_instance_feasibility_total small_instance [0.1] (EpsFloat 0.5)
              120 60) as [rep Hrep].
  { discriminate. }
  { apply one_tenth_only. lra. }
  { cbn [check_epsilon_val]. lra. }
  { apply small_check_inputs_well_formed. }
  destruct (check_instance_feasibility_inv _ _ _ _ _ _ Hrep)
    as (ma & le & lns & ml & _ & _ & _ & _ & _ & _ & Hchecks & _).
  destruct (reliability_checks_has (check_epsilon_val (EpsFloat 0.5)) le ml ma
              (length (surgeries small_instance)) 1) as (c & Hc & _).
  { cbn. lia. }
  rewrite <- Hchecks in Hc.
  exists rep, c. split; [exact Hrep|]. split; [exact Hc|].
  exact (X13_max_alpha_needed small_instance [0.1] (EpsFloat 0.5) 120 60 rep c
           Hrep Hc).
Defined.

(** ** The pre-check's minimum and the durations of the model *)

Lemma precompute_durations_cell_source (self : SurgeryScheduler)
    (durations : Durations) (j r k : string) (t : nat) (e : ext) :
  precompute_durations self = Ok durations →
  durations_get durations j r k t = Some e →
  ∃ s rm doc mu sigma a,
    (s ∈ surgeries (instance self) ∧ s_id s = j) ∧
    (rm ∈ rooms (instance self) ∧ r_id rm = r) ∧
    (doc ∈ doctors (instance self) ∧ k_id doc = k) ∧
    lookup_mu_sigma s rm doc = Ok (Some (mu, sigma)) ∧
    alpha_choices self !! t = Some a ∧
    buffer_duration mu sigma a = Ok e.
Proof.
  unfold durations_get. intros Hpre He.
  destruct (durations !! j) as [dj|] eqn:Hj; last first.
  { rewrite (lookup_total_gmap_None _ _ Hj) in He.
    rewrite !lookup_total_gmap_empty, lookup_empty in He. done. }
  rewrite (lookup_total_correct _ _ _ Hj) in He.
  destruct (dj !! r) as [djr|] eqn:Hr; last first.
  { rewrite (lookup_total_gmap_None _ _ Hr) in He.
    rewrite lookup_total_gmap_empty, lookup_empty in He. done. }
  rewrite (lookup_total_correct _ _ _ Hr) in He.
  destruct (djr !! k) as [cell|] eqn:Hk; last first.
  { rewrite (lookup_total_gmap_None _ _ Hk) in He.
    rewrite lookup_empty in He. done. }
  rewrite (lookup_total_correct _ _ _ Hk) in He.
  unfold precompute_durations in Hpre.
  destruct (build_dict_inv _ _ _ _ _ _ Hpre Hj) as (s & Hs & Hsj & Hdj).
  destruct (build_dict_inv _ _ _ _ _ _ Hdj Hr) as (rm & Hrm & Hrr & Hdjr).
  destruct (build_dict_inv _ _ _ _ _ _ Hdjr Hk) as (doc & Hdoc & Hkk & Hcell).
  destruct (duration_cell_inv _ _ _ _ _ _ _ Hcell He)
    as (mu & sigma & a & Hl & Ha & Hb).
  exists s, rm, doc, mu, sigma, a. done.
Qed.

Lemma precheck_mu_sigma_agrees (s : Surgery) (rm : Room) (doc : Doctor)
    (mu sigma : R) :
  lookup_mu_sigma s rm doc = Ok (Some (mu, sigma)) →
  (s_mu_sigma s = None → s_mu s = None ∧ s_sigma s = None) →
  precheck_mu_sigma s rm doc = (mu, sigma).
Proof.
  unfold lookup_mu_sigma, precheck_mu_sigma, precheck_params.
  destruct (s_mu_sigma s) as [ms|]; cbn.
  - destruct (ms !! combo_key (r_id rm) (k_id doc)) as [entry|]; [|done].
    intros (p & -> & [= ->])%bind_Ok _. done.
  - intros Hl [-> ->]; [done|]. cbn.
    destruct (s_duration_mean s) as [mean|]; [|done].
    destruct (_ && _); [done|].
    destruct (s_duration_std s) as [std|]; [|done].
    by injection Hl as <- <-.
Qed.

Lemma odds_antitone_pos (a b : R) :
  0 < a → a <= b → (1 - b) / b <= (1 - a) / a.
Proof.
  intros Ha Hab.
  apply Rmult_le_reg_r with (r := a * b); [nra|].
  replace ((1 - b) / b * (a * b)) with ((1 - b) * a) by (field; lra).
  replace ((1 - a) / a * (a * b)) with ((1 - a) * b) by (field; lra).
  nra.
Qed.

(** X14: the feasibility check under-estimates the model.  When the check is
    run with the scheduler's data, surgeries without a ['mu_sigma'] mapping
    carry no ['mu'] or ['sigma'] key, and no standard deviation is
    negative, every finite buffered duration that the scheduler stores for
    a surgery is at least a minimum buffered duration that the check
    reports for this surgery. *)
Theorem X14_precheck_minimum_bounds_durations (self : SurgeryScheduler)
    (rep : FeasibilityReport) (durations : Durations)
    (j r k : string) (t : nat) (y : R) :
  check_instance_feasibility (instance self) (alpha_choices self) (epsilon self)
    (max_ot_room self) (max_ot_doc self) = Ok rep →
  precompute_durations self = Ok durations →
  (∀ s, s ∈ surgeries (instance self) → s_mu_sigma s = None →
        s_mu s = None ∧ s_sigma s = None) →
  (∀ s rm doc mu sigma,
     s ∈ surgeries (instance self) → rm ∈ rooms (instance self) →
     doc ∈ doctors (instance self) →
     lookup_mu_sigma s rm doc = Ok (Some (mu, sigma)) → 0 <= sigma) →
  durations_get durations j r k t = Some (Fin y) →
  ∃ x, (j, Fin x) ∈ min_buffered_durations_ rep ∧ x <= y.
Proof.
  intros Hrep Hpre Hlegacy Hsigma Hy.
  destruct (precompute_durations_cell_source _ _ _ _ _ _ _ Hpre Hy)
    as (s & rm & doc & mu & sigma & a & [Hs <-] & [Hrm _] & [Hdoc _]
        & Hl & Ha & Hb).
  assert (Ha1 : a < 1).
  { destruct (Rlt_le_dec a 1) as [?|Hge]; [done|].
    unfold buffer_duration in Hb. by rewrite bool_decide_eq_true_2 in Hb by lra. }
  apply buffer_duration_below_1 in Hb as [Ha0 [= ->]]; [|done].
  destruct (check_instance_feasibility_capacity_inv _ _ _ _ _ _ Hrep)
    as (Hmax & Hmbd & _).
  apply py_max_Ok in Hmax as [_ Hup].
  pose proof (Hup a (list_elem_of_lookup_2 _ _ _ Ha)) as Hle.
  apply min_buffered_durations_inv in Hmbd.
  apply list_elem_of_lookup in Hs as [i Hi].
  destruct (Forall2_lookup_l _ _ _ _ _ Hmbd Hi) as ([j' e] & Hp & Hj & Hfold).
  cbn [fst snd] in *. subst j'.
  destruct (min_dur_fold _ _ _ _ _ Hfold) as (_ & Hall & _ & Hfin).
  assert (Hin : (rm, doc) ∈ (room ← rooms (instance self);
                             doctor ← doctors (instance self); [(room, doctor)]))
    by (by apply elem_of_room_doctor_pairs).
  destruct Hfin as ([x ->] & Hne & Hpos).
  { intros Hnil. rewrite Hnil in Hin. by apply elem_of_nil in Hin. }
  exists x. split; [by eapply list_elem_of_lookup_2|].
  specialize (Hall _ Hin). cbn in Hall.
  unfold precheck_buffered in Hall. cbn [fst snd] in Hall.
  rewrite (precheck_mu_sigma_agrees _ _ _ _ _ Hl
             (Hlegacy s (list_elem_of_lookup_2 _ _ _ Hi))) in Hall.
  cbn [fst snd] in Hall.
  assert (Hmono : buffered mu sigma (report_max_alpha rep) <= buffered mu sigma a).
  { unfold buffered.
    apply Rplus_le_compat_l, Rmult_le_compat_l;
      [exact (Hsigma s rm doc mu sigma (list_elem_of_lookup_2 _ _ _ Hi)
                Hrm Hdoc Hl)|].
    apply sqrt_le_1_alt, odds_antitone_pos; done. }
  lra.
Qed.

Lemma small_scheduler_precompute : is_Ok (precompute_durations small_scheduler).
Proof.
  apply (small_precompute _ _ _ _).
  - intros s. apply two_flat_complete; apply surgery_flat_complete.
  - apply one_tenth_only. lra.
Qed.

Lemma small_scheduler_duration (durations : Durations) :
  precompute_durations small_scheduler = Ok durations →
  durations_get durations "S1" "OR1" "Doc1" 0 = Some (Fin 200).
Proof.
  apply (small_duration _ _ _ _ (surgery_flat "S1" 200 0)).
  - by apply two_ids_NoDup.
  - apply NoDup_singleton.
  - apply list_elem_of_here.
  - apply list_elem_of_here.
  - reflexivity.
  - apply one_tenth_only. lra.
  - apply one_tenth_only. lra.
  - by eexists.
Qed.

Lemma small_instance_sigma (s : Surgery) (rm : Room) (doc : Doctor) (mu sigma : R) :
  s ∈ surgeries small_instance →
  lookup_mu_sigma s rm doc = Ok (Some (mu, sigma)) → 0 <= sigma.
Proof.
  intros [->|[->|[]%elem_of_nil]%elem_of_cons]%elem_of_cons;
    cbn; intros [= <- <-]; lra.
Qed.

Lemma small_instance_legacy (s : Surgery) :
  s ∈ surgeries small_instance → s_mu_sigma s = None →
  s_mu s = None ∧ s_sigma s = None.
Proof.
  by intros [->|[->|[]%elem_of_nil]%elem_of_cons]%elem_of_cons.
Qed.

Lemma X14_witness :
  ∃ rep durations,
    check_instance_feasibility (instance small_scheduler)
      (alpha_choices small_scheduler) (epsilon small_scheduler)
      (max_ot_room small_scheduler) (max_ot_doc small_scheduler) = Ok rep ∧
    precompute_durations small_scheduler = Ok durations ∧
    durations_get durations "S1" "OR1" "Doc1" 0 = Some (Fin 200) ∧
    ∃ x, ("S1", Fin x) ∈ min_buffered_durations_ rep ∧ x <= 200.
Proof.
  destruct (check_instance_feasibility_total small_instance [0.1] (EpsFloat 0.5)
              120 60) as [rep Hrep].
  { discriminate. }
  { apply one_tenth_only. lra. }
  { cbn [check_epsilon_val]. lra. }
  { apply small_check_inputs_well_formed. }
  destruct small_scheduler_precompute as [durations Hpre].
  pose proof (small_scheduler_duration durations Hpre) as Hy.
  exists rep, durations. split; [exact Hrep|]. split; [exact Hpre|].
  split; [exact Hy|].
  apply (X14_precheck_minimum_bounds_durations small_scheduler rep durations
           "S1" "OR1" "Doc1" 0%nat 200 Hrep Hpre).
  - apply small_instance_legacy.
  - intros s rm doc mu sigma Hs _ _. by apply small_instance_sigma.
  - exact Hy.
Defined.

(** ** The capacity totals of the report *)

Lemma foldl_Rplus_shift (f : Day → R) (c acc1 acc2 : R) (l : list Day) :
  foldl Rplus acc2 ((λ d, f d + c) <$> l)
  = foldl Rplus acc1 (f <$> l) + (acc2 - acc1) + INR (length l) * c.
Proof.
  revert acc1 acc2. induction l as [|d l IH]; intros acc1 acc2.
  - cbn. lra.
  - cbn [fmap list_fmap foldl length]. rewrite S_INR.
    rewrite (IH (acc1 + f d) (acc2 + (f d + c))). lra.
Qed.

Lemma doctor_totals_fold (ot_doc : R) (l : list (Doctor * Day))
    (acc totals : R * R) :
  foldlM (λ (acc : R * R) (kd : Doctor * Day),
            daily_cap ← daily_cap_total kd.1 kd.2;
            Ok (acc.1 + daily_cap, acc.2 + (daily_cap + ot_doc)))
         acc l = Ok totals →
  totals.2 - totals.1 = acc.2 - acc.1 + INR (length l) * ot_doc.
Proof.
  revert acc. induction l as [|kd l IH]; intros acc.
  - intros [= <-]. cbn. lra.
  - rewrite foldlM_cons.
    intros (acc' & (cap & _ & [= <-])%bind_Ok & Hrest)%bind_Ok.
    rewrite (IH _ Hrest). cbn [fst snd length]. rewrite S_INR. lra.
Qed.

Lemma length_doctor_day_pairs (ks : list Doctor) (ds : list Day) :
  length (doctor ← ks; day ← ds; [(doctor, day)]) = (length ks * length ds)%nat.
Proof.
  assert (Hinner : ∀ k : Doctor, length (day ← ds; [(k, day)]) = length ds).
  { intros k. induction ds as [|d ds IHd]; [done|].
    cbn [mbind list_bind]. rewrite length_app, IHd. done. }
  induction ks as [|k ks IH]; [done|].
  cbn [mbind list_bind]. rewrite length_app, IH, Hinner. done.
Qed.

Lemma total_min_finite (l : list ext) (acc : R) :
  (∀ e, e ∈ l → ∃ x, e = Fin x) →
  ∃ x, foldl ext_add (Fin acc) l = Fin x.
Proof.
  revert acc. induction l as [|e l IH]; intros acc Hfin; [by eexists|].
  destruct (Hfin e (list_elem_of_here _ _)) as [x ->]. cbn.
  apply IH. intros e' He'. by apply Hfin, list_elem_of_further.
Qed.

(** X15: in a returned report the total minimum buffered duration is finite;
    the maximum room capacity is the regular one plus the maximum room
    overtime for every day and room, and the maximum doctor capacity the
    regular one plus the maximum doctor overtime for every doctor and day;
    the room (doctor) check passes exactly when the total is at most the
    maximum room (doctor) capacity, its deficit is 0 when it passes and the
    positive amount by which the total exceeds the capacity when it fails;
    and the instance is declared feasible exactly when the room, doctor,
    individual and reliability checks all pass. *)
Theorem X15_capacity_report_is_consistent (inst : Instance) (alphas : list R)
    (eps : Epsilon) (ot_room ot_doc : R) (rep : FeasibilityReport) :
  check_instance_feasibility inst alphas eps ot_room ot_doc = Ok rep →
  ∃ total,
    total_min_buffered rep = Fin total ∧
    total_max_room_capacity rep
    = total_regular_room_capacity rep
      + INR (length (days inst)) * INR (length (rooms inst)) * ot_room ∧
    total_max_doctor_capacity rep
    = total_regular_doctor_capacity rep
      + INR (length (doctors inst)) * INR (length (days inst)) * ot_doc ∧
    (room_capacity_feasible rep = true ↔ total <= total_max_room_capacity rep) ∧
    (doctor_capacity_feasible rep = true ↔
     total <= total_max_doctor_capacity rep) ∧
    room_capacity_deficit rep
    = Fin (Rmax 0 (total - total_max_room_capacity rep)) ∧
    doctor_capacity_deficit rep
    = Fin (Rmax 0 (total - total_max_doctor_capacity rep)) ∧
    (overall_feasible rep = true ↔
     room_capacity_feasible rep = true ∧ doctor_capacity_feasible rep = true ∧
     individual_surgery_feasible rep = true ∧ reliability_feasible rep = true).
Proof.
  intros Hrep.
  destruct (returned_report_nonempty _ _ _ _ _ _ Hrep) as (Hrooms & Hdocs & _).
  destruct (check_instance_feasibility_capacity_inv _ _ _ _ _ _ Hrep)
    as (_ & Hmbd & Htot & Hrr & Hmr & Hrf & Hrd & Hdt & Hdf & Hdd & _ & _
        & Hcf & Hof & _).
  assert (Hfin : ∀ e, e ∈ (min_buffered_durations_ rep).*2 → ∃ x, e = Fin x).
  { intros e ([j e'] & -> & Hs)%list_elem_of_fmap.
    apply min_buffered_durations_inv in Hmbd.
    apply list_elem_of_lookup in Hs as [i Hi].
    destruct (Forall2_lookup_r _ _ _ _ _ Hmbd Hi) as (surgery & _ & _ & Hfold).
    destruct (min_dur_fold _ _ _ _ _ Hfold) as (_ & _ & _ & Hf).
    apply Hf.
    destruct (rooms inst) as [|r rs]; [done|].
    destruct (doctors inst) as [|k ks]; [done|]. done. }
  destruct (total_min_finite _ 0 Hfin) as [total Htotal].
  rewrite <- Htot in Htotal. exists total.
  assert (Hroom : total_max_room_capacity rep
                  = total_regular_room_capacity rep
                    + INR (length (days inst)) * INR (length (rooms inst)) * ot_room).
  { rewrite Hmr, Hrr. unfold py_sum.
    rewrite (foldl_Rplus_shift d_H ot_room 0 0). lra. }
  assert (Hdoc : total_max_doctor_capacity rep
                 = total_regular_doctor_capacity rep
                   + INR (length (doctors inst)) * INR (length (days inst)) * ot_doc).
  { unfold doctor_capacity_totals in Hdt.
    apply doctor_totals_fold in Hdt. cbn [fst snd] in Hdt.
    rewrite length_doctor_day_pairs, mult_INR in Hdt. lra. }
  rewrite Htotal in Hrf, Hrd, Hdf, Hdd. cbn [ext_le ext_sub] in Hrf, Hrd, Hdf, Hdd.
  split_and!.
  - done.
  - done.
  - done.
  - by rewrite Hrf, bool_decide_eq_true.
  - by rewrite Hdf, bool_decide_eq_true.
  - rewrite Hrd, Hrf. unfold Rmax.
    destruct (Rle_dec total (total_max_room_capacity rep)) as [Hle|Hle];
      [rewrite bool_decide_eq_true_2 by done
      |rewrite bool_decide_eq_false_2 by done];
      cbn [negb]; f_equal; destruct (Rle_dec _ _); lra.
  - rewrite Hdd, Hdf. unfold Rmax.
    destruct (Rle_dec total (total_max_doctor_capacity rep)) as [Hle|Hle];
      [rewrite bool_decide_eq_true_2 by done
      |rewrite bool_decide_eq_false_2 by done];
      cbn [negb]; f_equal; destruct (Rle_dec _ _); lra.
  - rewrite Hof, Hcf, !andb_true_iff. tauto.
Qed.

Lemma X15_witness :
  ∃ rep total,
    check_instance_feasibility small_instance [0.1] (EpsFloat 0.5) 120 60 = Ok rep ∧
    total_min_buffered rep = Fin total ∧
    total_max_room_capacity rep
    = total_regular_room_capacity rep
      + INR (length (days small_instance)) * INR (length (rooms small_instance))
        * 120 ∧
    total_max_doctor_capacity rep
    = total_regular_doctor_capacity rep
      + INR (length (doctors small_instance)) * INR (length (days small_instance))
        * 60 ∧
    (room_capacity_feasible rep = true ↔ total <= total_max_room_capacity rep) ∧
    (doctor_capacity_feasible rep = true ↔
     total <= total_max_doctor_capacity rep) ∧
    room_capacity_deficit rep
    = Fin (Rmax 0 (total - total_max_room_capacity rep)) ∧
    doctor_capacity_deficit rep
    = Fin (Rmax 0 (total - total_max_doctor_capacity rep)) ∧
    (overall_feasible rep = true ↔
     room_capacity_feasible rep = true ∧ doctor_capacity_feasible rep = true ∧
     individual_surgery_feasible rep = true ∧ reliability_feasible rep = true).
Proof.
  destruct (check_instance_feasibility_total small_instance [0.1] (EpsFloat 0.5)
              120 60) as [rep Hrep].
  { discriminate. }
  { apply one_tenth_only. lra. }
  { cbn [check_epsilon_val]. lra. }
  { apply small_check_inputs_well_formed. }
  destruct (X15_capacity_report_is_consistent small_instance [0.1] (EpsFloat 0.5)
              120 60 rep Hrep) as (total & Hrest).
  exists rep, total. split; [exact Hrep|]. exact Hrest.
Defined.

(** ** One sequencing variable per pair of surgeries *)

Lemma id_lt_irrefl (j : string) : id_lt j j = false.
Proof.
  unfold id_lt, String.ltb.
  pose proof (String.compare_antisym j j) as Ha.
  destruct (String.compare j j); done.
Qed.

Lemma id_lt_total (j i : string) :
  j ≠ i → id_lt j i = negb (id_lt i j).
Proof.
  intros Hne. unfold id_lt, String.ltb.
  rewrite (String.compare_antisym i j).
  destruct (String.compare j i) eqn:Hc; try done.
  by apply String.compare_eq_iff in Hc.
Qed.

Lemma elem_of_u_room_index (J D R_ : list string) (j i d r : string) :
  (j, i, d, r) ∈ u_room_index J D R_ ↔
  j ∈ J ∧ i ∈ J ∧ d ∈ D ∧ r ∈ R_ ∧ id_lt j i = true.
Proof.
  unfold u_room_index. split.
  - intros (j' & Hin & Hj)%list_elem_of_bind.
    apply list_elem_of_bind in Hin as (i' & Hin & Hi).
    apply list_elem_of_bind in Hin as (d' & Hin & Hd).
    apply list_elem_of_bind in Hin as (r' & Hin & Hr).
    destruct (id_lt j' i') eqn:Hlt; [|by apply elem_of_nil in Hin].
    apply list_elem_of_singleton in Hin. by injection Hin as -> -> -> ->.
  - intros (Hj & Hi & Hd & Hr & Hlt).
    apply list_elem_of_bind. exists j. split; [|done].
    apply list_elem_of_bind. exists i. split; [|done].
    apply list_elem_of_bind. exists d. split; [|done].
    apply list_elem_of_bind. exists r. split; [|done].
    rewrite Hlt. apply list_elem_of_here.
Qed.

(** X16: the room sequencing variable [u_room] is created once per
    unordered pair of surgeries: for a day and a room of the instance and
    two surgeries with different identifiers, exactly one of the two orders
    of the pair is an index of [u_room], and no index pairs a surgery with
    itself. *)
Theorem X16_one_u_room_per_pair (J D R_ : list string) (j i d r : string) :
  ((j, i, d, r) ∈ u_room_index J D R_ → j ≠ i ∧ (i, j, d, r) ∉ u_room_index J D R_) ∧
  (j ∈ J → i ∈ J → d ∈ D → r ∈ R_ → j ≠ i →
   (j, i, d, r) ∈ u_room_index J D R_ ∨ (i, j, d, r) ∈ u_room_index J D R_).
Proof.
  split.
  - intros (Hj & Hi & Hd & Hr & Hlt)%elem_of_u_room_index.
    assert (Hne : j ≠ i).
    { intros ->. by rewrite id_lt_irrefl in Hlt. }
    split; [done|].
    intros (_ & _ & _ & _ & Hlt')%elem_of_u_room_index.
    rewrite (id_lt_total j i Hne), Hlt' in Hlt. done.
  - intros Hj Hi Hd Hr Hne.
    destruct (id_lt j i) eqn:Hlt.
    + left. by apply elem_of_u_room_index.
    + right. apply elem_of_u_room_index. split_and!; try done.
      rewrite (id_lt_total i j) by done. by rewrite Hlt.
Qed.

Lemma X16_witness :
  ("S1", "S2", "Mon", "OR1") ∈ u_room_index ["S1"; "S2"] ["Mon"] ["OR1"] ∨
  ("S2", "S1", "Mon", "OR1") ∈ u_room_index ["S1"; "S2"] ["Mon"] ["OR1"].
Proof.
  apply (X16_one_u_room_per_pair ["S1"; "S2"] ["Mon"] ["OR1"] "S1" "S2" "Mon" "OR1").
  - apply list_elem_of_here.
  - apply list_elem_of_further, list_elem_of_here.
  - apply list_elem_of_here.
  - apply list_elem_of_here.
  - discriminate.
Defined.

(** ** When the precomputation returns *)

Lemma buffer_duration_is_Ok (mu sigma a : R) :
  is_Ok (buffer_duration mu sigma a) ↔ 0 < a.
Proof.
  split; [|apply buffer_duration_total].
  intros [e He]. destruct (Rlt_le_dec a 1) as [Hlt|Hge]; [|lra].
  by apply buffer_duration_below_1 in He as [? _].
Qed.

Lemma duration_cell_is_Ok (alphas : list R) (s : Surgery) (rm : Room) (doc : Doctor) :
  is_Ok (duration_cell alphas s rm doc) ↔
  ∃ ms, lookup_mu_sigma s rm doc = Ok ms ∧
        (is_Some ms → ∀ a, a ∈ alphas → 0 < a).
Proof.
  unfold duration_cell. rewrite bind_is_Ok. split.
  - intros (ms & Hl & Hcell). exists ms. split; [done|].
    intros [[mu sigma] ->] a [t Ht]%list_elem_of_lookup.
    destruct Hcell as [cell Hcell].
    apply (buffer_duration_is_Ok mu sigma).
    apply (build_dict_all_ok _ _ _ _ (t, a) Hcell). by apply elem_of_enumerate.
  - intros (ms & Hl & Hpos). exists ms. split; [done|].
    destruct ms as [[mu sigma]|]; [|by eexists].
    apply build_dict_total. intros [t a] Hta. cbn.
    apply buffer_duration_is_Ok, Hpos; [done|].
    apply elem_of_enumerate in Hta. by eapply list_elem_of_lookup_2.
Qed.

Lemma specialty_test (s : Surgery) (rm : Room) (doc : Doctor) :
  truthy (s_specialty s)
  && (negb (bool_decide (default "" (s_specialty s) ∈ default [] (k_specialties doc)))
      || negb (bool_decide (default "" (s_specialty s) ∈ default [] (r_types rm))))
  = false
  ↔ specialty_allows s rm doc.
Proof.
  unfold specialty_allows, truthy.
  destruct (s_specialty s) as [sp|]; cbn; [|by split].
  rewrite andb_false_iff, negb_false_iff, orb_false_iff, !negb_false_iff,
    !bool_decide_eq_true. split.
  - intros [Hempty|Hin] sp' [= <-] Hne; [done|done].
  - intros Hall. destruct (decide (sp = "")) as [->|Hne]; [by left|].
    right. by apply Hall.
Qed.

Lemma lookup_mu_sigma_is_Ok (s : Surgery) (rm : Room) (doc : Doctor) :
  is_Ok (lookup_mu_sigma s rm doc) ↔ parameters_readable s rm doc.
Proof.
  unfold lookup_mu_sigma, parameters_readable.
  destruct (s_mu_sigma s) as [ms|].
  - destruct (ms !! combo_key (r_id rm) (k_id doc)) as [entry|].
    + rewrite bind_is_Ok. split.
      * intros (p & Hp & _) entry' [= <-]. apply read_entry_is_Ok. by exists p.
      * intros Hall. destruct (proj2 (read_entry_is_Ok entry) (Hall entry eq_refl))
          as [p Hp].
        exists p. split; [done|]. by eexists.
    + split; [by intros _ entry [=]|]. intros _. by eexists.
  - destruct (s_duration_mean s) as [mean|]; last first.
    { split; [by intros _ [? [=]]|]. intros _. by eexists. }
    pose proof (specialty_test s rm doc) as Htest.
    destruct (truthy (s_specialty s) && _) eqn:Hb.
    + split; [|intros _; by eexists].
      intros _ _ Hallow. apply Htest in Hallow. done.
    + destruct (s_duration_std s) as [std|].
      * split; [intros _ _ _|intros _]; by eexists.
      * split; [by intros [? [=]]|].
        intros Hstd. destruct Hstd as [? [=]]; [by eexists|by apply Htest].
Qed.

(** X17: [precompute_durations] returns exactly when, for every surgery,
    room and doctor of the instance, reading the parameters raises nothing
    and, if the combination has parameters, every configured risk level is
    positive; in every other case it raises.  Reading the parameters raises
    nothing exactly when the mapping's entry for the room and the doctor,
    if there is one, carries both ['mu'] and ['sigma'], and a surgery
    without a mapping that has ['duration_mean'] and passes the specialty
    test also has ['duration_std']. *)
Theorem X17_precompute_returns_exactly (self : SurgeryScheduler) :
  (is_Ok (precompute_durations self) ↔
   ∀ s rm doc,
     s ∈ surgeries (instance self) → rm ∈ rooms (instance self) →
     doc ∈ doctors (instance self) →
     parameters_readable s rm doc ∧
     ∀ ms, lookup_mu_sigma s rm doc = Ok ms → is_Some ms →
           ∀ a, a ∈ alpha_choices self → 0 < a) ∧
  (∀ s rm doc, is_Ok (lookup_mu_sigma s rm doc) ↔ parameters_readable s rm doc).
Proof.
  split; [|apply lookup_mu_sigma_is_Ok].
  unfold precompute_durations. split.
  - intros [durations Hpre] s rm doc Hs Hrm Hdoc.
    destruct (build_dict_all_ok _ _ _ _ s Hpre Hs) as [dj Hdj].
    destruct (build_dict_all_ok _ _ _ _ rm Hdj Hrm) as [djr Hdjr].
    pose proof (build_dict_all_ok _ _ _ _ doc Hdjr Hdoc) as Hcell.
    apply duration_cell_is_Ok in Hcell as (ms & Hms & Hpos). split.
    + apply lookup_mu_sigma_is_Ok. by exists ms.
    + intros ms' Hms'. rewrite Hms in Hms'. by injection Hms' as <-.
  - intros Hall.
    apply build_dict_total. intros s Hs.
    apply build_dict_total. intros rm Hrm.
    apply build_dict_total. intros doc Hdoc.
    apply duration_cell_is_Ok.
    destruct (Hall s rm doc Hs Hrm Hdoc) as [Hread Hpos].
    apply lookup_mu_sigma_is_Ok in Hread as [ms Hms].
    exists ms. split; [done|]. by apply Hpos.
Qed.

Lemma X3_witness :
  ∃ durations,
    precompute_durations small_scheduler = Ok durations ∧
    (∀ j r k, j ∈ sched_J small_scheduler → r ∈ sched_R small_scheduler →
       k ∈ sched_K small_scheduler →
       ∃ dj djr cell,
         durations !! j = Some dj ∧ dj !! r = Some djr ∧ djr !! k = Some cell) ∧
    (∀ j, is_Some (durations !! j) → j ∈ sched_J small_scheduler) ∧
    (∀ j r k t, is_Some (durations_get durations j r k t) →
       t ∈ sched_T small_scheduler).
Proof.
  destruct small_scheduler_precompute as [durations Hpre].
  exists durations. split; [exact Hpre|].
  exact (X3_durations_keys small_scheduler durations Hpre).
Defined.

(** ** Input errors *)










(** ** More doctor overtime, on an instance where it matters *)

Lemma long_surgery_precompute : is_Ok (precompute_durations long_surgery_scheduler).
Proof.
  apply precompute_durations_total.
  - apply one_tenth_only. lra.
  - intros s. apply two_flat_complete; apply surgery_flat_complete.
Qed.

Lemma long_surgery_duration (durations : Durations) :
  precompute_durations long_surgery_scheduler = Ok durations →
  durations_get durations "S2" "OR1" "Doc1" 0 = Some (Fin 600).
Proof.
  intros Hpre.
  destruct (precompute_durations_get long_surgery_scheduler durations
              (surgery_flat "S2" 600 0) room1 doctor1 600 0 0%nat 0.1 Hpre)
    as (e & He & Hget).
  - by apply two_ids_NoDup.
  - apply NoDup_singleton.
  - apply NoDup_singleton.
  - apply list_elem_of_further, list_elem_of_here.
  - apply list_elem_of_here.
  - apply list_elem_of_here.
  - reflexivity.
  - reflexivity.
  - rewrite buffer_duration_unit in He by lra. injection He as <-.
    cbn in Hget. rewrite Hget. unfold buffered. do 2 f_equal. lra.
Qed.

Lemma long_surgery_cap (ot : R) :
  doctor_day_cap (sched_day_dict (with_max_ot_doc long_surgery_scheduler ot))
    (sched_doc_dict (with_max_ot_doc long_surgery_scheduler ot)) "Doc1" "Mon"
  = 480.
Proof.
  apply (small_cap [surgery_flat "S1" 200 0; surgery_flat "S2" 600 0] [doctor1]
           [0.1] (EpsFloat 0.5)).
  - apply NoDup_singleton.
  - apply list_elem_of_here.
Qed.

Lemma long_surgery_fixed (ot : R) (durations : Durations) :
  precompute_durations long_surgery_scheduler = Ok durations →
  ("S2", "Mon", "OR1", "Doc1", 0%nat)
    ∈ sched_fixed_vars (with_max_ot_doc long_surgery_scheduler ot) durations
  ↔ 600 > 480 + ot.
Proof.
  intros Hpre. rewrite elem_of_sched_fixed_vars, long_surgery_cap.
  rewrite (long_surgery_duration durations Hpre). split.
  - intros (_ & _ & _ & _ & _ & [Hz|(dur & [= <-] & Hgt)]); [lra|].
    by apply bool_decide_eq_true_1 in Hgt.
  - intros Hgt. split_and!.
    + apply list_elem_of_further, list_elem_of_here.
    + apply list_elem_of_here.
    + apply list_elem_of_here.
    + apply list_elem_of_here.
    + apply list_elem_of_here.
    + right. exists (Fin 600). split; [done|]. by apply bool_decide_eq_true_2.
Qed.

Lemma X2_witness :
  ∃ durations,
    precompute_durations long_surgery_scheduler = Ok durations ∧
    ("S1", "Mon", "OR1", "Doc1", 0%nat)
      ∈ sched_valid long_surgery_scheduler durations ∧
    ("S2", "Mon", "OR1", "Doc1", 0%nat)
      ∈ sched_fixed_vars long_surgery_scheduler durations ∧
    ("S2", "Mon", "OR1", "Doc1", 0%nat)
      ∈ sched_valid (with_max_ot_doc long_surgery_scheduler 120) durations ∧
    sched_valid long_surgery_scheduler durations
      ⊆ sched_valid (with_max_ot_doc long_surgery_scheduler 120) durations ∧
    sched_fixed_vars (with_max_ot_doc long_surgery_scheduler 120) durations
      ⊆ sched_fixed_vars long_surgery_scheduler durations.
Proof.
  destruct long_surgery_precompute as [durations Hpre].
  exists durations. split; [exact Hpre|]. split_and!.
  - apply (small_valid [surgery_flat "S1" 200 0; surgery_flat "S2" 600 0]
             [doctor1] [0.1] (EpsFloat 0.5) (surgery_flat "S1" 200 0)).
    + by apply two_ids_NoDup.
    + apply NoDup_singleton.
    + apply list_elem_of_here.
    + apply list_elem_of_here.
    + reflexivity.
    + apply one_tenth_only. lra.
    + apply one_tenth_only. lra.
    + by eexists.
    + exact Hpre.
  - apply (long_surgery_fixed 60 durations Hpre). lra.
  - apply sched_valid_intro.
    + apply list_elem_of_further, list_elem_of_here.
    + apply list_elem_of_here.
    + apply list_elem_of_here.
    + apply list_elem_of_here.
    + apply list_elem_of_here.
    + rewrite long_surgery_cap. lra.
    + rewrite (long_surgery_duration durations Hpre). by eexists.
    + intros Hin. apply (long_surgery_fixed 120 durations Hpre) in Hin. lra.
  - apply (X2_overtime_monotone long_surgery_scheduler
             (with_max_ot_doc long_surgery_scheduler 120) durations);
      [reflexivity|reflexivity|cbn; lra].
  - apply (X2_overtime_monotone long_surgery_scheduler
             (with_max_ot_doc long_surgery_scheduler 120) durations);
      [reflexivity|reflexivity|cbn; lra].
Defined.
